(** * STREAM memory-bandwidth benchmark (stream.c, revision 5.10 with the
      gather / scatter / indirect-dot-product extension)

    A shallow embedding of [main], [checktick], [mysecond] and
    [checkSTREAMresults], followed by the properties of the design
    document that concern them and by further properties of the program.

    Conventions of the embedding.

    - Values of type [STREAM_TYPE] and [double] are IEEE 754 numbers,
      represented by [spec_float]; every C operation is the correctly
      rounded operation of its type ([SFadd], [SFmul], ... at precision 24
      or 53).  Expressions are evaluated operation by operation in the type
      C gives them (no extended precision, no contraction into fused
      multiply-add).
    - The static arrays are lists; an access outside an array, a division
      of integers by zero, the use of an uninitialised variable and a
      conversion of a [double] that does not fit [int] are undefined in C
      and make the embedded function return [None].
    - [#pragma omp parallel for] loops are executed sequentially, in
      increasing index order (the single-threaded execution).
    - The operating system enters through an [environment]: the values
      successive clock reads return, and the values successive calls of
      [rand()] return.  The busy-wait of [checktick] takes fuel. *)

From Stdlib Require Import String.
From Stdlib Require Import ZArith Lia Bool.
From Stdlib Require Import SpecFloat.
From stdpp Require Import base option list.

Local Open Scope nat_scope.

(** ** Arithmetic of the C types *)

(** [STREAM_TYPE] is [double] unless the compile line says [float]. *)
Inductive STREAM_TYPE : Set := STREAM_float | STREAM_double.

Definition sizeof (ty : STREAM_TYPE) : nat :=
  match ty with STREAM_float => 4 | STREAM_double => 8 end.

Definition prec_of (ty : STREAM_TYPE) : Z :=
  match ty with STREAM_float => 24%Z | STREAM_double => 53%Z end.

Definition emax_of (ty : STREAM_TYPE) : Z :=
  match ty with STREAM_float => 128%Z | STREAM_double => 1024%Z end.

Definition fadd (ty : STREAM_TYPE) : spec_float -> spec_float -> spec_float :=
  SFadd (prec_of ty) (emax_of ty).
Definition fsub (ty : STREAM_TYPE) : spec_float -> spec_float -> spec_float :=
  SFsub (prec_of ty) (emax_of ty).
Definition fmul (ty : STREAM_TYPE) : spec_float -> spec_float -> spec_float :=
  SFmul (prec_of ty) (emax_of ty).
Definition fdiv (ty : STREAM_TYPE) : spec_float -> spec_float -> spec_float :=
  SFdiv (prec_of ty) (emax_of ty).

(** Conversion of a floating-point value to type [ty] (round to nearest,
    ties to even). *)
Definition cast (ty : STREAM_TYPE) (v : spec_float) : spec_float :=
  match v with
  | S754_finite s m e => binary_round (prec_of ty) (emax_of ty) s m e
  | _ => v
  end.

(** Conversion of an integer to type [ty]. *)
Definition of_int (ty : STREAM_TYPE) (z : Z) : spec_float :=
  binary_normalize (prec_of ty) (emax_of ty) z 0 false.

(** A [STREAM_TYPE] operand meeting a [double] operand is promoted; a
    [double] assigned to a [STREAM_TYPE] object is converted. *)
Definition to_double (ty : STREAM_TYPE) (v : spec_float) : spec_float :=
  match ty with STREAM_double => v | STREAM_float => cast STREAM_double v end.

Definition of_double (ty : STREAM_TYPE) (v : spec_float) : spec_float :=
  match ty with STREAM_double => v | STREAM_float => cast STREAM_float v end.

Definition dadd : spec_float -> spec_float -> spec_float := fadd STREAM_double.
Definition dsub : spec_float -> spec_float -> spec_float := fsub STREAM_double.
Definition dmul : spec_float -> spec_float -> spec_float := fmul STREAM_double.
Definition ddiv : spec_float -> spec_float -> spec_float := fdiv STREAM_double.

(** The [double] constants the program writes.  A decimal constant denotes
    the [double] nearest to it; for [1.0E-6], [1.e-9] and [1.e-13] that is
    the correctly rounded quotient of two exactly representable integers. *)
Definition c_0 : spec_float := S754_zero false.
Definition c_1 : spec_float := of_int STREAM_double 1.
Definition c_2 : spec_float := of_int STREAM_double 2.
Definition c_3 : spec_float := of_int STREAM_double 3.
Definition c_1E6 : spec_float := of_int STREAM_double 1000000.
Definition c_1Em6 : spec_float := ddiv c_1 c_1E6.
Definition c_1Em9 : spec_float := ddiv c_1 (of_int STREAM_double 1000000000).
Definition c_1Em13 : spec_float := ddiv c_1 (of_int STREAM_double 10000000000000).

(** [FLT_MAX] of <float.h>, (2^24 - 1) * 2^104, as a [double]. *)
Definition FLT_MAX : spec_float :=
  binary_normalize 53 1024 (2 ^ 24 - 1) 104 false.

(** [# define MIN(x,y) ((x)<(y)?(x):(y))] and
    [# define MAX(x,y) ((x)>(y)?(x):(y))], at a type whose [<] is [ltb]. *)
Definition MIN {A : Type} (ltb : A -> A -> bool) (x y : A) : A :=
  if ltb x y then x else y.
Definition MAX {A : Type} (ltb : A -> A -> bool) (x y : A) : A :=
  if ltb y x then x else y.

(** [#define abs(a) ((a) >= 0 ? (a) : -(a))] *)
Definition abs (v : spec_float) : spec_float :=
  if SFleb c_0 v then v else SFopp v.

(** [int] is 32 bits wide; a wider integer converted to [int] wraps. *)
Definition INT_MIN : Z := (- 2 ^ 31)%Z.
Definition INT_MAX : Z := (2 ^ 31 - 1)%Z.
Definition to_int (z : Z) : Z := ((z + 2 ^ 31) mod 2 ^ 32 - 2 ^ 31)%Z.

(** [(int) v] for a [double] [v]: the fractional part is discarded; the
    conversion is undefined when the integral part does not fit. *)
Definition double_to_int (v : spec_float) : option Z :=
  match v with
  | S754_zero _ => Some 0%Z
  | S754_finite s m e =>
      let mag := match e with
                 | Zneg p => Z.shiftr (Zpos m) (Zpos p)
                 | _ => Z.shiftl (Zpos m) e
                 end in
      let z := if s then (- mag)%Z else mag in
      if (INT_MIN <=? z)%Z && (z <=? INT_MAX)%Z then Some z else None
  | _ => None
  end.

(** ** Arrays and loops *)

(** [arr[j] = v] *)
Definition store {A : Type} (arr : list A) (j : nat) (v : A) : option (list A) :=
  if decide (j < length arr) then Some (<[j:=v]> arr) else None.

(** An [int] used as a subscript. *)
Definition subscript (z : Z) : option nat :=
  if (0 <=? z)%Z then Some (Z.to_nat z) else None.

(** [for (j = lo; j < hi; j++) body] *)
Definition for_range {S : Type} (lo hi : nat) (body : nat -> S -> option S)
    (s : S) : option S :=
  foldl (fun acc j => acc ≫= body j) (Some s) (seq lo (hi - lo)).

(** [for (j = 0; j < n; j++) body] *)
Definition for_loop {S : Type} (n : nat) (body : nat -> S -> option S)
    (s : S) : option S :=
  for_range 0 n body s.

(** [tbl[l][k] = v] *)
Definition store2 {A : Type} (tbl : list (list A)) (l k : nat) (v : A)
    : option (list (list A)) :=
  row ← tbl !! l;
  row' ← store row k v;
  store tbl l row'.

(** [tbl[l][k]] *)
Definition load2 {A : Type} (tbl : list (list A)) (l k : nat) : option A :=
  row ← tbl !! l; row !! k.

(** ** Compile-time configuration and the environment *)

Record config : Set := {
  stream_type : STREAM_TYPE;            (* -DSTREAM_TYPE= *)
  STREAM_ARRAY_SIZE : nat;
  STREAM_INDEX_ARRAY_SIZE : nat;
  NTIMES_defined : option Z;            (* -DNTIMES=, when given *)
  OFFSET : nat;
  ENABLE_GATHER : bool;
  ENABLE_SCATTER : bool;
  ENABLE_INDIRECT_DOT_PRODUCT : bool;
  PERMUTE_INDEX_ARRAY : bool;
  TUNED : bool;
  USE_CLOCK_GETTIME : bool
}.

(** [#ifdef NTIMES #if NTIMES<=1 # define NTIMES 10 ...] *)
Definition NTIMES (cfg : config) : nat :=
  match NTIMES_defined cfg with
  | Some n => if (n <=? 1)%Z then 10 else Z.to_nat n
  | None => 10
  end.

Definition NUM_KERNELS_GATHER (cfg : config) : nat :=
  if ENABLE_GATHER cfg then 1 else 0.
Definition NUM_KERNELS_SCATTER (cfg : config) : nat :=
  if ENABLE_SCATTER cfg then 1 else 0.
Definition NUM_KERNELS_INDIRECT_DOT_PRODUCT (cfg : config) : nat :=
  if ENABLE_INDIRECT_DOT_PRODUCT cfg then 1 else 0.
Definition NUM_KERNELS (cfg : config) : nat :=
  4 + NUM_KERNELS_GATHER cfg + NUM_KERNELS_SCATTER cfg
    + NUM_KERNELS_INDIRECT_DOT_PRODUCT cfg.

(** [defined(ENABLE_GATHER) || defined(ENABLE_SCATTER) ||
    defined(ENABLE_INDIRECT_DOT_PRODUCT)] *)
Definition indexed (cfg : config) : bool :=
  ENABLE_GATHER cfg || ENABLE_SCATTER cfg || ENABLE_INDIRECT_DOT_PRODUCT cfg.

(** [struct timeval] and [struct timespec]: seconds, and micro- or
    nanoseconds. *)
Record timeval : Set := { tv_sec : Z; tv_frac : Z }.

(** What the system returns: the [n]-th clock read of the process, and the
    [n]-th call of [rand()] after [srand(seed)]. *)
Record environment : Type := {
  clock : nat -> timeval;
  rand : nat -> Z
}.

(** [mysecond()], at the [n]-th clock read: [gettimeofday] seconds plus
    microseconds * 1.e-6, or [clock_gettime] seconds plus
    nanoseconds * 1.e-9. *)
Definition mysecond (cfg : config) (env : environment) (n : nat) : spec_float :=
  let t := clock env n in
  dadd (of_int STREAM_double (tv_sec t))
       (dmul (of_int STREAM_double (tv_frac t))
             (if USE_CLOCK_GETTIME cfg then c_1Em9 else c_1Em6)).

(** ** The static arrays *)

Record memory : Set := {
  a : list spec_float;
  b : list spec_float;
  c : list spec_float;
  d : list spec_float;
  i : list Z;
  e : list spec_float;
  x : spec_float
}.

Definition set_a (v : list spec_float) (m : memory) : memory :=
  {| a := v; b := b m; c := c m; d := d m; i := i m; e := e m; x := x m |}.
Definition set_b (v : list spec_float) (m : memory) : memory :=
  {| a := a m; b := v; c := c m; d := d m; i := i m; e := e m; x := x m |}.
Definition set_c (v : list spec_float) (m : memory) : memory :=
  {| a := a m; b := b m; c := v; d := d m; i := i m; e := e m; x := x m |}.
Definition set_d (v : list spec_float) (m : memory) : memory :=
  {| a := a m; b := b m; c := c m; d := v; i := i m; e := e m; x := x m |}.
Definition set_i (v : list Z) (m : memory) : memory :=
  {| a := a m; b := b m; c := c m; d := d m; i := v; e := e m; x := x m |}.
Definition set_e (v : list spec_float) (m : memory) : memory :=
  {| a := a m; b := b m; c := c m; d := d m; i := i m; e := v; x := x m |}.
Definition set_x (v : spec_float) (m : memory) : memory :=
  {| a := a m; b := b m; c := c m; d := d m; i := i m; e := e m; x := v |}.

(** Objects of static storage duration start as zeros.  [d] and [i] exist
    when an indexed kernel is enabled, [e] when scatter is. *)
Definition static_memory (cfg : config) : memory :=
  {| a := replicate (STREAM_ARRAY_SIZE cfg + OFFSET cfg) c_0;
     b := replicate (STREAM_ARRAY_SIZE cfg + OFFSET cfg) c_0;
     c := replicate (STREAM_ARRAY_SIZE cfg + OFFSET cfg) c_0;
     d := if indexed cfg
          then replicate (STREAM_INDEX_ARRAY_SIZE cfg + OFFSET cfg) c_0 else [];
     i := if indexed cfg
          then replicate (STREAM_INDEX_ARRAY_SIZE cfg + OFFSET cfg) 0%Z else [];
     e := if ENABLE_SCATTER cfg
          then replicate (STREAM_ARRAY_SIZE cfg + OFFSET cfg) c_0 else [];
     x := c_0 |}.

(** ** Set-up loops of [main] *)

(** [a[j] = 1.0; b[j] = 2.0; c[j] = 0.0;] *)
Definition init_abc (cfg : config) (m : memory) : option memory :=
  let ty := stream_type cfg in
  for_loop (STREAM_ARRAY_SIZE cfg) (fun j m =>
    a' ← store (a m) j (of_double ty c_1);
    b' ← store (b m) j (of_double ty c_2);
    c' ← store (c m) j (of_double ty c_0);
    Some (set_c c' (set_b b' (set_a a' m)))) m.

(** [d[j] = 1.0;] *)
Definition init_d (cfg : config) (m : memory) : option memory :=
  for_loop (STREAM_INDEX_ARRAY_SIZE cfg) (fun j m =>
    d' ← store (d m) j (of_double (stream_type cfg) c_1);
    Some (set_d d' m)) m.

(** [i[j] = j % STREAM_ARRAY_SIZE;] *)
Definition init_i (cfg : config) (m : memory) : option memory :=
  for_loop (STREAM_INDEX_ARRAY_SIZE cfg) (fun j m =>
    r ← (if decide (STREAM_ARRAY_SIZE cfg = 0) then None
         else Some (Z.rem (Z.of_nat j) (Z.of_nat (STREAM_ARRAY_SIZE cfg))));
    i' ← store (i m) j (to_int r);
    Some (set_i i' m)) m.

(** The Fisher-Yates loop:
    [for (j=0; j<STREAM_INDEX_ARRAY_SIZE-2; j++) {
       int k = j + rand() % (STREAM_INDEX_ARRAY_SIZE - j);
       INDEX_TYPE tmp = i[j]; i[j] = i[k]; i[k] = tmp; }]
    The [j]-th iteration makes the [j]-th call of [rand()]. *)
Definition permute_i (cfg : config) (env : environment) (m : memory)
    : option memory :=
  for_loop (STREAM_INDEX_ARRAY_SIZE cfg - 2) (fun j m =>
    let k := to_int (Z.of_nat j +
               Z.rem (rand env j)
                     (Z.of_nat (STREAM_INDEX_ARRAY_SIZE cfg) - Z.of_nat j)) in
    tmp ← i m !! j;
    kn ← subscript k;
    ik ← i m !! kn;
    i1 ← store (i m) j ik;
    i2 ← store i1 kn tmp;
    Some (set_i i2 m)) m.

(** [e[j] = 0.0;] *)
Definition init_e (cfg : config) (m : memory) : option memory :=
  for_loop (STREAM_ARRAY_SIZE cfg) (fun j m =>
    e' ← store (e m) j (of_double (stream_type cfg) c_0);
    Some (set_e e' m)) m.

(** All of the set-up between "Get initial value for system clock" and the
    call of [checktick]. *)
Definition setup (cfg : config) (env : environment) : option memory :=
  m ← init_abc cfg (static_memory cfg);
  m ← (if indexed cfg then
         m ← init_d cfg m;
         m ← init_i cfg m;
         if PERMUTE_INDEX_ARRAY cfg then permute_i cfg env m else Some m
       else Some m);
  if ENABLE_SCATTER cfg then init_e cfg m else Some m.

(** [a[j] = 2.0E0 * a[j];] *)
Definition warm_up (cfg : config) (m : memory) : option memory :=
  let ty := stream_type cfg in
  for_loop (STREAM_ARRAY_SIZE cfg) (fun j m =>
    v ← a m !! j;
    a' ← store (a m) j (of_double ty (dmul c_2 (to_double ty v)));
    Some (set_a a' m)) m.

(** ** The kernels *)

(** [c[j] = a[j];] *)
Definition STREAM_Copy (cfg : config) (m : memory) : option memory :=
  for_loop (STREAM_ARRAY_SIZE cfg) (fun j m =>
    v ← a m !! j;
    c' ← store (c m) j v;
    Some (set_c c' m)) m.

(** [b[j] = scalar*c[j];] *)
Definition STREAM_Scale (cfg : config) (scalar : spec_float) (m : memory)
    : option memory :=
  for_loop (STREAM_ARRAY_SIZE cfg) (fun j m =>
    v ← c m !! j;
    b' ← store (b m) j (fmul (stream_type cfg) scalar v);
    Some (set_b b' m)) m.

(** [c[j] = a[j]+b[j];] *)
Definition STREAM_Add (cfg : config) (m : memory) : option memory :=
  for_loop (STREAM_ARRAY_SIZE cfg) (fun j m =>
    u ← a m !! j;
    v ← b m !! j;
    c' ← store (c m) j (fadd (stream_type cfg) u v);
    Some (set_c c' m)) m.

(** [a[j] = b[j]+scalar*c[j];] *)
Definition STREAM_Triad (cfg : config) (scalar : spec_float) (m : memory)
    : option memory :=
  for_loop (STREAM_ARRAY_SIZE cfg) (fun j m =>
    u ← b m !! j;
    v ← c m !! j;
    a' ← store (a m) j
           (fadd (stream_type cfg) u (fmul (stream_type cfg) scalar v));
    Some (set_a a' m)) m.

(** The stubs called instead of the loops under [TUNED]. *)
Definition tuned_STREAM_Copy (cfg : config) (m : memory) : option memory :=
  for_loop (STREAM_ARRAY_SIZE cfg) (fun j m =>
    v ← a m !! j;
    c' ← store (c m) j v;
    Some (set_c c' m)) m.

Definition tuned_STREAM_Scale (cfg : config) (scalar : spec_float) (m : memory)
    : option memory :=
  for_loop (STREAM_ARRAY_SIZE cfg) (fun j m =>
    v ← c m !! j;
    b' ← store (b m) j (fmul (stream_type cfg) scalar v);
    Some (set_b b' m)) m.

Definition tuned_STREAM_Add (cfg : config) (m : memory) : option memory :=
  for_loop (STREAM_ARRAY_SIZE cfg) (fun j m =>
    u ← a m !! j;
    v ← b m !! j;
    c' ← store (c m) j (fadd (stream_type cfg) u v);
    Some (set_c c' m)) m.

Definition tuned_STREAM_Triad (cfg : config) (scalar : spec_float) (m : memory)
    : option memory :=
  for_loop (STREAM_ARRAY_SIZE cfg) (fun j m =>
    u ← b m !! j;
    v ← c m !! j;
    a' ← store (a m) j
           (fadd (stream_type cfg) u (fmul (stream_type cfg) scalar v));
    Some (set_a a' m)) m.

(** [d[j] = a[i[j]];] *)
Definition STREAM_Gather (cfg : config) (m : memory) : option memory :=
  for_loop (STREAM_INDEX_ARRAY_SIZE cfg) (fun j m =>
    ij ← i m !! j;
    n ← subscript ij;
    v ← a m !! n;
    d' ← store (d m) j v;
    Some (set_d d' m)) m.

(** [e[i[j]] = d[j];] *)
Definition STREAM_Scatter (cfg : config) (m : memory) : option memory :=
  for_loop (STREAM_INDEX_ARRAY_SIZE cfg) (fun j m =>
    ij ← i m !! j;
    n ← subscript ij;
    v ← d m !! j;
    e' ← store (e m) n v;
    Some (set_e e' m)) m.

(** [x += d[j] * b[i[j]];] *)
Definition STREAM_Indirect_dot (cfg : config) (m : memory) : option memory :=
  for_loop (STREAM_INDEX_ARRAY_SIZE cfg) (fun j m =>
    u ← d m !! j;
    ij ← i m !! j;
    n ← subscript ij;
    v ← b m !! n;
    Some (set_x (fadd (stream_type cfg) (x m) (fmul (stream_type cfg) u v)) m)) m.

(** ** The timed main loop *)

(** The arrays, the local table [times[NUM_KERNELS][NTIMES]] and the
    number of clock reads made so far. *)
Record run : Set := {
  mem : memory;
  times : list (list spec_float);
  reads : nat
}.

(** [times[l][k] = mysecond();  kernel;
     times[l][k] = mysecond() - times[l][k];] *)
Definition timed (cfg : config) (env : environment) (l k : nat)
    (kernel : memory -> option memory) (s : run) : option run :=
  tbl ← store2 (times s) l k (mysecond cfg env (reads s));
  m ← kernel (mem s);
  t0 ← load2 tbl l k;
  tbl' ← store2 tbl l k (dsub (mysecond cfg env (S (reads s))) t0);
  Some {| mem := m; times := tbl'; reads := S (S (reads s)) |}.

(** The body of the main loop, for trial [k]. *)
Definition trial (cfg : config) (env : environment) (scalar : spec_float)
    (k : nat) (s : run) : option run :=
  s ← timed cfg env 0 k
        (if TUNED cfg then tuned_STREAM_Copy cfg else STREAM_Copy cfg) s;
  s ← timed cfg env 1 k
        (if TUNED cfg then tuned_STREAM_Scale cfg scalar
         else STREAM_Scale cfg scalar) s;
  s ← timed cfg env 2 k
        (if TUNED cfg then tuned_STREAM_Add cfg else STREAM_Add cfg) s;
  s ← timed cfg env 3 k
        (if TUNED cfg then tuned_STREAM_Triad cfg scalar
         else STREAM_Triad cfg scalar) s;
  let l := 4 in
  sl ← (if ENABLE_GATHER cfg
        then s ← timed cfg env l k (STREAM_Gather cfg) s; Some (s, S l)
        else Some (s, l));
  sl ← (if ENABLE_SCATTER cfg
        then s ← timed cfg env sl.2 k (STREAM_Scatter cfg) sl.1;
             Some (s, S sl.2)
        else Some sl);
  sl ← (if ENABLE_INDIRECT_DOT_PRODUCT cfg
        then let s0 := {| mem := set_x (of_double (stream_type cfg) c_0)
                                       (mem sl.1);
                          times := times sl.1; reads := reads sl.1 |} in
             s ← timed cfg env sl.2 k (STREAM_Indirect_dot cfg) s0;
             Some (s, S sl.2)
        else Some sl);
  Some sl.1.

(** [scalar = 3.0; for (k=0; k<NTIMES; k++) { ... }] *)
Definition main_loop (cfg : config) (env : environment) (ntimes : nat)
    (s : run) : option run :=
  let scalar := of_double (stream_type cfg) c_3 in
  for_loop ntimes (trial cfg env scalar) s.

(** ** Summary *)

Record statistics : Set := {
  avgtime : list spec_float;
  mintime : list spec_float;
  maxtime : list spec_float
}.

(** [avgtime[NUM_KERNELS] = {0}, maxtime[NUM_KERNELS] = {0},
     mintime[NUM_KERNELS] = {FLT_MAX,FLT_MAX,FLT_MAX,FLT_MAX}] *)
Definition static_statistics (cfg : config) : statistics :=
  {| avgtime := replicate (NUM_KERNELS cfg) c_0;
     mintime := replicate 4 FLT_MAX ++ replicate (NUM_KERNELS cfg - 4) c_0;
     maxtime := replicate (NUM_KERNELS cfg) c_0 |}.

(** [#if NUM_KERNELS > 4  for (j=0; j<NUM_KERNELS; j++) {
       avgtime[j] = 0.0; mintime[j] = FLT_MAX; maxtime[j] = 0.0; }] *)
Definition reset_statistics (cfg : config) (st : statistics) : option statistics :=
  if decide (4 < NUM_KERNELS cfg) then
    for_loop (NUM_KERNELS cfg) (fun j st =>
      av ← store (avgtime st) j c_0;
      mn ← store (mintime st) j FLT_MAX;
      mx ← store (maxtime st) j c_0;
      Some {| avgtime := av; mintime := mn; maxtime := mx |}) st
  else Some st.

(** [for (k=1; k<NTIMES; k++) for (j=0; j<NUM_KERNELS; j++) {
       avgtime[j] = avgtime[j] + times[j][k];
       mintime[j] = MIN(mintime[j], times[j][k]);
       maxtime[j] = MAX(maxtime[j], times[j][k]); }] *)
Definition accumulate (cfg : config) (ntimes : nat)
    (tbl : list (list spec_float)) (st : statistics) : option statistics :=
  for_range 1 ntimes (fun k st =>
    for_loop (NUM_KERNELS cfg) (fun j st =>
      t ← load2 tbl j k;
      av0 ← avgtime st !! j;
      av ← store (avgtime st) j (dadd av0 t);
      mn0 ← mintime st !! j;
      mn ← store (mintime st) j (MIN SFltb mn0 t);
      mx0 ← maxtime st !! j;
      mx ← store (maxtime st) j (MAX SFltb mx0 t);
      Some {| avgtime := av; mintime := mn; maxtime := mx |}) st) st.

(** [avgtime[j] = avgtime[j]/(double)(NTIMES-1);] *)
Definition average (cfg : config) (ntimes : nat) (st : statistics)
    : option statistics :=
  for_loop (NUM_KERNELS cfg) (fun j st =>
    av0 ← avgtime st !! j;
    av ← store (avgtime st) j
           (ddiv av0 (of_int STREAM_double (Z.of_nat ntimes - 1)));
    Some {| avgtime := av; mintime := mintime st; maxtime := maxtime st |}) st.

(** What [main] prints under "Avg time", "Min time" and "Max time" for a
    table of timings: the accumulators as [main] sets them at its start,
    then the two loops of its summary. *)
Definition summary (cfg : config) (ntimes : nat)
    (tbl : list (list spec_float)) : option statistics :=
  st ← reset_statistics cfg (static_statistics cfg);
  st ← accumulate cfg ntimes tbl st;
  average cfg ntimes st.

(** [label[NUM_KERNELS]], the first column of the summary table. *)
Definition label (cfg : config) : list string :=
  [ "Copy:      "%string; "Scale:     "%string;
    "Add:       "%string; "Triad:     "%string ]
  ++ (if ENABLE_GATHER cfg then ["Gather:    "%string] else [])
  ++ (if ENABLE_SCATTER cfg then ["Scatter:   "%string] else [])
  ++ (if ENABLE_INDIRECT_DOT_PRODUCT cfg then ["Ind.dot:   "%string] else []).

(** [bytes[NUM_KERNELS]]; [sizeof(INDEX_TYPE)] is 4. *)
Definition bytes (cfg : config) : list spec_float :=
  let w := Z.of_nat (sizeof (stream_type cfg)) in
  let n := Z.of_nat (STREAM_ARRAY_SIZE cfg) in
  let mi := Z.of_nat (STREAM_INDEX_ARRAY_SIZE cfg) in
  let indirect :=
    of_int STREAM_double (w * MIN Z.ltb n mi + w * mi + 4 * mi) in
  [ of_int STREAM_double (2 * w * n); of_int STREAM_double (2 * w * n);
    of_int STREAM_double (3 * w * n); of_int STREAM_double (3 * w * n) ]
  ++ (if ENABLE_GATHER cfg then [indirect] else [])
  ++ (if ENABLE_SCATTER cfg then [indirect] else [])
  ++ (if ENABLE_INDIRECT_DOT_PRODUCT cfg then [indirect] else []).

(** "Best Rate MB/s": [1.0E-06 * bytes[j]/mintime[j]] *)
Definition best_rate (cfg : config) (st : statistics) (j : nat)
    : option spec_float :=
  by_ ← bytes cfg !! j;
  mn ← mintime st !! j;
  Some (ddiv (dmul c_1Em6 by_) mn).

(** ** [checktick] *)

(** [# define M 20] *)
Definition M : nat := 20.

(** [while( ((t2=mysecond()) - t1) < 1.0E-6 ) ;]  with [n] clock reads made
    before it; returns [t2] and the number of reads made after it. *)
Fixpoint spin (cfg : config) (env : environment) (fuel : nat)
    (t1 : spec_float) (n : nat) : option (spec_float * nat) :=
  match fuel with
  | 0 => None
  | S fuel' =>
      let t2 := mysecond cfg env n in
      if SFltb (dsub t2 t1) c_1Em6 then spin cfg env fuel' t1 (S n)
      else Some (t2, S n)
  end.

(** [for (i = 0; i < M; i++) { t1 = mysecond(); while ... ;
       timesfound[i] = t1 = t2; }] *)
Definition collect (cfg : config) (env : environment) (fuel : nat) (n : nat)
    : option (list spec_float * nat) :=
  for_loop M (fun i st =>
    let t1 := mysecond cfg env st.2 in
    tn ← spin cfg env fuel t1 (S st.2);
    timesfound ← store st.1 i tn.1;
    Some (timesfound, tn.2)) (replicate M c_0, n).

(** [minDelta = 1000000; for (i = 1; i < M; i++) {
       Delta = (int)( 1.0E6 * (timesfound[i]-timesfound[i-1]));
       minDelta = MIN(minDelta, MAX(Delta,0)); }] *)
Definition min_delta (timesfound : list spec_float) : option Z :=
  for_range 1 M (fun i minDelta =>
    t ← timesfound !! i;
    t' ← timesfound !! (i - 1);
    Delta ← double_to_int (dmul c_1E6 (dsub t t'));
    Some (MIN Z.ltb minDelta (MAX Z.ltb Delta 0%Z))) 1000000%Z.

(** How a call that may wait ends. *)
Inductive outcome (A : Type) : Type :=
  | Done (v : A)       (* returned [v] *)
  | Undefined          (* ran into undefined behaviour *)
  | Waiting.           (* still in a busy-wait when the fuel ran out *)
Arguments Done {A} v.
Arguments Undefined {A}.
Arguments Waiting {A}.

(** [checktick()], called after [n] clock reads; returns [minDelta] and
    the number of clock reads made. *)
Definition checktick (cfg : config) (env : environment) (fuel : nat) (n : nat)
    : outcome (Z * nat) :=
  match collect cfg env fuel n with
  | None => Waiting
  | Some (timesfound, n') =>
      match min_delta timesfound with
      | None => Undefined
      | Some minDelta => Done (minDelta, n')
      end
  end.

(** ** [checkSTREAMresults] *)

(** The scalars [aj], [bj], [cj], and [dj], [ej] where they are declared;
    [dj] and [ej] hold nothing before the loop assigns them. *)
Record expected : Set := {
  aj : spec_float;
  bj : spec_float;
  cj : spec_float;
  dj : option spec_float;
  ej : option spec_float
}.

(** One iteration of "now execute timing loop":
    [cj = aj; bj = scalar*cj; cj = aj+bj; aj = bj+scalar*cj;
     dj = aj;  ej = aj (with gather) or 0.0 (without)] *)
Definition expected_step (cfg : config) (scalar : spec_float) (v : expected)
    : expected :=
  let ty := stream_type cfg in
  let cj1 := aj v in
  let bj1 := fmul ty scalar cj1 in
  let cj2 := fadd ty (aj v) bj1 in
  let aj1 := fadd ty bj1 (fmul ty scalar cj2) in
  {| aj := aj1; bj := bj1; cj := cj2;
     dj := if ENABLE_GATHER cfg then Some aj1 else dj v;
     ej := if ENABLE_SCATTER cfg
           then Some (if ENABLE_GATHER cfg then aj1 else of_double ty c_0)
           else ej v |}.

(** "reproduce initialization", "a[] is modified during timing check",
    then [NTIMES] iterations. *)
Definition expected_values (cfg : config) (ntimes : nat) : expected :=
  let ty := stream_type cfg in
  let aj0 := of_double ty c_1 in
  let bj0 := of_double ty c_2 in
  let cj0 := of_double ty c_0 in
  let aj1 := of_double ty (dmul c_2 (to_double ty aj0)) in
  let scalar := of_double ty c_3 in
  Nat.iter ntimes (expected_step cfg scalar)
    {| aj := aj1; bj := bj0; cj := cj0; dj := None; ej := None |}.

(** [xSumErr = 0.0; for (j=0; j<n; j++) xSumErr += abs(elt(j) - xj);] *)
Definition sum_err (ty : STREAM_TYPE) (n : nat) (elt : nat -> option spec_float)
    (expect : spec_float) : option spec_float :=
  for_loop n (fun j acc =>
    v ← elt j;
    Some (fadd ty acc (abs (fsub ty v expect)))) (of_double ty c_0).

(** [ierr = 0; for (j=0; j<n; j++) if (abs(arr[j]/xj-1.0) > epsilon) ierr++;] *)
Definition count_err (ty : STREAM_TYPE) (epsilon : spec_float) (n : nat)
    (arr : list spec_float) (expect : spec_float) : option nat :=
  for_loop n (fun j ierr =>
    v ← arr !! j;
    Some (if SFltb epsilon (abs (dsub (to_double ty (fdiv ty v expect)) c_1))
          then S ierr else ierr)) 0.

(** What is printed about one array. *)
Record check : Set := {
  AvgAbsErr : spec_float;
  failed : bool;
  ierr : nat
}.

(** [if (abs(xAvgErr/xj) > epsilon) { err++; ... count the errors ... }] *)
Definition validate (ty : STREAM_TYPE) (epsilon : spec_float)
    (AvgErr expect : spec_float) (n : nat) (arr : list spec_float)
    : option check :=
  if SFltb epsilon (to_double ty (abs (fdiv ty AvgErr expect))) then
    k ← count_err ty epsilon n arr expect;
    Some {| AvgAbsErr := AvgErr; failed := true; ierr := k |}
  else Some {| AvgAbsErr := AvgErr; failed := false; ierr := 0 |}.

(** [if (sizeof(STREAM_TYPE) == 4) epsilon = 1.e-6;
     else if (sizeof(STREAM_TYPE) == 8) epsilon = 1.e-13;
     else epsilon = 1.e-6;] *)
Definition epsilon_of (size : nat) : spec_float :=
  if decide (size = 4) then c_1Em6
  else if decide (size = 8) then c_1Em13
  else c_1Em6.

(** [e[i[j]]] *)
Definition e_at_i (m : memory) (j : nat) : option spec_float :=
  ij ← i m !! j; n ← subscript ij; e m !! n.

(** [xj = 0.0; for (j=0; j<STREAM_INDEX_ARRAY_SIZE; j++) xj += d[j] * b[i[j]];] *)
Definition expected_x (cfg : config) (m : memory) : option spec_float :=
  let ty := stream_type cfg in
  for_loop (STREAM_INDEX_ARRAY_SIZE cfg) (fun j xj =>
    u ← d m !! j;
    ij ← i m !! j;
    n ← subscript ij;
    v ← b m !! n;
    Some (fadd ty xj (fmul ty u v))) (of_double ty c_0).

Record report : Set := {
  epsilon : spec_float;
  check_a : check;
  check_b : check;
  check_c : check;
  check_d : option check;
  check_e : option check;
  check_x : option check;
  err : nat
}.

Definition count_failed (ck : list (option check)) : nat :=
  foldr (fun o n => match o with
                    | Some k => if failed k then S n else n
                    | None => n
                    end) 0 ck.

Definition checkSTREAMresults (cfg : config) (ntimes : nat) (m : memory)
    : option report :=
  let ty := stream_type cfg in
  let n := STREAM_ARRAY_SIZE cfg in
  let mi := STREAM_INDEX_ARRAY_SIZE cfg in
  let v := expected_values cfg ntimes in
  (* accumulate deltas between observed and expected results *)
  aSumErr ← sum_err ty n (fun j => a m !! j) (aj v);
  bSumErr ← sum_err ty n (fun j => b m !! j) (bj v);
  cSumErr ← sum_err ty n (fun j => c m !! j) (cj v);
  let aAvgErr := fdiv ty aSumErr (of_int ty (Z.of_nat n)) in
  let bAvgErr := fdiv ty bSumErr (of_int ty (Z.of_nat n)) in
  let cAvgErr := fdiv ty cSumErr (of_int ty (Z.of_nat n)) in
  dAvgErr ← (if ENABLE_GATHER cfg then
               dj_ ← dj v;
               dSumErr ← sum_err ty mi (fun j => d m !! j) dj_;
               Some (Some (fdiv ty dSumErr (of_int ty (Z.of_nat mi))))
             else Some None);
  eAvgErr ← (if ENABLE_SCATTER cfg then
               ej_ ← ej v;
               eSumErr ← sum_err ty mi (e_at_i m) ej_;
               Some (Some (fdiv ty eSumErr (of_int ty (Z.of_nat n))))
             else Some None);
  xErr ← (if ENABLE_INDIRECT_DOT_PRODUCT cfg then
            xj ← expected_x cfg m;
            Some (Some (fsub ty (x m) xj, xj))
          else Some None);
  let epsilon := epsilon_of (sizeof ty) in
  ka ← validate ty epsilon aAvgErr (aj v) n (a m);
  kb ← validate ty epsilon bAvgErr (bj v) n (b m);
  kc ← validate ty epsilon cAvgErr (cj v) n (c m);
  kd ← match dAvgErr with
       | Some dAvgErr =>
           dj_ ← dj v; Some <$> validate ty epsilon dAvgErr dj_ mi (d m)
       | None => Some None
       end;
  ke ← match eAvgErr with
       | Some eAvgErr =>
           ej_ ← ej v; Some <$> validate ty epsilon eAvgErr ej_ n (e m)
       | None => Some None
       end;
  let kx := match xErr with
            | Some (xErr, xj) =>
                Some {| AvgAbsErr := xErr;
                        failed := SFltb epsilon
                                    (to_double ty (abs (fdiv ty xErr xj)));
                        ierr := 0 |}
            | None => None
            end in
  Some {| epsilon := epsilon;
          check_a := ka; check_b := kb; check_c := kc;
          check_d := kd; check_e := ke; check_x := kx;
          err := count_failed [Some ka; Some kb; Some kc; kd; ke; kx] |}.

(** ** [main] *)

Record output : Set := {
  quantum : Z;                      (* clock granularity, microseconds *)
  warm_up_time : spec_float;        (* [t], microseconds *)
  microseconds : Z;                 (* [(int) t] *)
  clock_ticks : Z;                  (* [(int) (t/quantum)] *)
  stats : statistics;
  rates : list spec_float;          (* "Best Rate MB/s" *)
  validation : report
}.

Definition lift {A : Type} (o : option A) : outcome A :=
  match o with Some v => Done v | None => Undefined end.

Definition outcome_bind {A B : Type} (o : outcome A) (f : A -> outcome B)
    : outcome B :=
  match o with
  | Done v => f v
  | Undefined => Undefined
  | Waiting => Waiting
  end.

(** The state in which [main] enters the main loop, after [r] clock reads.
    The local table [times] is not initialised in C; every entry is
    written before it is read. *)
Definition entry (cfg : config) (ntimes : nat) (m : memory) (r : nat) : run :=
  {| mem := m;
     times := replicate (NUM_KERNELS cfg) (replicate ntimes c_0);
     reads := r |}.

(** [main()].  Of what it prints, the result keeps the numbers.  The
    conversions [(int) t] and [(int) (t/quantum)], made to print the time
    of the warm-up loop, are undefined when the value does not fit [int];
    in [t/quantum] the [int] [quantum] is converted to [double]. *)
Definition main (cfg : config) (env : environment) (fuel : nat)
    : outcome output :=
  (* --- SETUP --- *)
  outcome_bind (lift (reset_statistics cfg (static_statistics cfg))) (fun st =>
  outcome_bind (lift (setup cfg env)) (fun m =>
  outcome_bind (checktick cfg env fuel 0) (fun qn =>
  let quantum := if (1 <=? qn.1)%Z then qn.1 else 1%Z in
  let t := mysecond cfg env qn.2 in
  outcome_bind (lift (warm_up cfg m)) (fun m =>
  let t := dmul c_1E6 (dsub (mysecond cfg env (S qn.2)) t) in
  outcome_bind (lift (double_to_int t)) (fun us =>
  outcome_bind (lift (double_to_int (ddiv t (of_int STREAM_double quantum))))
    (fun ticks =>
  (* --- MAIN LOOP --- *)
  outcome_bind (lift (main_loop cfg env (NTIMES cfg)
                        (entry cfg (NTIMES cfg) m (S (S qn.2))))) (fun s =>
  (* --- SUMMARY --- *)
  outcome_bind (lift (accumulate cfg (NTIMES cfg) (times s) st)) (fun st =>
  outcome_bind (lift (average cfg (NTIMES cfg) st)) (fun st =>
  outcome_bind (lift (mapM (best_rate cfg st) (seq 0 (NUM_KERNELS cfg))))
    (fun rs =>
  (* --- Check Results --- *)
  outcome_bind (lift (checkSTREAMresults cfg (NTIMES cfg) (mem s))) (fun r =>
  Done {| quantum := quantum; warm_up_time := t; microseconds := us;
          clock_ticks := ticks; stats := st; rates := rs;
          validation := r |}))))))))))).

(** ** Concrete configurations, environments and states *)

(** A small build with every kernel and the index shuffle. *)
Definition cfg_demo : config :=
  {| stream_type := STREAM_double; STREAM_ARRAY_SIZE := 3;
     STREAM_INDEX_ARRAY_SIZE := 4; NTIMES_defined := Some 2%Z; OFFSET := 1;
     ENABLE_GATHER := true; ENABLE_SCATTER := true;
     ENABLE_INDIRECT_DOT_PRODUCT := true; PERMUTE_INDEX_ARRAY := true;
     TUNED := false; USE_CLOCK_GETTIME := false |}.

(** A clock that advances one second per read, and a linear congruential
    [rand()]. *)
Definition env_demo : environment :=
  {| clock := fun n => {| tv_sec := Z.of_nat n; tv_frac := 0 |};
     rand := fun n => ((Z.of_nat n * 1103515245 + 12345) mod 2 ^ 31)%Z |}.

(** Arrays with unequal elements and an index array with a duplicate. *)
Definition mem_demo : memory :=
  {| a := of_int STREAM_double <$> [5; 6; 7; 0]%Z;
     b := of_int STREAM_double <$> [1; 2; 3; 0]%Z;
     c := of_int STREAM_double <$> [8; 9; 4; 0]%Z;
     d := of_int STREAM_double <$> [0; 0; 0; 0; 0]%Z;
     i := [2; 0; 2; 1; 0]%Z;
     e := of_int STREAM_double <$> [0; 0; 0; 0]%Z;
     x := c_0 |}.

Definition run_demo : run :=
  {| mem := mem_demo; times := replicate 7 (replicate 2 c_0); reads := 0 |}.

(** A build with no indexed kernel, [n] elements and [-DNTIMES=nt]. *)
Definition cfg_plain (n : nat) (nt : Z) : config :=
  {| stream_type := STREAM_double; STREAM_ARRAY_SIZE := n;
     STREAM_INDEX_ARRAY_SIZE := n; NTIMES_defined := Some nt; OFFSET := 0;
     ENABLE_GATHER := false; ENABLE_SCATTER := false;
     ENABLE_INDIRECT_DOT_PRODUCT := false; PERMUTE_INDEX_ARRAY := false;
     TUNED := false; USE_CLOCK_GETTIME := false |}.

(** A build with scatter but without gather. *)
Definition cfg_scatter_only : config :=
  {| stream_type := STREAM_double; STREAM_ARRAY_SIZE := 2;
     STREAM_INDEX_ARRAY_SIZE := 2; NTIMES_defined := Some 2%Z; OFFSET := 0;
     ENABLE_GATHER := false; ENABLE_SCATTER := true;
     ENABLE_INDIRECT_DOT_PRODUCT := false; PERMUTE_INDEX_ARRAY := false;
     TUNED := false; USE_CLOCK_GETTIME := false |}.

(** A wall clock that is set back by two seconds between the two reads
    around the Copy kernel of trial 1 (reads 50 and 51: [checktick] makes
    reads 0..39 here, the warm-up reads 40 and 41, trial 0 reads 42..49). *)
Definition env_set_back : environment :=
  {| clock := fun n => {| tv_sec := if decide (n = 51) then 49 else Z.of_nat n;
                          tv_frac := 0 |};
     rand := fun _ => 0%Z |}.



(** A build whose index array is shorter than the data arrays, and the
    arrays a run leaves when its last Triad got [a[0]] wrong by 1187 units
    in the last place (a relative error of 1.5e-13): gather copied the
    value to [d[0]] and scatter to [e[0]]. *)
Definition cfg_short_index : config :=
  {| stream_type := STREAM_double; STREAM_ARRAY_SIZE := 2;
     STREAM_INDEX_ARRAY_SIZE := 1; NTIMES_defined := Some 2%Z; OFFSET := 0;
     ENABLE_GATHER := true; ENABLE_SCATTER := true;
     ENABLE_INDIRECT_DOT_PRODUCT := false; PERMUTE_INDEX_ARRAY := false;
     TUNED := true; USE_CLOCK_GETTIME := false |}.

Definition a0_off : spec_float :=
  S754_finite false (7916483719987200 + 1187) (-44).

Definition mem_off : memory :=
  let v := expected_values cfg_short_index 2 in
  {| a := [a0_off; aj v]; b := [bj v; bj v]; c := [cj v; cj v];
     d := [a0_off]; i := [0%Z]; e := [a0_off; c_0]; x := c_0 |}.

(** The relative error of an array as the design document words it: the
    mean absolute difference between the checked elements and the
    expected scalar, divided by the expected scalar. *)
Definition spec_relative_error (ty : STREAM_TYPE) (checked : list spec_float)
    (expect : spec_float) : spec_float :=
  let sum := foldl (fun acc v => fadd ty acc (abs (fsub ty v expect)))
                   (of_double ty c_0) checked in
  fdiv ty (fdiv ty sum (of_int ty (Z.of_nat (length checked)))) expect.

(** A single-precision build with [-DNTIMES=34]. *)
Definition cfg_single : config :=
  {| stream_type := STREAM_float; STREAM_ARRAY_SIZE := 2;
     STREAM_INDEX_ARRAY_SIZE := 2; NTIMES_defined := Some 34%Z; OFFSET := 0;
     ENABLE_GATHER := false; ENABLE_SCATTER := false;
     ENABLE_INDIRECT_DOT_PRODUCT := false; PERMUTE_INDEX_ARRAY := false;
     TUNED := false; USE_CLOCK_GETTIME := false |}.

(** A build with gather whose data arrays have no element. *)
Definition cfg_empty : config :=
  {| stream_type := STREAM_double; STREAM_ARRAY_SIZE := 0;
     STREAM_INDEX_ARRAY_SIZE := 1; NTIMES_defined := None; OFFSET := 1;
     ENABLE_GATHER := true; ENABLE_SCATTER := false;
     ENABLE_INDIRECT_DOT_PRODUCT := false; PERMUTE_INDEX_ARRAY := false;
     TUNED := false; USE_CLOCK_GETTIME := false |}.

(** A clock that returns the same time at every read. *)
Definition env_stuck : environment :=
  {| clock := fun _ => {| tv_sec := 7; tv_frac := 250000 |};
     rand := fun _ => 0%Z |}.

(** A build with gather and the shuffle, the default data arrays of ten
    million elements and an index array of [2^31 + 3] elements. *)
Definition cfg_huge : config :=
  {| stream_type := STREAM_double; STREAM_ARRAY_SIZE := Z.to_nat 10000000;
     STREAM_INDEX_ARRAY_SIZE := Z.to_nat 2147483651;
     NTIMES_defined := None; OFFSET := 0;
     ENABLE_GATHER := true; ENABLE_SCATTER := false;
     ENABLE_INDIRECT_DOT_PRODUCT := false; PERMUTE_INDEX_ARRAY := true;
     TUNED := false; USE_CLOCK_GETTIME := false |}.

(** A clock that is set forward by 3000 seconds between its reads 9 and
    10, and advances one second per read otherwise. *)
Definition env_jump : environment :=
  {| clock := fun n => {| tv_sec := if decide (n < 10) then Z.of_nat n
                                    else (Z.of_nat n + 3000)%Z;
                          tv_frac := 0 |};
     rand := fun _ => 0%Z |}.




(** ** Vocabulary of the statements *)

(** The loop body [fld[j] = rhs(j);] on a state whose field [fld] is read
    by [get] and written by [set]. *)
Definition assign_body {S V : Type} (get : S -> list V) (set : list V -> S -> S)
    (rhs : nat -> S -> option V) (j : nat) (s : S) : option S :=
  v ← rhs j s; l ← store (get s) j v; Some (set l s).

(** The arrays are at least as long as the loops over them need. *)
Definition sized (cfg : config) (m : memory) : Prop :=
  STREAM_ARRAY_SIZE cfg <= length (a m) /\
  STREAM_ARRAY_SIZE cfg <= length (b m) /\
  STREAM_ARRAY_SIZE cfg <= length (c m) /\
  (indexed cfg = true ->
     STREAM_INDEX_ARRAY_SIZE cfg <= length (d m) /\
     STREAM_INDEX_ARRAY_SIZE cfg <= length (i m)) /\
  (ENABLE_SCATTER cfg = true -> STREAM_ARRAY_SIZE cfg <= length (e m)).

(** Every entry of the index array that the kernels read lies in
    [0, STREAM_ARRAY_SIZE). *)
Definition in_bounds (cfg : config) (m : memory) : Prop :=
  forall j z, j < STREAM_INDEX_ARRAY_SIZE cfg -> i m !! j = Some z ->
    (0 <= z < Z.of_nat (STREAM_ARRAY_SIZE cfg))%Z.

(** Every element of [a], of [b] and of [c] below [STREAM_ARRAY_SIZE]
    holds the given value. *)
Definition uniform (cfg : config) (va vb vc : spec_float) (m : memory) : Prop :=
  forall j, j < STREAM_ARRAY_SIZE cfg ->
    a m !! j = Some va /\ b m !! j = Some vb /\ c m !! j = Some vc.

(** The array sizes are positive where C needs them to be and fit [int]. *)
Definition config_ok (cfg : config) : Prop :=
  0 < STREAM_ARRAY_SIZE cfg /\
  (Z.of_nat (STREAM_ARRAY_SIZE cfg) <= INT_MAX)%Z /\
  (Z.of_nat (STREAM_INDEX_ARRAY_SIZE cfg) <= INT_MAX)%Z.

(** [rand()] returns an [int] between 0 and [RAND_MAX]. *)
Definition rand_ok (env : environment) : Prop :=
  forall n, (0 <= rand env n <= INT_MAX)%Z.

(** [tbl[l][k]] exists. *)
Definition in_table {A : Type} (tbl : list (list A)) (l k : nat) : Prop :=
  exists row, tbl !! l = Some row /\ k < length row.

(** The table has a row for every kernel and a column for trial [k]. *)
Definition table_ready (cfg : config) (k : nat) (tbl : list (list spec_float))
    : Prop :=
  forall l, l < NUM_KERNELS cfg -> in_table tbl l k.

(** What one trial does to the arrays, the clock left out: the kernels, one
    after the other. *)
Definition trial_kernels (cfg : config) (scalar : spec_float) (m : memory)
    : option memory :=
  m ← STREAM_Copy cfg m;
  m ← STREAM_Scale cfg scalar m;
  m ← STREAM_Add cfg m;
  m ← STREAM_Triad cfg scalar m;
  m ← (if ENABLE_GATHER cfg then STREAM_Gather cfg m else Some m);
  m ← (if ENABLE_SCATTER cfg then STREAM_Scatter cfg m else Some m);
  if ENABLE_INDIRECT_DOT_PRODUCT cfg
  then STREAM_Indirect_dot cfg (set_x (of_double (stream_type cfg) c_0) m)
  else Some m.

(** The recurrence as the design document words it:
    [c = a; b = 3*c; c = a+b; a = b+3*c], on a triple [(a, b, c)]. *)
Definition spec_recurrence (ty : STREAM_TYPE)
    (abc : spec_float * spec_float * spec_float)
    : spec_float * spec_float * spec_float :=
  let '(va, vb, vc) := abc in
  let three := of_double ty c_3 in
  let vc := va in
  let vb := fmul ty three vc in
  let vc := fadd ty va vb in
  let va := fadd ty vb (fmul ty three vc) in
  (va, vb, vc).

(** Its start: [a = 2.0] (after the warm-up doubling), [b = 2.0],
    [c = 0.0]. *)
Definition spec_start (ty : STREAM_TYPE)
    : spec_float * spec_float * spec_float :=
  (of_double ty c_2, of_double ty c_2, of_double ty c_0).

(** The optional kernels of one trial, in their order. *)
Definition optional_kernels (cfg : config) (m : memory) : option memory :=
  m ← (if ENABLE_GATHER cfg then STREAM_Gather cfg m else Some m);
  m ← (if ENABLE_SCATTER cfg then STREAM_Scatter cfg m else Some m);
  if ENABLE_INDIRECT_DOT_PRODUCT cfg
  then STREAM_Indirect_dot cfg (set_x (of_double (stream_type cfg) c_0) m)
  else Some m.

(** The arrays of [m'] have the lengths of those of [m], and the index
    array is the same. *)
Definition same_layout (m m' : memory) : Prop :=
  length (a m') = length (a m) /\ length (b m') = length (b m) /\
  length (c m') = length (c m) /\ length (d m') = length (d m) /\
  length (e m') = length (e m) /\ i m' = i m.

(** What the program assumes of its configuration and of [rand()] when an
    indexed kernel is compiled in. *)
Definition well_configured (cfg : config) (env : environment) : Prop :=
  indexed cfg = true ->
  config_ok cfg /\ (PERMUTE_INDEX_ARRAY cfg = true -> rand_ok env).

(** The arrays hold what the scalars of [checkSTREAMresults] say: [a],
    [b], [c] everywhere below [STREAM_ARRAY_SIZE]; [d] everywhere below
    [STREAM_INDEX_ARRAY_SIZE] once [dj] is assigned; and, in a build with
    gather, [e] at every index that [i] names once [ej] is assigned. *)
Definition agrees (cfg : config) (v : expected) (m : memory) : Prop :=
  uniform cfg (aj v) (bj v) (cj v) m /\
  (forall vd, dj v = Some vd ->
     forall j, j < STREAM_INDEX_ARRAY_SIZE cfg -> d m !! j = Some vd) /\
  (ENABLE_GATHER cfg = true ->
   forall ve, ej v = Some ve ->
     forall j n, j < STREAM_INDEX_ARRAY_SIZE cfg ->
       i m !! j = Some (Z.of_nat n) -> e m !! n = Some ve).

(** [(avgtime[j], mintime[j], maxtime[j])] *)
Definition stats_at (st : statistics) (j : nat)
    : option (spec_float * spec_float * spec_float) :=
  av ← avgtime st !! j; mn ← mintime st !! j; mx ← maxtime st !! j;
  Some (av, mn, mx).

(** The samples of one kernel that the summary retains:
    [times[j][1], ..., times[j][ntimes-1]]. *)
Definition retained (ntimes : nat) (row : list spec_float) : list spec_float :=
  take (ntimes - 1) (drop 1 row).

(** The table has a row of at least [ntimes] entries for every kernel. *)
Definition table_full (cfg : config) (ntimes : nat)
    (tbl : list (list spec_float)) : Prop :=
  forall j, j < NUM_KERNELS cfg ->
    exists row, tbl !! j = Some row /\ ntimes <= length row.

(** The busy-wait that [checktick] starts with clock read number [p] ends
    with read number [q]: the first read whose value is not less than
    [1.0E-6] above that of read [p]. *)
Definition tick (cfg : config) (env : environment) (p q : nat) : Prop :=
  p < q /\
  SFltb (dsub (mysecond cfg env q) (mysecond cfg env p)) c_1Em6 = false /\
  forall r, p < r < q ->
    SFltb (dsub (mysecond cfg env r) (mysecond cfg env p)) c_1Em6 = true.

(** [ticks cfg env n ts n']: starting with read number [n], successive
    busy-waits collect the time stamps [ts], and [n'] is the number of the
    next read. *)
Inductive ticks (cfg : config) (env : environment)
    : nat -> list spec_float -> nat -> Prop :=
  | ticks_nil n : ticks cfg env n [] n
  | ticks_cons p q ts n' :
      tick cfg env p q -> ticks cfg env (S q) ts n' ->
      ticks cfg env p (mysecond cfg env q :: ts) n'.

(** [Delta] of the second loop of [checktick], at index [i]. *)
Definition Delta (timesfound : list spec_float) (i : nat) : option Z :=
  t ← timesfound !! i;
  t' ← timesfound !! (i - 1);
  double_to_int (dmul c_1E6 (dsub t t')).

(** What [checktick] does once it has collected the time stamps
    [timesfound] with [n'] clock reads made: when the difference of two
    consecutive stamps does not fit [int], its result [r] is undefined;
    otherwise it returns the least of [1000000] and the differences
    clamped at zero. *)
Definition calibrated (timesfound : list spec_float) (n' : nat)
    (r : outcome (Z * nat)) : Prop :=
  ((exists k, 1 <= k < M /\ Delta timesfound k = None) -> r = Undefined) /\
  ((forall k, 1 <= k < M -> is_Some (Delta timesfound k)) ->
   exists q,
     r = Done (q, n') /\
     (0 <= q <= 1000000)%Z /\
     (forall k, 1 <= k < M ->
        exists D, Delta timesfound k = Some D /\ (q <= Z.max D 0)%Z) /\
     (q = 1000000%Z \/
      exists k D, 1 <= k < M /\ Delta timesfound k = Some D /\
                  q = Z.max D 0)).

(** [m'] differs from [m] at most in the named array. *)
Definition only_a_differs (m m' : memory) : Prop :=
  b m' = b m /\ c m' = c m /\ d m' = d m /\ i m' = i m /\ e m' = e m /\
  x m' = x m.
Definition only_b_differs (m m' : memory) : Prop :=
  a m' = a m /\ c m' = c m /\ d m' = d m /\ i m' = i m /\ e m' = e m /\
  x m' = x m.
Definition only_c_differs (m m' : memory) : Prop :=
  a m' = a m /\ b m' = b m /\ d m' = d m /\ i m' = i m /\ e m' = e m /\
  x m' = x m.
Definition only_d_differs (m m' : memory) : Prop :=
  a m' = a m /\ b m' = b m /\ c m' = c m /\ i m' = i m /\ e m' = e m /\
  x m' = x m.
Definition only_e_differs (m m' : memory) : Prop :=
  a m' = a m /\ b m' = b m /\ c m' = c m /\ d m' = d m /\ i m' = i m /\
  x m' = x m.
Definition only_x_differs (m m' : memory) : Prop :=
  a m' = a m /\ b m' = b m /\ c m' = c m /\ d m' = d m /\ i m' = i m /\
  e m' = e m.

(** The elapsed time that [timed] stores when its first clock read is read
    number [p]. *)
Definition sample (cfg : config) (env : environment) (p : nat) : spec_float :=
  dsub (mysecond cfg env (S p)) (mysecond cfg env p).

(** The time of the warm-up loop, in microseconds, and that time in clock
    ticks of [q] microseconds, fit [int]: [main] can print them, when
    [checktick] returned [q] after [n'] clock reads. *)
Definition printable (cfg : config) (env : environment) (q : Z) (n' : nat)
    : Prop :=
  let t := dmul c_1E6 (sample cfg env n') in
  is_Some (double_to_int t) /\
  is_Some (double_to_int
             (ddiv t (of_int STREAM_double (if (1 <=? q)%Z then q else 1%Z)))).


(** A zero of either sign or a NaN; neither compares greater than a
    positive number. *)
Definition zero_or_nan (v : spec_float) : bool :=
  match v with S754_zero _ | S754_nan => true | _ => false end.

(** Anything but a finite non-zero number. *)
Definition not_finite (v : spec_float) : bool :=
  match v with S754_finite _ _ _ => false | _ => true end.

(** A zero or a finite non-zero number. *)
Definition is_number (v : spec_float) : bool :=
  match v with S754_zero _ | S754_finite _ _ _ => true | _ => false end.

(** The least trial count from which [aj], [bj] and [cj] are all
    infinite, and the greatest up to which they are the exact values
    [2 * 15^n], [6 * 15^(n-1)], [8 * 15^(n-1)] correctly rounded. *)
Definition overflow_at (ty : STREAM_TYPE) : nat :=
  match ty with STREAM_float => 34 | STREAM_double => 263 end.

Definition exact_upto (ty : STREAM_TYPE) : nat :=
  match ty with STREAM_float => 7 | STREAM_double => 18 end.

(** The same build with or without [-DTUNED]. *)
Definition with_TUNED (t : bool) (cfg : config) : config :=
  {| stream_type := stream_type cfg;
     STREAM_ARRAY_SIZE := STREAM_ARRAY_SIZE cfg;
     STREAM_INDEX_ARRAY_SIZE := STREAM_INDEX_ARRAY_SIZE cfg;
     NTIMES_defined := NTIMES_defined cfg; OFFSET := OFFSET cfg;
     ENABLE_GATHER := ENABLE_GATHER cfg; ENABLE_SCATTER := ENABLE_SCATTER cfg;
     ENABLE_INDIRECT_DOT_PRODUCT := ENABLE_INDIRECT_DOT_PRODUCT cfg;
     PERMUTE_INDEX_ARRAY := PERMUTE_INDEX_ARRAY cfg;
     TUNED := t; USE_CLOCK_GETTIME := USE_CLOCK_GETTIME cfg |}.

(** [m'] holds what [m] holds in every element at or past
    [STREAM_ARRAY_SIZE] of [a], [b], [c], [e], and at or past
    [STREAM_INDEX_ARRAY_SIZE] of [d]. *)
Definition padding_kept (cfg : config) (m m' : memory) : Prop :=
  (forall j, STREAM_ARRAY_SIZE cfg <= j ->
     a m' !! j = a m !! j /\ b m' !! j = b m !! j /\ c m' !! j = c m !! j /\
     e m' !! j = e m !! j) /\
  (forall j, STREAM_INDEX_ARRAY_SIZE cfg <= j -> d m' !! j = d m !! j).

(** The value that the counter [l] of the main loop has when each
    optional kernel is timed. *)
Definition row_Gather (cfg : config) : nat := 4.
Definition row_Scatter (cfg : config) : nat := 4 + NUM_KERNELS_GATHER cfg.
Definition row_Indirect_dot (cfg : config) : nat :=
  4 + NUM_KERNELS_GATHER cfg + NUM_KERNELS_SCATTER cfg.

(** The byte count of an indexed kernel. *)
Definition indirect_bytes (cfg : config) : spec_float :=
  let w := Z.of_nat (sizeof (stream_type cfg)) in
  let n := Z.of_nat (STREAM_ARRAY_SIZE cfg) in
  let mi := Z.of_nat (STREAM_INDEX_ARRAY_SIZE cfg) in
  of_int STREAM_double (w * Z.min n mi + w * mi + 4 * mi).

(** The body of the main loop with the rows written out. *)
Definition trial_by_rows (cfg : config) (env : environment)
    (scalar : spec_float) (k : nat) (s : run) : option run :=
  s ← timed cfg env 0 k (STREAM_Copy cfg) s;
  s ← timed cfg env 1 k (STREAM_Scale cfg scalar) s;
  s ← timed cfg env 2 k (STREAM_Add cfg) s;
  s ← timed cfg env 3 k (STREAM_Triad cfg scalar) s;
  s ← (if ENABLE_GATHER cfg
       then timed cfg env (row_Gather cfg) k (STREAM_Gather cfg) s
       else Some s);
  s ← (if ENABLE_SCATTER cfg
       then timed cfg env (row_Scatter cfg) k (STREAM_Scatter cfg) s
       else Some s);
  if ENABLE_INDIRECT_DOT_PRODUCT cfg
  then timed cfg env (row_Indirect_dot cfg) k (STREAM_Indirect_dot cfg)
         {| mem := set_x (of_double (stream_type cfg) c_0) (mem s);
            times := times s; reads := reads s |}
  else Some s.

(** * Properties *)

(** ** Loops *)

Section Loops.
Context {S : Type}.
Implicit Types (body : nat -> S -> option S) (s : S).

Lemma for_range_empty lo hi body s :
  hi <= lo -> for_range lo hi body s = Some s.
Proof.
  intros H. unfold for_range. replace (hi - lo) with 0 by lia. reflexivity.
Qed.

Lemma for_range_S lo hi body s :
  lo <= hi ->
  for_range lo (Datatypes.S hi) body s = for_range lo hi body s ≫= body hi.
Proof.
  intros H. unfold for_range.
  replace (Datatypes.S hi - lo) with (Datatypes.S (hi - lo)) by lia.
  rewrite seq_S, foldl_app. simpl.
  replace (lo + (hi - lo)) with hi by lia. reflexivity.
Qed.

Lemma for_loop_0 body s : for_loop 0 body s = Some s.
Proof. reflexivity. Qed.

Lemma for_loop_S n body s :
  for_loop (Datatypes.S n) body s = for_loop n body s ≫= body n.
Proof. apply for_range_S. lia. Qed.

(** The loop rule: an invariant that every iteration re-establishes, and
    that no iteration can fail under, holds at the exit, and the loop
    returns. *)
Lemma for_range_inv (P : nat -> S -> Prop) lo hi body s :
  lo <= hi ->
  P lo s ->
  (forall j t, lo <= j < hi -> P j t ->
     exists t', body j t = Some t' /\ P (Datatypes.S j) t') ->
  exists s', for_range lo hi body s = Some s' /\ P hi s'.
Proof.
  intros Hle H0 Hstep. induction hi as [|hi IH].
  - assert (lo = 0) by lia. subst. exists s. split; [reflexivity | done].
  - destruct (decide (lo = Datatypes.S hi)) as [->|Hne].
    + exists s. split; [apply for_range_empty; lia | done].
    + destruct IH as (t & Ht & HP);
        [lia | intros; apply Hstep; first [lia | done] |].
      destruct (Hstep hi t ltac:(lia) HP) as (t' & Hb & HP').
      exists t'. rewrite for_range_S, Ht by lia. done.
Qed.

Lemma for_loop_inv (P : nat -> S -> Prop) n body s :
  P 0 s ->
  (forall j t, j < n -> P j t ->
     exists t', body j t = Some t' /\ P (Datatypes.S j) t') ->
  exists s', for_loop n body s = Some s' /\ P n s'.
Proof.
  intros H0 Hstep. apply for_range_inv; [lia | done |].
  intros j t [_ Hj]. by apply Hstep.
Qed.

(** The same rule for a loop that is only known to have returned. *)
Lemma for_range_post (P : nat -> S -> Prop) lo hi body s s' :
  lo <= hi ->
  for_range lo hi body s = Some s' ->
  P lo s ->
  (forall j t t', lo <= j < hi -> P j t -> body j t = Some t' ->
     P (Datatypes.S j) t') ->
  P hi s'.
Proof.
  intros Hle. revert s'. induction hi as [|hi IH]; intros s' Hrun H0 Hstep.
  - assert (lo = 0) by lia. subst. cbv in Hrun. by injection Hrun as <-.
  - destruct (decide (lo = Datatypes.S hi)) as [->|Hne].
    + rewrite for_range_empty in Hrun by lia. by injection Hrun as <-.
    + rewrite for_range_S in Hrun by lia.
      destruct (for_range lo hi body s) as [t|] eqn:Ht; [|done].
      simpl in Hrun. apply (Hstep hi t); [lia | | done].
      apply IH; [lia | done | done |].
        intros j t0 t1 Hj HP Hb. apply (Hstep j t0 t1); first [lia | done].
Qed.

Lemma for_loop_post (P : nat -> S -> Prop) n body s s' :
  for_loop n body s = Some s' ->
  P 0 s ->
  (forall j t t', j < n -> P j t -> body j t = Some t' ->
     P (Datatypes.S j) t') ->
  P n s'.
Proof.
  intros Hrun H0 Hstep. apply (for_range_post P 0 n body s); [lia | done..|].
  intros j t t' [_ Hj]. by apply Hstep.
Qed.

Lemma for_range_ext lo hi body body' s :
  (forall j t, lo <= j < hi -> body j t = body' j t) ->
  for_range lo hi body s = for_range lo hi body' s.
Proof.
  intros Hext. destruct (decide (lo <= hi)) as [Hle|Hgt].
  - induction hi as [|hi IH].
    + reflexivity.
    + destruct (decide (lo = Datatypes.S hi)) as [->|Hne].
      * by rewrite !for_range_empty by lia.
      * rewrite !for_range_S by lia. rewrite IH; [|intros; apply Hext; lia|lia].
        destruct (for_range lo hi body' s); [apply Hext; lia | done].
  - by rewrite !for_range_empty by lia.
Qed.

Lemma for_loop_ext n body body' s :
  (forall j t, j < n -> body j t = body' j t) ->
  for_loop n body s = for_loop n body' s.
Proof. intros H. apply for_range_ext. intros j t [_ Hj]. by apply H. Qed.

End Loops.

(** A loop with an iteration that fails on every state fails; a loop
    whose body is replaced by one that returns whenever the old one did
    returns the same. *)
Lemma for_loop_fail {S : Type} n (body : nat -> S -> option S) s j :
  j < n -> (forall t, body j t = None) -> for_loop n body s = None.
Proof.
  intros Hj Hfail. induction n as [|n IH]; [lia|].
  rewrite for_loop_S. destruct (decide (j = n)) as [->|Hne].
  - destruct (for_loop n body s); [apply Hfail | done].
  - by rewrite IH by lia.
Qed.

Lemma for_loop_mono {S : Type} n (body body' : nat -> S -> option S) s s' :
  (forall j t t', j < n -> body j t = Some t' -> body' j t = Some t') ->
  for_loop n body s = Some s' -> for_loop n body' s = Some s'.
Proof.
  revert s'. induction n as [|n IH]; intros s' Hb H.
  - by rewrite for_loop_0 in *.
  - rewrite for_loop_S in *.
    destruct (for_loop n body s) as [s1|] eqn:E; [|done]. simpl in H.
    rewrite (IH s1); [|intros; apply Hb; [lia | done] | done].
    simpl. apply Hb; [lia | done].
Qed.

Lemma for_range_fail {S : Type} lo hi (body : nat -> S -> option S) s j :
  lo <= j < hi -> (forall t, body j t = None) -> for_range lo hi body s = None.
Proof.
  intros Hj Hfail. induction hi as [|hi IH]; [lia|].
  rewrite for_range_S by lia. destruct (decide (j = hi)) as [->|Hne].
  - destruct (for_range lo hi body s); [apply Hfail | done].
  - by rewrite IH by lia.
Qed.

(** ** Arrays *)

(** Simplification of the option monad and of the field accesses, leaving
    array updates folded. *)
Tactic Notation "osimpl" :=
  cbn [mbind option_bind mret option_ret fmap option_fmap option_map
       a b c d i e x set_a set_b set_c set_d set_i set_e set_x
       mem times reads fst snd].
Tactic Notation "osimpl" "in" "*" :=
  cbn [mbind option_bind mret option_ret fmap option_fmap option_map
       a b c d i e x set_a set_b set_c set_d set_i set_e set_x
       mem times reads fst snd] in *.
Tactic Notation "osimpl" "in" hyp(H) :=
  cbn [mbind option_bind mret option_ret fmap option_fmap option_map
       a b c d i e x set_a set_b set_c set_d set_i set_e set_x
       mem times reads fst snd] in H.

Lemma store_Some {A} (arr : list A) j v :
  j < length arr -> store arr j v = Some (<[j:=v]> arr).
Proof. intros H. unfold store. by rewrite decide_True. Qed.

Lemma store_inv {A} (arr arr' : list A) j v :
  store arr j v = Some arr' -> j < length arr /\ arr' = <[j:=v]> arr.
Proof. unfold store. case_decide; [|done]. by intros [= <-]. Qed.

Lemma subscript_of_nat n : subscript (Z.of_nat n) = Some n.
Proof.
  unfold subscript. destruct (Z.leb_spec 0 (Z.of_nat n)); [|lia].
  by rewrite Nat2Z.id.
Qed.

(** A loop that assigns [fld[j] = rhs(j)] for [j < n], where [rhs] does not
    read the field [fld] it assigns. *)
Section Assign.
Context {S V : Type} (get : S -> list V) (set : list V -> S -> S)
        (rhs : nat -> S -> option V).
Hypothesis get_set : forall l s, get (set l s) = l.
Hypothesis set_set : forall l l' s, set l (set l' s) = set l s.
Hypothesis set_get : forall s, set (get s) s = s.
Hypothesis rhs_set : forall j l s, rhs j (set l s) = rhs j s.

Lemma assign_loop n s :
  n <= length (get s) ->
  (forall j, j < n -> is_Some (rhs j s)) ->
  exists l,
    for_loop n (assign_body get set rhs) s = Some (set l s) /\
    length l = length (get s) /\
    (forall j, j < n -> l !! j = rhs j s) /\
    (forall j, n <= j -> l !! j = get s !! j).
Proof.
  intros Hn Hrhs.
  destruct (for_loop_inv (fun k t => exists l, t = set l s /\
      length l = length (get s) /\
      (forall j, j < k -> l !! j = rhs j s) /\
      (forall j, k <= j -> l !! j = get s !! j)) n (assign_body get set rhs) s)
    as (t & Hrun & l & -> & Hl); [| |by exists l].
  - exists (get s). rewrite set_get.
    split; [done|]. split; [done|]. split; [intros; lia | done].
  - intros k t Hk (l & -> & Hlen & Hlo & Hhi).
    destruct (Hrhs k Hk) as [v Hv].
    exists (set (<[k:=v]> l) s). unfold assign_body.
    rewrite rhs_set, Hv, get_set. simpl.
    rewrite store_Some by lia. simpl. rewrite set_set. split; [done|].
    exists (<[k:=v]> l). split; [done|]. rewrite length_insert.
    split; [done|]. split.
    + intros j Hj. destruct (decide (j = k)) as [->|Hne].
      * rewrite list_lookup_insert_eq by lia. done.
      * rewrite list_lookup_insert_ne by done. apply Hlo. lia.
    + intros j Hj. rewrite list_lookup_insert_ne by lia. apply Hhi. lia.
Qed.

End Assign.

(** ** The kernels, element by element *)

Section Kernels.
Variable cfg : config.
Local Abbreviation N := (STREAM_ARRAY_SIZE cfg).
Local Abbreviation MI := (STREAM_INDEX_ARRAY_SIZE cfg).
Local Abbreviation ty := (stream_type cfg).

Lemma tuned_STREAM_Copy_eq : tuned_STREAM_Copy cfg = STREAM_Copy cfg.
Proof. reflexivity. Qed.
Lemma tuned_STREAM_Scale_eq : tuned_STREAM_Scale cfg = STREAM_Scale cfg.
Proof. reflexivity. Qed.
Lemma tuned_STREAM_Add_eq : tuned_STREAM_Add cfg = STREAM_Add cfg.
Proof. reflexivity. Qed.
Lemma tuned_STREAM_Triad_eq : tuned_STREAM_Triad cfg = STREAM_Triad cfg.
Proof. reflexivity. Qed.

Lemma STREAM_Copy_spec m :
  N <= length (a m) -> N <= length (c m) ->
  exists c',
    STREAM_Copy cfg m = Some (set_c c' m) /\
    length c' = length (c m) /\
    (forall j, j < N -> c' !! j = a m !! j) /\
    (forall j, N <= j -> c' !! j = c m !! j).
Proof.
  intros Ha Hc.
  apply (assign_loop c set_c (fun j m => a m !! j));
    [done | done | by intros [] | done | done |].
  intros j Hj. apply lookup_lt_is_Some. lia.
Qed.

Lemma STREAM_Scale_spec scalar m :
  N <= length (b m) -> N <= length (c m) ->
  exists b',
    STREAM_Scale cfg scalar m = Some (set_b b' m) /\
    length b' = length (b m) /\
    (forall j, j < N -> b' !! j = fmul ty scalar <$> c m !! j) /\
    (forall j, N <= j -> b' !! j = b m !! j).
Proof.
  intros Hb Hc. unfold STREAM_Scale.
  erewrite for_loop_ext; [
    apply (assign_loop b set_b (fun j m => fmul ty scalar <$> c m !! j));
      [done | done | by intros [] | done | done |] |].
  - intros j Hj. apply fmap_is_Some, lookup_lt_is_Some.
    lia.
  - intros j t _. unfold assign_body. simpl. by destruct (c t !! j).
Qed.

Lemma STREAM_Add_spec m :
  N <= length (a m) -> N <= length (b m) -> N <= length (c m) ->
  exists c',
    STREAM_Add cfg m = Some (set_c c' m) /\
    length c' = length (c m) /\
    (forall j, j < N ->
       c' !! j = (u ← a m !! j; v ← b m !! j; Some (fadd ty u v))) /\
    (forall j, N <= j -> c' !! j = c m !! j).
Proof.
  intros Ha Hb Hc. unfold STREAM_Add.
  erewrite for_loop_ext; [
    apply (assign_loop c set_c
             (fun j m => u ← a m !! j; v ← b m !! j; Some (fadd ty u v)));
      [done | done | by intros [] | done | done |] |].
  - intros j Hj.
    destruct (lookup_lt_is_Some_2 (a m) j) as [u ->]; [lia|].
    destruct (lookup_lt_is_Some_2 (b m) j) as [v ->]; [lia|].
    by eexists.
  - intros j t _. unfold assign_body. simpl.
    destruct (a t !! j); [|done]. simpl. by destruct (b t !! j).
Qed.

Lemma STREAM_Triad_spec scalar m :
  N <= length (a m) -> N <= length (b m) -> N <= length (c m) ->
  exists a',
    STREAM_Triad cfg scalar m = Some (set_a a' m) /\
    length a' = length (a m) /\
    (forall j, j < N ->
       a' !! j = (u ← b m !! j; v ← c m !! j;
                  Some (fadd ty u (fmul ty scalar v)))) /\
    (forall j, N <= j -> a' !! j = a m !! j).
Proof.
  intros Ha Hb Hc. unfold STREAM_Triad.
  erewrite for_loop_ext; [
    apply (assign_loop a set_a
             (fun j m => u ← b m !! j; v ← c m !! j;
                         Some (fadd ty u (fmul ty scalar v))));
      [done | done | by intros [] | done | done |] |].
  - intros j Hj.
    destruct (lookup_lt_is_Some_2 (b m) j) as [u ->]; [lia|].
    destruct (lookup_lt_is_Some_2 (c m) j) as [v ->]; [lia|].
    by eexists.
  - intros j t _. unfold assign_body. simpl.
    destruct (b t !! j); [|done]. simpl. by destruct (c t !! j).
Qed.

End Kernels.

Section IndexedKernels.
Variable cfg : config.
Local Abbreviation N := (STREAM_ARRAY_SIZE cfg).
Local Abbreviation MI := (STREAM_INDEX_ARRAY_SIZE cfg).
Local Abbreviation ty := (stream_type cfg).

Lemma in_bounds_read m j :
  in_bounds cfg m -> MI <= length (i m) -> j < MI ->
  exists n, i m !! j = Some (Z.of_nat n) /\ n < N.
Proof.
  intros Hib Hlen Hj.
  destruct (lookup_lt_is_Some_2 (i m) j) as [z Hz]; [lia|].
  destruct (Hib j z Hj Hz) as [H0 H1].
  exists (Z.to_nat z). rewrite Z2Nat.id by done. split; [done|]. lia.
Qed.

Lemma STREAM_Gather_spec m :
  N <= length (a m) -> MI <= length (d m) -> MI <= length (i m) ->
  in_bounds cfg m ->
  exists d',
    STREAM_Gather cfg m = Some (set_d d' m) /\
    length d' = length (d m) /\
    (forall j n, j < MI -> i m !! j = Some (Z.of_nat n) -> d' !! j = a m !! n) /\
    (forall j, MI <= j -> d' !! j = d m !! j).
Proof.
  intros Ha Hd Hi Hib. unfold STREAM_Gather.
  destruct (assign_loop d set_d
              (fun j m => ij ← i m !! j; n ← subscript ij; a m !! n)
              ltac:(done) ltac:(done) ltac:(by intros []) ltac:(done) MI m)
    as (d' & Hrun & Hlen & Hlo & Hhi); [done | |].
  - intros j Hj. destruct (in_bounds_read m j) as (n & -> & Hn); [done..|].
    simpl. rewrite subscript_of_nat. simpl.
    apply lookup_lt_is_Some. lia.
  - exists d'. split; [|split; [done|]; split; [|done]].
    { rewrite <- Hrun. apply for_loop_ext. intros j t _.
      unfold assign_body. destruct (i t !! j) as [z|]; [|done]. simpl.
      by destruct (subscript z). }
    intros j n Hj Hn. rewrite Hlo, Hn by done. simpl.
    by rewrite subscript_of_nat.
Qed.

(** Scatter, when the value gathered for an entry depends only on the
    index stored there (as after a gather): every indexed element of [e]
    receives that value, and the others keep theirs. *)
Lemma STREAM_Scatter_spec (f : nat -> spec_float) m :
  N <= length (e m) -> MI <= length (d m) -> MI <= length (i m) ->
  in_bounds cfg m ->
  (forall j n, j < MI -> i m !! j = Some (Z.of_nat n) -> d m !! j = Some (f n)) ->
  exists e',
    STREAM_Scatter cfg m = Some (set_e e' m) /\
    length e' = length (e m) /\
    (forall j n, j < MI -> i m !! j = Some (Z.of_nat n) ->
       e' !! n = Some (f n)) /\
    (forall n, (forall j, j < MI -> i m !! j <> Some (Z.of_nat n)) ->
       e' !! n = e m !! n).
Proof.
  intros He Hd Hi Hib Hf. unfold STREAM_Scatter.
  destruct (for_loop_inv (fun k t => exists l, t = set_e l m /\
      length l = length (e m) /\
      (forall j n, j < k -> i m !! j = Some (Z.of_nat n) ->
         l !! n = Some (f n)) /\
      (forall n, (forall j, j < k -> i m !! j <> Some (Z.of_nat n)) ->
         l !! n = e m !! n)) MI
      (fun j m => ij ← i m !! j; n ← subscript ij; v ← d m !! j;
                  e' ← store (e m) n v; Some (set_e e' m)) m)
    as (t & Hrun & l & -> & Hl); [| |by exists l].
  - exists (e m). split; [by destruct m|]. split; [done|].
    split; [intros; lia | done].
  - intros k t Hk (l & -> & Hlen & Hlo & Hhi).
    destruct (in_bounds_read m k) as (n & Hik & Hn); [done..|].
    exists (set_e (<[n:=f n]> l) m). simpl. rewrite Hik. simpl.
    rewrite subscript_of_nat. simpl. rewrite (Hf k n Hk Hik). simpl.
    rewrite store_Some by (lia). split; [done|].
    exists (<[n:=f n]> l). split; [done|]. rewrite length_insert.
    split; [done|]. split.
    + intros j n' Hj Hij. destruct (decide (n' = n)) as [->|Hne].
      * apply list_lookup_insert_eq. lia.
      * rewrite list_lookup_insert_ne by done.
        destruct (decide (j = k)) as [->|Hjk];
          [rewrite Hik in Hij; injection Hij; lia|].
        apply (Hlo j); [lia | done].
    + intros n' Hn'. rewrite list_lookup_insert_ne.
      * apply Hhi. intros j Hj. apply Hn'. lia.
      * intros ->. by apply (Hn' k ltac:(lia)).
Qed.

Lemma STREAM_Indirect_dot_spec m :
  N <= length (b m) -> MI <= length (d m) -> MI <= length (i m) ->
  in_bounds cfg m ->
  exists x', STREAM_Indirect_dot cfg m = Some (set_x x' m).
Proof.
  intros Hb Hd Hi Hib. unfold STREAM_Indirect_dot.
  destruct (for_loop_inv (fun k t => exists v, t = set_x v m) MI
      (fun j m => u ← d m !! j; ij ← i m !! j; n ← subscript ij;
                  v ← b m !! n;
                  Some (set_x (fadd (stream_type cfg) (x m)
                                 (fmul (stream_type cfg) u v)) m)) m)
    as (t & Hrun & v & ->); [| |by exists v].
  - exists (x m). by destruct m.
  - intros k t Hk (v & ->).
    destruct (in_bounds_read m k) as (n & Hik & Hn); [done..|].
    destruct (lookup_lt_is_Some_2 (d m) k) as [u Hu]; [lia|].
    destruct (lookup_lt_is_Some_2 (b m) n) as [w Hw]; [lia|].
    simpl. rewrite Hu, Hik. simpl. rewrite subscript_of_nat. simpl.
    rewrite Hw. simpl. eexists. split; [done|]. by eexists.
Qed.

End IndexedKernels.

(** ** The set-up loops *)

Lemma to_int_small z : (INT_MIN <= z <= INT_MAX)%Z -> to_int z = z.
Proof.
  unfold INT_MIN, INT_MAX, to_int. intros H.
  rewrite Z.mod_small by lia. lia.
Qed.

Section Setup.
Variable cfg : config.
Local Abbreviation N := (STREAM_ARRAY_SIZE cfg).
Local Abbreviation MI := (STREAM_INDEX_ARRAY_SIZE cfg).
Local Abbreviation ty := (stream_type cfg).

Lemma init_abc_spec m :
  N <= length (a m) -> N <= length (b m) -> N <= length (c m) ->
  exists a' b' c',
    init_abc cfg m = Some (set_c c' (set_b b' (set_a a' m))) /\
    length a' = length (a m) /\ length b' = length (b m) /\
    length c' = length (c m) /\
    (forall j, j < N ->
       a' !! j = Some (of_double ty c_1) /\
       b' !! j = Some (of_double ty c_2) /\
       c' !! j = Some (of_double ty c_0)).
Proof.
  intros Ha Hb Hc. unfold init_abc.
  destruct (for_loop_inv (fun k t => exists a' b' c',
      t = set_c c' (set_b b' (set_a a' m)) /\
      length a' = length (a m) /\ length b' = length (b m) /\
      length c' = length (c m) /\
      (forall j, j < k ->
         a' !! j = Some (of_double ty c_1) /\
         b' !! j = Some (of_double ty c_2) /\
         c' !! j = Some (of_double ty c_0))) N
      (fun j m =>
         a' ← store (a m) j (of_double (stream_type cfg) c_1);
         b' ← store (b m) j (of_double (stream_type cfg) c_2);
         c' ← store (c m) j (of_double (stream_type cfg) c_0);
         Some (set_c c' (set_b b' (set_a a' m)))) m)
    as (t & Hrun & a' & b' & c' & -> & Hl); [| |by exists a', b', c'].
  - exists (a m), (b m), (c m). split; [by destruct m|].
    do 3 (split; [done|]). intros; lia.
  - intros k t Hk (a' & b' & c' & -> & Hla & Hlb & Hlc & Hlo). osimpl.
    do 3 (rewrite store_Some by (lia); osimpl).
    eexists. split; [done|].
    exists (<[k:=of_double ty c_1]> a'), (<[k:=of_double ty c_2]> b'),
           (<[k:=of_double ty c_0]> c').
    split; [reflexivity|]. rewrite !length_insert.
    do 3 (split; [done|]). intros j Hj.
    destruct (decide (j = k)) as [->|Hne].
    + rewrite !list_lookup_insert_eq by (lia). done.
    + rewrite !list_lookup_insert_ne by done. apply Hlo. lia.
Qed.

Lemma init_d_spec m :
  MI <= length (d m) ->
  exists d',
    init_d cfg m = Some (set_d d' m) /\ length d' = length (d m) /\
    (forall j, j < MI -> d' !! j = Some (of_double ty c_1)).
Proof.
  intros Hd.
  destruct (assign_loop d set_d (fun _ _ => Some (of_double ty c_1))
              ltac:(done) ltac:(done) ltac:(by intros []) ltac:(done) MI m)
    as (d' & Hrun & Hlen & Hlo & _); [done | by eexists |].
  by exists d'.
Qed.

Lemma init_e_spec m :
  N <= length (e m) ->
  exists e',
    init_e cfg m = Some (set_e e' m) /\ length e' = length (e m) /\
    (forall j, j < N -> e' !! j = Some (of_double ty c_0)).
Proof.
  intros He.
  destruct (assign_loop e set_e (fun _ _ => Some (of_double ty c_0))
              ltac:(done) ltac:(done) ltac:(by intros []) ltac:(done) N m)
    as (e' & Hrun & Hlen & Hlo & _); [done | by eexists |].
  by exists e'.
Qed.

Lemma init_i_spec m :
  config_ok cfg -> MI <= length (i m) ->
  exists i',
    init_i cfg m = Some (set_i i' m) /\ length i' = length (i m) /\
    (forall j, j < MI -> i' !! j = Some (Z.of_nat (j mod N))).
Proof.
  intros (HN & HNmax & _) Hi. unfold init_i.
  destruct (assign_loop i set_i (fun j _ => Some (Z.of_nat (j mod N)))
              ltac:(done) ltac:(done) ltac:(by intros []) ltac:(done) MI m)
    as (i' & Hrun & Hlen & Hlo & _); [done | by eexists |].
  exists i'. split; [|done]. rewrite <- Hrun. apply for_loop_ext.
  intros j t _. unfold assign_body. rewrite decide_False by lia. simpl.
  rewrite Z.rem_mod_nonneg, <- Nat2Z.inj_mod by lia.
  rewrite to_int_small; [done|].
  pose proof (Nat.mod_upper_bound j N ltac:(lia)).
  unfold INT_MIN, INT_MAX in *. lia.
Qed.

Lemma permute_i_spec env m :
  config_ok cfg -> rand_ok env -> MI <= length (i m) -> in_bounds cfg m ->
  exists i',
    permute_i cfg env m = Some (set_i i' m) /\
    i' ≡ₚ i m /\
    in_bounds cfg (set_i i' m).
Proof.
  intros (HN & HNmax & HMmax) Hrand Hi Hib. unfold permute_i.
  destruct (for_loop_inv (fun k t => exists l, t = set_i l m /\
      l ≡ₚ i m /\ in_bounds cfg (set_i l m)) (MI - 2)
      (fun j m =>
         let k := to_int (Z.of_nat j +
                    Z.rem (rand env j)
                      (Z.of_nat (STREAM_INDEX_ARRAY_SIZE cfg) - Z.of_nat j)) in
         tmp ← i m !! j; kn ← subscript k; ik ← i m !! kn;
         i1 ← store (i m) j ik; i2 ← store i1 kn tmp; Some (set_i i2 m)) m)
    as (t & Hrun & l & -> & Hl); [| |by exists l].
  - exists (i m). split; [by destruct m|]. split; [done|]. by destruct m.
  - intros j t Hj (l & -> & Hperm & Hlb). osimpl.
    assert (Hlen : length l = length (i m)) by by rewrite Hperm.
    set (r := Z.rem (rand env j) (Z.of_nat (STREAM_INDEX_ARRAY_SIZE cfg) - Z.of_nat j)).
    assert (Hr : (0 <= r < Z.of_nat MI - Z.of_nat j)%Z).
    { unfold r. destruct (Hrand j) as [H0 _].
      rewrite Z.rem_mod_nonneg by lia. apply Z.mod_pos_bound. lia. }
    rewrite to_int_small by (unfold INT_MIN, INT_MAX in *; lia).
    replace (Z.of_nat j + r)%Z with (Z.of_nat (j + Z.to_nat r)) by lia.
    rewrite subscript_of_nat.
    set (kn := j + Z.to_nat r). assert (Hkn : kn < MI) by (unfold kn; lia).
    destruct (lookup_lt_is_Some_2 l j) as [tmp Htmp]; [lia|].
    destruct (lookup_lt_is_Some_2 l kn) as [ik Hik]; [lia|].
    rewrite Htmp. osimpl. rewrite Hik. osimpl.
    rewrite store_Some by lia. osimpl.
    rewrite store_Some by (rewrite length_insert; lia). osimpl.
    eexists. split; [done|]. eexists. split; [reflexivity|]. split.
    + rewrite <- Hperm. by apply Permutation_insert_swap.
    + intros p z Hp. simpl.
      destruct (decide (p = kn)) as [->|Hpk].
      { rewrite list_lookup_insert_eq
          by (rewrite length_insert; lia).
        intros [= <-]. apply (Hlb j); [lia | done]. }
      rewrite list_lookup_insert_ne by done.
      destruct (decide (p = j)) as [->|Hpj].
      { rewrite list_lookup_insert_eq by (lia).
        intros [= <-]. by apply (Hlb kn). }
      rewrite list_lookup_insert_ne by done. by apply (Hlb p).
Qed.

Lemma warm_up_spec m :
  N <= length (a m) ->
  exists a',
    warm_up cfg m = Some (set_a a' m) /\ length a' = length (a m) /\
    (forall j, j < N ->
       a' !! j =
       (fun v => of_double ty (dmul c_2 (to_double ty v))) <$> a m !! j) /\
    (forall j, N <= j -> a' !! j = a m !! j).
Proof.
  intros Ha. unfold warm_up.
  destruct (for_loop_inv (fun k t => exists l, t = set_a l m /\
      length l = length (a m) /\
      (forall j, j < k ->
         l !! j =
         (fun v => of_double ty (dmul c_2 (to_double ty v))) <$> a m !! j) /\
      (forall j, k <= j -> l !! j = a m !! j)) N
      (fun j m =>
         v ← a m !! j;
         a' ← store (a m) j
                (of_double (stream_type cfg)
                   (dmul c_2 (to_double (stream_type cfg) v)));
         Some (set_a a' m)) m)
    as (t & Hrun & l & -> & Hl); [| |by exists l].
  - exists (a m). split; [by destruct m|]. split; [done|].
    split; [intros; lia | done].
  - intros k t Hk (l & -> & Hlen & Hlo & Hhi). simpl.
    destruct (lookup_lt_is_Some_2 (a m) k) as [v Hv]; [lia|].
    rewrite (Hhi k) by lia. rewrite Hv. simpl.
    rewrite store_Some by (lia). simpl.
    eexists. split; [done|]. eexists. split; [reflexivity|].
    rewrite length_insert. split; [done|]. split.
    + intros j Hj. destruct (decide (j = k)) as [->|Hne].
      * rewrite list_lookup_insert_eq by (lia). by rewrite Hv.
      * rewrite list_lookup_insert_ne by done. apply Hlo. lia.
    + intros j Hj. rewrite list_lookup_insert_ne by lia. apply Hhi. lia.
Qed.

End Setup.

(** ** Timing does not touch the arrays *)

Lemma store2_Some {A} (tbl : list (list A)) l k v :
  in_table tbl l k ->
  exists tbl', store2 tbl l k v = Some tbl' /\
    length <$> tbl' = length <$> tbl /\
    load2 tbl' l k = Some v.
Proof.
  intros (row & Hrow & Hk). unfold store2, load2. rewrite Hrow. osimpl.
  rewrite store_Some by done. osimpl.
  pose proof (lookup_lt_Some _ _ _ Hrow) as Hl.
  rewrite store_Some by done.
  eexists. split; [done|]. split.
  - rewrite list_fmap_insert, length_insert. apply list_insert_id.
    by rewrite list_lookup_fmap, Hrow.
  - rewrite list_lookup_insert_eq by done. osimpl.
    by apply list_lookup_insert_eq.
Qed.

Lemma in_table_shape {A} (tbl tbl' : list (list A)) l k :
  length <$> tbl' = length <$> tbl -> in_table tbl l k -> in_table tbl' l k.
Proof.
  intros Hs (row & Hrow & Hk).
  assert (H : (length <$> tbl') !! l = Some (length row))
    by by rewrite Hs, list_lookup_fmap, Hrow.
  rewrite list_lookup_fmap in H.
  destruct (tbl' !! l) as [row'|] eqn:Hrow'; [|done].
  exists row'. split; [done|]. injection H as H. lia.
Qed.

Lemma timed_spec cfg env l k kernel s m' :
  in_table (times s) l k ->
  kernel (mem s) = Some m' ->
  exists tbl',
    timed cfg env l k kernel s =
      Some {| mem := m'; times := tbl'; reads := S (S (reads s)) |} /\
    length <$> tbl' = length <$> times s /\
    load2 tbl' l k =
      Some (dsub (mysecond cfg env (S (reads s))) (mysecond cfg env (reads s))).
Proof.
  intros Hin Hker. unfold timed.
  destruct (store2_Some (times s) l k (mysecond cfg env (reads s)) Hin)
    as (tbl1 & -> & Hs1 & Hl1).
  osimpl. rewrite Hker. osimpl. rewrite Hl1. osimpl.
  destruct (store2_Some tbl1 l k
              (dsub (mysecond cfg env (S (reads s))) (mysecond cfg env (reads s))))
    as (tbl2 & -> & Hs2 & Hl2); [by apply (in_table_shape (times s))|].
  osimpl. exists tbl2. split; [done|]. split; [congruence | done].
Qed.

Lemma timed_None cfg env l k kernel s :
  kernel (mem s) = None -> timed cfg env l k kernel s = None.
Proof.
  intros Hker. unfold timed.
  destruct (store2 (times s) l k (mysecond cfg env (reads s))); [|done].
  osimpl. by rewrite Hker.
Qed.

Lemma table_ready_shape cfg k tbl tbl' :
  length <$> tbl' = length <$> tbl ->
  table_ready cfg k tbl -> table_ready cfg k tbl'.
Proof. intros Hs H l Hl. by apply (in_table_shape tbl), H. Qed.

Lemma NUM_KERNELS_rows cfg :
  4 <= NUM_KERNELS cfg /\
  NUM_KERNELS cfg =
    4 + (if ENABLE_GATHER cfg then 1 else 0)
      + (if ENABLE_SCATTER cfg then 1 else 0)
      + (if ENABLE_INDIRECT_DOT_PRODUCT cfg then 1 else 0).
Proof. unfold NUM_KERNELS. split; [lia | reflexivity]. Qed.

(** One timed trial changes the arrays as the kernels alone do, and leaves
    the table with its shape. *)
Ltac step_timed Hn Hshape :=
  match goal with
  | |- context [timed ?cfg ?env ?l ?k ?ker ?s] =>
      let m := fresh "m" in
      let H := fresh "Hker" in
      let H' := fresh "Hker" in
      let tbl := fresh "tbl" in
      let Hs := fresh "Hs" in
      let E := fresh "E" in
      destruct (ker (mem s)) as [m|] eqn:H;
      [ pose proof H as H'; osimpl in H';
        destruct (timed_spec cfg env l k ker s m) as (tbl & E & Hs & _);
        [ apply (in_table_shape _ _ l k Hshape), Hn; lia
        | exact H
        | rewrite E; osimpl in Hs; apply (fun p => eq_trans p Hshape) in Hs;
          clear Hshape E; rename Hs into Hshape; osimpl;
          try rewrite H'; osimpl ]
      | pose proof H as H'; osimpl in H';
        rewrite (timed_None cfg env l k ker s H); osimpl;
        try rewrite H'; osimpl; try done ]
  end.

Lemma trial_mem cfg env scalar k s :
  table_ready cfg k (times s) ->
  match trial_kernels cfg scalar (mem s) with
  | Some m' =>
      exists s', trial cfg env scalar k s = Some s' /\ mem s' = m' /\
                 length <$> times s' = length <$> times s
  | None => trial cfg env scalar k s = None
  end.
Proof.
  intros Hready. unfold trial, trial_kernels.
  replace (if TUNED cfg then tuned_STREAM_Copy cfg else STREAM_Copy cfg)
    with (STREAM_Copy cfg) by (by destruct (TUNED cfg)).
  replace (if TUNED cfg then tuned_STREAM_Scale cfg scalar
           else STREAM_Scale cfg scalar)
    with (STREAM_Scale cfg scalar) by (by destruct (TUNED cfg)).
  replace (if TUNED cfg then tuned_STREAM_Add cfg else STREAM_Add cfg)
    with (STREAM_Add cfg) by (by destruct (TUNED cfg)).
  replace (if TUNED cfg then tuned_STREAM_Triad cfg scalar
           else STREAM_Triad cfg scalar)
    with (STREAM_Triad cfg scalar) by (by destruct (TUNED cfg)).
  destruct (NUM_KERNELS_rows cfg) as [H4 Hrows].
  assert (Hshape : length <$> times s = length <$> times s) by done.
  destruct (ENABLE_GATHER cfg) eqn:G, (ENABLE_SCATTER cfg) eqn:Sc,
           (ENABLE_INDIRECT_DOT_PRODUCT cfg) eqn:Dt;
    repeat step_timed Hready Hshape;
    (eexists; split; [reflexivity|]; split; [reflexivity | exact Hshape]).
Qed.

Lemma STREAM_Scatter_frame cfg m :
  STREAM_ARRAY_SIZE cfg <= length (e m) ->
  STREAM_INDEX_ARRAY_SIZE cfg <= length (d m) ->
  STREAM_INDEX_ARRAY_SIZE cfg <= length (i m) ->
  in_bounds cfg m ->
  exists e', STREAM_Scatter cfg m = Some (set_e e' m) /\
             length e' = length (e m).
Proof.
  intros He Hd Hi Hib. unfold STREAM_Scatter.
  destruct (for_loop_inv (fun k t => exists l, t = set_e l m /\
      length l = length (e m)) (STREAM_INDEX_ARRAY_SIZE cfg)
      (fun j m => ij ← i m !! j; n ← subscript ij; v ← d m !! j;
                  e' ← store (e m) n v; Some (set_e e' m)) m)
    as (t & Hrun & l & -> & Hl); [| |by exists l].
  - exists (e m). split; [by destruct m | done].
  - intros k t Hk (l & -> & Hlen).
    destruct (in_bounds_read cfg m k) as (n & Hik & Hn); [done..|].
    destruct (lookup_lt_is_Some_2 (d m) k) as [v Hv]; [lia|].
    osimpl. rewrite Hik. osimpl. rewrite subscript_of_nat. osimpl.
    rewrite Hv. osimpl. rewrite store_Some by lia. osimpl.
    eexists. split; [done|]. eexists. split; [reflexivity|].
    by rewrite length_insert.
Qed.

(** ** One trial *)

Section Trial.
Variable cfg : config.
Local Abbreviation N := (STREAM_ARRAY_SIZE cfg).
Local Abbreviation MI := (STREAM_INDEX_ARRAY_SIZE cfg).
Local Abbreviation ty := (stream_type cfg).

(** The four mandatory kernels, in order, element by element. *)
Lemma mandatory_kernels scalar m :
  N <= length (a m) -> N <= length (b m) -> N <= length (c m) ->
  exists c1 b2 c3 a4,
    let m1 := set_c c1 m in
    let m2 := set_b b2 m1 in
    let m3 := set_c c3 m2 in
    let m4 := set_a a4 m3 in
    STREAM_Copy cfg m = Some m1 /\
    STREAM_Scale cfg scalar m1 = Some m2 /\
    STREAM_Add cfg m2 = Some m3 /\
    STREAM_Triad cfg scalar m3 = Some m4 /\
    length c1 = length (c m) /\ length b2 = length (b m) /\
    length c3 = length (c m) /\ length a4 = length (a m) /\
    (forall j, j < N -> c1 !! j = a m !! j) /\
    (forall j, j < N -> b2 !! j = fmul ty scalar <$> c1 !! j) /\
    (forall j, j < N ->
       c3 !! j = (u ← a m !! j; v ← b2 !! j; Some (fadd ty u v))) /\
    (forall j, j < N ->
       a4 !! j = (u ← b2 !! j; v ← c3 !! j;
                  Some (fadd ty u (fmul ty scalar v)))).
Proof.
  intros Ha Hb Hc.
  destruct (STREAM_Copy_spec cfg m Ha Hc) as (c1 & E1 & L1 & P1 & _).
  destruct (STREAM_Scale_spec cfg scalar (set_c c1 m))
    as (b2 & E2 & L2 & P2 & _); [osimpl; lia..|]. osimpl in *.
  destruct (STREAM_Add_spec cfg (set_b b2 (set_c c1 m)))
    as (c3 & E3 & L3 & P3 & _); [osimpl; lia..|]. osimpl in *.
  destruct (STREAM_Triad_spec cfg scalar (set_c c3 (set_b b2 (set_c c1 m))))
    as (a4 & E4 & L4 & P4 & _); [osimpl; lia..|]. osimpl in *.
  exists c1, b2, c3, a4.
  repeat split; try done; lia.
Qed.

(** Per element, a trial computes from [a[j]] alone. *)
Lemma mandatory_kernels_elementwise scalar m (c1 b2 c3 a4 : list spec_float)
    j v :
  j < N -> a m !! j = Some v ->
  (forall j, j < N -> c1 !! j = a m !! j) ->
  (forall j, j < N -> b2 !! j = fmul ty scalar <$> c1 !! j) ->
  (forall j, j < N ->
     c3 !! j = (u ← a m !! j; v ← b2 !! j; Some (fadd ty u v))) ->
  (forall j, j < N ->
     a4 !! j = (u ← b2 !! j; v ← c3 !! j;
                Some (fadd ty u (fmul ty scalar v)))) ->
  b2 !! j = Some (fmul ty scalar v) /\
  c3 !! j = Some (fadd ty v (fmul ty scalar v)) /\
  a4 !! j = Some (fadd ty (fmul ty scalar v)
                    (fmul ty scalar (fadd ty v (fmul ty scalar v)))).
Proof.
  intros Hj Hv P1 P2 P3 P4.
  assert (H2 : b2 !! j = Some (fmul ty scalar v))
    by (by rewrite P2, P1, Hv).
  assert (H3 : c3 !! j = Some (fadd ty v (fmul ty scalar v)))
    by (by rewrite P3, Hv, H2).
  split; [done|]. split; [done|]. by rewrite P4, H2, H3.
Qed.

End Trial.

Section OptionalKernels.
Variable cfg : config.
Local Abbreviation N := (STREAM_ARRAY_SIZE cfg).
Local Abbreviation MI := (STREAM_INDEX_ARRAY_SIZE cfg).
Local Abbreviation ty := (stream_type cfg).

Lemma same_layout_refl m : same_layout m m.
Proof. by repeat split. Qed.

Lemma same_layout_trans m1 m2 m3 :
  same_layout m1 m2 -> same_layout m2 m3 -> same_layout m1 m3.
Proof.
  intros (A1 & B1 & C1 & D1 & E1 & I1) (A2 & B2 & C2 & D2 & E2 & I2).
  repeat split; congruence.
Qed.

Lemma sized_layout m m' : same_layout m m' -> sized cfg m -> sized cfg m'.
Proof.
  intros (A1 & B1 & C1 & D1 & E1 & I1) (Ha & Hb & Hc & Hdi & He).
  unfold sized. rewrite A1, B1, C1, D1, E1, I1. done.
Qed.

Lemma in_bounds_layout m m' :
  same_layout m m' -> in_bounds cfg m -> in_bounds cfg m'.
Proof.
  intros (_ & _ & _ & _ & _ & I1) H. unfold in_bounds. by rewrite I1.
Qed.

Lemma trial_kernels_split scalar m :
  trial_kernels cfg scalar m =
    (m ← STREAM_Copy cfg m; m ← STREAM_Scale cfg scalar m;
     m ← STREAM_Add cfg m; m ← STREAM_Triad cfg scalar m;
     optional_kernels cfg m).
Proof. reflexivity. Qed.

Lemma ENABLE_GATHER_indexed : ENABLE_GATHER cfg = true -> indexed cfg = true.
Proof. unfold indexed. by intros ->. Qed.
Lemma ENABLE_SCATTER_indexed : ENABLE_SCATTER cfg = true -> indexed cfg = true.
Proof. unfold indexed. intros ->. by destruct (ENABLE_GATHER cfg). Qed.
Lemma ENABLE_INDIRECT_indexed :
  ENABLE_INDIRECT_DOT_PRODUCT cfg = true -> indexed cfg = true.
Proof.
  unfold indexed. intros ->.
  by destruct (ENABLE_GATHER cfg), (ENABLE_SCATTER cfg).
Qed.

(** The optional kernels return, leave [a], [b], [c] and [i] alone, and:
    gather makes [d[j]] the element of [a] that [i[j]] names; scatter
    makes the elements of [e] that [i] names equal to what [d] holds for
    them. *)
Lemma optional_kernels_spec m :
  sized cfg m -> in_bounds cfg m ->
  exists m',
    optional_kernels cfg m = Some m' /\
    a m' = a m /\ b m' = b m /\ c m' = c m /\ i m' = i m /\
    length (d m') = length (d m) /\ length (e m') = length (e m) /\
    (if ENABLE_GATHER cfg
     then forall j n, j < MI -> i m !! j = Some (Z.of_nat n) ->
            d m' !! j = a m !! n
     else d m' = d m) /\
    (if ENABLE_SCATTER cfg
     then forall f : nat -> spec_float,
            (forall j n, j < MI -> i m !! j = Some (Z.of_nat n) ->
               d m' !! j = Some (f n)) ->
            forall j n, j < MI -> i m !! j = Some (Z.of_nat n) ->
              e m' !! n = Some (f n)
     else e m' = e m).
Proof.
  intros (Ha & Hb & Hc & Hdi & He) Hib. unfold optional_kernels.
  (* gather *)
  assert (exists d1, (if ENABLE_GATHER cfg then STREAM_Gather cfg m else Some m)
                     = Some (set_d d1 m) /\ length d1 = length (d m) /\
            (if ENABLE_GATHER cfg
             then forall j n, j < MI -> i m !! j = Some (Z.of_nat n) ->
                    d1 !! j = a m !! n
             else d1 = d m)) as (d1 & -> & Ld & Pd).
  { destruct (ENABLE_GATHER cfg) eqn:G.
    - destruct Hdi as [Hd Hi]; [by apply ENABLE_GATHER_indexed|].
      destruct (STREAM_Gather_spec cfg m Ha Hd Hi Hib)
        as (d1 & E & L & P & _). by exists d1.
    - exists (d m). by destruct m. }
  osimpl.
  (* scatter *)
  assert (exists e2, (if ENABLE_SCATTER cfg
                      then STREAM_Scatter cfg (set_d d1 m)
                      else Some (set_d d1 m))
                     = Some (set_e e2 (set_d d1 m)) /\
            length e2 = length (e m) /\
            (if ENABLE_SCATTER cfg
             then forall f : nat -> spec_float,
                    (forall j n, j < MI -> i m !! j = Some (Z.of_nat n) ->
                       d1 !! j = Some (f n)) ->
                    forall j n, j < MI -> i m !! j = Some (Z.of_nat n) ->
                      e2 !! n = Some (f n)
             else e2 = e m)) as (e2 & -> & Le & Pe).
  { destruct (ENABLE_SCATTER cfg) eqn:Sc.
    - destruct Hdi as [Hd Hi]; [by apply ENABLE_SCATTER_indexed|].
      destruct (STREAM_Scatter_frame cfg (set_d d1 m)) as (e2 & E & L);
        [osimpl; first [lia | by apply He]..| done |].
      exists e2. split; [done|]. split; [done|]. intros f Hf.
      destruct (STREAM_Scatter_spec cfg f (set_d d1 m)) as (e2' & E' & _ & P & _);
        [osimpl; first [lia | by apply He]..| done | done |].
      rewrite E in E'. injection E' as E'.
      assert (e2' = e2) as -> by congruence. exact P.
    - exists (e m). done. }
  osimpl.
  (* indirect dot product *)
  destruct (ENABLE_INDIRECT_DOT_PRODUCT cfg) eqn:Dt.
  - destruct Hdi as [Hd Hi]; [by apply ENABLE_INDIRECT_indexed|].
    destruct (STREAM_Indirect_dot_spec cfg
                (set_x (of_double ty c_0) (set_e e2 (set_d d1 m))))
      as (x' & ->); [osimpl; lia..| done |].
    eexists. split; [reflexivity|]. osimpl. done.
  - eexists. split; [reflexivity|]. osimpl. done.
Qed.

End OptionalKernels.

(** ** The state before the main loop *)

Section Before.
Variable cfg : config.
Variable env : environment.
Local Abbreviation N := (STREAM_ARRAY_SIZE cfg).
Local Abbreviation MI := (STREAM_INDEX_ARRAY_SIZE cfg).
Local Abbreviation ty := (stream_type cfg).

Lemma static_memory_sized : sized cfg (static_memory cfg).
Proof.
  unfold sized, static_memory. osimpl. rewrite !length_replicate.
  split; [lia|]. split; [lia|]. split; [lia|]. split.
  - intros ->. rewrite !length_replicate. lia.
  - intros ->. rewrite !length_replicate. lia.
Qed.

(** The index array after [init_i] and, when configured, the shuffle. *)
Lemma index_setup m :
  config_ok cfg -> (PERMUTE_INDEX_ARRAY cfg = true -> rand_ok env) ->
  MI <= length (i m) ->
  exists i0 i',
    init_i cfg m = Some (set_i i0 m) /\
    (if PERMUTE_INDEX_ARRAY cfg then permute_i cfg env (set_i i0 m)
     else Some (set_i i0 m)) = Some (set_i i' m) /\
    (forall j, j < MI -> i0 !! j = Some (Z.of_nat (j mod N))) /\
    i' ≡ₚ i0 /\ length i' = length (i m) /\
    (PERMUTE_INDEX_ARRAY cfg = false -> i' = i0) /\
    in_bounds cfg (set_i i' m).
Proof.
  intros Hok Hrand Hi.
  destruct (init_i_spec cfg m Hok Hi) as (i0 & E0 & L0 & P0).
  assert (Hib0 : in_bounds cfg (set_i i0 m)).
  { intros j z Hj. osimpl. rewrite P0 by done. intros [= <-].
    destruct Hok as (HN & _).
    pose proof (Nat.mod_upper_bound j N ltac:(lia)). lia. }
  destruct (PERMUTE_INDEX_ARRAY cfg) eqn:Pm.
  - destruct (permute_i_spec cfg env (set_i i0 m) Hok (Hrand eq_refl))
      as (i' & E' & Hperm & Hib'); [osimpl; lia | done |].
    osimpl in *. exists i0, i'. split; [done|]. split; [done|].
    split; [done|]. split; [done|]. split; [by rewrite Hperm|].
    split; [done|]. exact Hib'.
  - exists i0, i0. done.
Qed.

Lemma setup_spec :
  well_configured cfg env ->
  exists m,
    setup cfg env = Some m /\
    sized cfg m /\ in_bounds cfg m /\
    uniform cfg (of_double ty c_1) (of_double ty c_2) (of_double ty c_0) m /\
    (indexed cfg = true ->
       (forall j, j < MI -> d m !! j = Some (of_double ty c_1)) /\
       exists i0, (forall j, j < MI -> i0 !! j = Some (Z.of_nat (j mod N))) /\
                  i m ≡ₚ i0 /\
                  (PERMUTE_INDEX_ARRAY cfg = false -> i m = i0)) /\
    (ENABLE_SCATTER cfg = true ->
       forall j, j < N -> e m !! j = Some (of_double ty c_0)).
Proof.
  intros Hwf. unfold setup.
  destruct static_memory_sized as (Ha & Hb & Hc & Hdi & He).
  destruct (init_abc_spec cfg (static_memory cfg) Ha Hb Hc)
    as (a' & b' & c' & -> & La & Lb & Lc & Pabc).
  osimpl. set (m1 := set_c c' (set_b b' (set_a a' (static_memory cfg)))).
  assert (exists d' i',
    (if indexed cfg
     then m ← init_d cfg m1; m ← init_i cfg m;
          if PERMUTE_INDEX_ARRAY cfg then permute_i cfg env m else Some m
     else Some m1) = Some (set_i i' (set_d d' m1)) /\
    length d' = length (d m1) /\ length i' = length (i m1) /\
    in_bounds cfg (set_i i' (set_d d' m1)) /\
    (indexed cfg = true ->
       (forall j, j < MI -> d' !! j = Some (of_double ty c_1)) /\
       exists i0, (forall j, j < MI -> i0 !! j = Some (Z.of_nat (j mod N))) /\
                  i' ≡ₚ i0 /\
                  (PERMUTE_INDEX_ARRAY cfg = false -> i' = i0)))
    as (d' & i' & -> & Ld & Li & Hib & Hidx).
  { destruct (indexed cfg) eqn:Ix.
    - destruct (Hwf Ix) as [Hok Hrand].
      destruct (Hdi eq_refl) as [Hd Hi].
      destruct (init_d_spec cfg m1) as (d' & -> & Ld & Pd); [done|]. osimpl.
      destruct (index_setup (set_d d' m1) Hok Hrand)
        as (i0 & i' & -> & E' & P0 & Hperm & Li & Hnp & Hib); [done|].
      osimpl. rewrite E'. exists d', i'. split; [done|]. split; [done|].
      split; [done|]. split; [done|]. intros _. split; [done|]. by exists i0.
    - exists (d m1), (i m1). split; [done|]. split; [done|]. split; [done|].
      split; [|done]. intros j z _. unfold m1, static_memory. osimpl.
      by rewrite Ix. }
  osimpl. set (m2 := set_i i' (set_d d' m1)).
  assert (exists e',
    (if ENABLE_SCATTER cfg then init_e cfg m2 else Some m2)
      = Some (set_e e' m2) /\ length e' = length (e m2) /\
    (ENABLE_SCATTER cfg = true ->
       forall j, j < N -> e' !! j = Some (of_double ty c_0)))
    as (e' & -> & Le & Pe).
  { destruct (ENABLE_SCATTER cfg) eqn:Sc.
    - destruct (init_e_spec cfg m2) as (e' & -> & Le & Pe);
        [by apply He|]. by exists e'.
    - exists (e m2). done. }
  eexists. split; [reflexivity|]. unfold m2, m1 in *. osimpl in *.
  split; [|split; [exact Hib|]; split; [exact Pabc|]; split; done].
  unfold sized. osimpl. rewrite La, Lb, Lc, Ld, Li, Le. done.
Qed.

End Before.

(** ** The whole run *)

Section Run.
Variable cfg : config.
Variable env : environment.
Local Abbreviation N := (STREAM_ARRAY_SIZE cfg).
Local Abbreviation MI := (STREAM_INDEX_ARRAY_SIZE cfg).
Local Abbreviation ty := (stream_type cfg).
Local Abbreviation scalar := (of_double (stream_type cfg) c_3).

Lemma trial_kernels_uniform m va vb vc :
  sized cfg m -> in_bounds cfg m -> uniform cfg va vb vc m ->
  let vb' := fmul ty scalar va in
  let vc' := fadd ty va vb' in
  let va' := fadd ty vb' (fmul ty scalar vc') in
  exists m',
    trial_kernels cfg scalar m = Some m' /\
    same_layout m m' /\
    uniform cfg va' vb' vc' m' /\
    (if ENABLE_GATHER cfg
     then forall j, j < MI -> d m' !! j = Some va'
     else d m' = d m) /\
    (if ENABLE_SCATTER cfg
     then forall vd, (forall j, j < MI -> d m' !! j = Some vd) ->
            forall j n, j < MI -> i m !! j = Some (Z.of_nat n) ->
              e m' !! n = Some vd
     else e m' = e m).
Proof.
  intros Hsz Hib Hu vb' vc' va'.
  pose proof Hsz as (Ha & Hb & Hc & Hdi & He).
  destruct (mandatory_kernels cfg scalar m Ha Hb Hc)
    as (c1 & b2 & c3 & a4 & E1 & E2 & E3 & E4 & L1 & L2 & L3 & L4
        & P1 & P2 & P3 & P4).
  set (m4 := set_a a4 (set_c c3 (set_b b2 (set_c c1 m)))) in *.
  assert (Hlay : same_layout m m4) by (unfold m4; by repeat split).
  assert (Hu4 : uniform cfg va' vb' vc' m4).
  { intros j Hj. destruct (Hu j Hj) as (Hva & _).
    destruct (mandatory_kernels_elementwise cfg scalar m c1 b2 c3 a4 j va
                Hj Hva P1 P2 P3 P4) as (H2 & H3 & H4).
    unfold m4. osimpl. done. }
  destruct (optional_kernels_spec cfg m4)
    as (m' & Eo & Ea & Eb & Ec & Ei & Ld & Le & Pd & Pe);
    [by apply (sized_layout cfg m) | by apply (in_bounds_layout cfg m) |].
  exists m'. rewrite trial_kernels_split, E1. osimpl. rewrite E2. osimpl.
  rewrite E3. osimpl. rewrite E4. osimpl. split; [exact Eo|].
  assert (Hi4 : i m4 = i m) by done.
  split; [|split; [|split]].
  - apply (same_layout_trans m m4); [done|].
    unfold same_layout. by rewrite Ea, Eb, Ec, Ei, Ld, Le.
  - intros j Hj. rewrite Ea, Eb, Ec. by apply Hu4.
  - destruct (ENABLE_GATHER cfg) eqn:G; [|by rewrite Pd].
    intros j Hj.
    destruct (in_bounds_read cfg m j) as (n & Hn & Hlt);
      [done | by apply Hdi, ENABLE_GATHER_indexed | done |].
    rewrite (Pd j n Hj); [|by rewrite Hi4]. by apply Hu4.
  - destruct (ENABLE_SCATTER cfg); [|by rewrite Pe].
    intros vd Hvd j n Hj Hn. rewrite <- Hi4 in Hn.
    apply (Pe (fun _ => vd)) with (j := j); [|done..].
    intros j' n' Hj' _. by apply Hvd.
Qed.

Lemma agrees_step m v :
  sized cfg m -> in_bounds cfg m -> agrees cfg v m ->
  exists m',
    trial_kernels cfg scalar m = Some m' /\
    same_layout m m' /\
    agrees cfg (expected_step cfg scalar v) m' /\
    (ENABLE_GATHER cfg = false -> d m' = d m) /\
    (ENABLE_GATHER cfg = false -> ENABLE_SCATTER cfg = true ->
       forall vd, (forall j, j < MI -> d m !! j = Some vd) ->
         forall j n, j < MI -> i m !! j = Some (Z.of_nat n) ->
           e m' !! n = Some vd).
Proof.
  intros Hsz Hib (Hu & Hd & He).
  destruct (trial_kernels_uniform m _ _ _ Hsz Hib Hu)
    as (m' & E & Hlay & Hu' & Pd & Pe).
  exists m'. split; [done|]. split; [done|].
  assert (Hi : i m' = i m) by apply Hlay.
  split; [|split].
  - split; [exact Hu'|]. unfold expected_step. osimpl. split.
    + destruct (ENABLE_GATHER cfg).
      * intros vd [= <-]. exact Pd.
      * rewrite Pd. exact Hd.
    + intros G. rewrite G in *. destruct (ENABLE_SCATTER cfg).
      * intros ve [= <-] j n Hj Hn. rewrite Hi in Hn. by apply (Pe _ Pd j n).
      * rewrite Pe, Hi. by apply He.
  - intros G. by rewrite G in Pd.
  - intros G Sc vd Hvd j n Hj Hn. rewrite G, Sc in *.
    apply (Pe vd) with (j := j); [|done..]. by rewrite Pd.
Qed.

Lemma entry_table_ready ntimes m r k :
  k < ntimes -> table_ready cfg k (times (entry cfg ntimes m r)).
Proof.
  intros Hk l Hl. exists (replicate ntimes c_0). osimpl. split.
  - by apply lookup_replicate_2.
  - by rewrite length_replicate.
Qed.

(** The main loop returns, and after it the arrays agree with the scalars
    that [ntimes] steps of the validator's recurrence produce. *)
Lemma main_loop_agrees ntimes m r v :
  sized cfg m -> in_bounds cfg m -> agrees cfg v m ->
  exists s,
    main_loop cfg env ntimes (entry cfg ntimes m r) = Some s /\
    same_layout m (mem s) /\
    agrees cfg (Nat.iter ntimes (expected_step cfg scalar) v) (mem s) /\
    length <$> times s = length <$> times (entry cfg ntimes m r).
Proof.
  intros Hsz Hib Hag. unfold main_loop.
  apply (for_loop_inv (fun k s =>
           same_layout m (mem s) /\
           agrees cfg (Nat.iter k (expected_step cfg scalar) v) (mem s) /\
           length <$> times s = length <$> times (entry cfg ntimes m r))).
  - split; [apply same_layout_refl | done].
  - intros k s Hk (Hlay & Hagk & Hshape).
    destruct (agrees_step (mem s) _ (sized_layout cfg m _ Hlay Hsz)
                (in_bounds_layout cfg m _ Hlay Hib) Hagk)
      as (m' & E & Hlay' & Hag' & _).
    pose proof (trial_mem cfg env scalar k s) as Ht. rewrite E in Ht.
    destruct Ht as (s' & Es & <- & Hs').
    { apply (table_ready_shape cfg k _ _ Hshape).
      by apply entry_table_ready. }
    exists s'. split; [done|]. split; [by apply (same_layout_trans _ (mem s))|].
    split; [done | congruence].
Qed.

Lemma warm_up_uniform m va vb vc :
  sized cfg m -> uniform cfg va vb vc m ->
  exists m',
    warm_up cfg m = Some m' /\ same_layout m m' /\
    d m' = d m /\ e m' = e m /\
    uniform cfg (of_double ty (dmul c_2 (to_double ty va))) vb vc m'.
Proof.
  intros (Ha & _) Hu.
  destruct (warm_up_spec cfg m Ha) as (a' & E & L & P & _).
  exists (set_a a' m). split; [done|]. split; [by repeat split|].
  split; [done|]. split; [done|]. intros j Hj. osimpl.
  destruct (Hu j Hj) as (Hva & Hvb & Hvc). by rewrite P, Hva.
Qed.

(** The scalars of the validator follow the recurrence of the design
    document, started at [(2.0, 2.0, 0.0)]. *)
Lemma expected_values_recurrence ntimes :
  let v := expected_values cfg ntimes in
  (aj v, bj v, cj v) = Nat.iter ntimes (spec_recurrence ty) (spec_start ty).
Proof.
  unfold expected_values. cbv zeta.
  set (v0 := {| aj := _; bj := _; cj := _; dj := None; ej := None |}).
  assert (H0 : (aj v0, bj v0, cj v0) = spec_start ty).
  { unfold v0, spec_start. cbn [aj bj cj].
    by destruct (stream_type cfg); vm_compute. }
  clearbody v0. induction ntimes as [|n IH].
  - exact H0.
  - rewrite !Nat.iter_succ, <- IH. reflexivity.
Qed.

(** Set-up, warm-up and main loop return, and leave the arrays in
    agreement with [expected_values]. *)
Lemma run_agrees ntimes r :
  well_configured cfg env ->
  exists m0 m1 s,
    setup cfg env = Some m0 /\
    warm_up cfg m0 = Some m1 /\
    main_loop cfg env ntimes (entry cfg ntimes m1 r) = Some s /\
    same_layout m0 (mem s) /\ sized cfg (mem s) /\ in_bounds cfg (mem s) /\
    agrees cfg (expected_values cfg ntimes) (mem s).
Proof.
  intros Hwf.
  destruct (setup_spec cfg env Hwf) as (m0 & E0 & Hsz & Hib & Hu & _).
  destruct (warm_up_uniform m0 _ _ _ Hsz Hu) as (m1 & E1 & Hlay1 & _ & _ & Hu1).
  destruct (main_loop_agrees ntimes m1 r
              {| aj := of_double ty (dmul c_2 (to_double ty (of_double ty c_1)));
                 bj := of_double ty c_2; cj := of_double ty c_0;
                 dj := None; ej := None |})
    as (s & Es & Hlay & Hag & _);
    [by apply (sized_layout cfg m0) | by apply (in_bounds_layout cfg m0) | |].
  { split; [exact Hu1|]. split; [done|]. done. }
  exists m0, m1, s. split; [done|]. split; [done|]. split; [done|].
  assert (Hl : same_layout m0 (mem s)) by by apply (same_layout_trans _ m1).
  split; [done|]. split; [by apply (sized_layout cfg m0)|].
  split; [by apply (in_bounds_layout cfg m0)|]. exact Hag.
Qed.

End Run.

(** ** The summary loops *)

Section Summary.
Variable cfg : config.
Local Abbreviation NK := (NUM_KERNELS cfg).
Local Abbreviation triple := (spec_float * spec_float * spec_float)%type.

Lemma stats_at_Some st j v :
  stats_at st j = Some v ->
  avgtime st !! j = Some v.1.1 /\ mintime st !! j = Some v.1.2 /\
  maxtime st !! j = Some v.2.
Proof.
  unfold stats_at. destruct (avgtime st !! j); [|done].
  destruct (mintime st !! j); [|done]. destruct (maxtime st !! j); [|done].
  by intros [= <-].
Qed.

Lemma stats_at_intro st j (av mn mx : spec_float) :
  avgtime st !! j = Some av -> mintime st !! j = Some mn ->
  maxtime st !! j = Some mx -> stats_at st j = Some (av, mn, mx).
Proof. unfold stats_at. by intros -> -> ->. Qed.

(** Writing the three entries of kernel [j]. *)
Lemma stats_write st j (v w : triple) :
  stats_at st j = Some v ->
  exists av mn mx,
    store (avgtime st) j w.1.1 = Some av /\
    store (mintime st) j w.1.2 = Some mn /\
    store (maxtime st) j w.2 = Some mx /\
    let st' := {| avgtime := av; mintime := mn; maxtime := mx |} in
    stats_at st' j = Some w /\
    forall j', j' <> j -> stats_at st' j' = stats_at st j'.
Proof.
  intros H. apply stats_at_Some in H as (Ha & Hn & Hx).
  apply lookup_lt_Some in Ha, Hn, Hx.
  exists (<[j:=w.1.1]> (avgtime st)), (<[j:=w.1.2]> (mintime st)),
         (<[j:=w.2]> (maxtime st)).
  rewrite !store_Some by done. do 3 (split; [done|]). split.
  - unfold stats_at. cbn [avgtime mintime maxtime].
    rewrite !list_lookup_insert_eq by done. by destruct w as [[? ?] ?].
  - intros j' Hne. unfold stats_at. cbn [avgtime mintime maxtime].
    by rewrite !list_lookup_insert_ne by done.
Qed.

(** A loop that rewrites the entries of kernel [j] from their old values,
    for every [j < n]. *)
Lemma stats_loop (G : nat -> triple -> triple) n body st (F : nat -> triple) :
  (forall j st0 v, j < n -> stats_at st0 j = Some v ->
     exists st1, body j st0 = Some st1 /\
       stats_at st1 j = Some (G j v) /\
       forall j', j' <> j -> stats_at st1 j' = stats_at st0 j') ->
  (forall j, j < n -> stats_at st j = Some (F j)) ->
  exists st',
    for_loop n body st = Some st' /\
    (forall j, j < n -> stats_at st' j = Some (G j (F j))) /\
    (forall j, n <= j -> stats_at st' j = stats_at st j).
Proof.
  intros Hbody HF.
  apply (for_loop_inv (fun k t =>
           (forall j, j < k -> stats_at t j = Some (G j (F j))) /\
           (forall j, k <= j -> stats_at t j = stats_at st j))).
  - split; [intros; lia | done].
  - intros k t Hk [Hlo Hhi].
    destruct (Hbody k t (F k) Hk) as (t' & E & Hk' & Hother).
    { rewrite Hhi by lia. by apply HF. }
    exists t'. split; [done|]. split.
    + intros j Hj. destruct (decide (j = k)) as [->|Hne]; [done|].
      rewrite Hother by done. apply Hlo. lia.
    + intros j Hj. rewrite Hother by lia. apply Hhi. lia.
Qed.

Lemma static_statistics_at j :
  j < 4 -> stats_at (static_statistics cfg) j = Some (c_0, FLT_MAX, c_0).
Proof.
  intros Hj. destruct (NUM_KERNELS_rows cfg) as [H4 _].
  unfold stats_at, static_statistics. cbn [avgtime mintime maxtime].
  rewrite lookup_app_l by (rewrite length_replicate; lia).
  rewrite !lookup_replicate_2 by lia. done.
Qed.

Lemma static_statistics_Some j :
  j < NK -> is_Some (stats_at (static_statistics cfg) j).
Proof.
  intros Hj. unfold stats_at, static_statistics. cbn [avgtime mintime maxtime].
  rewrite lookup_replicate_2 by done. osimpl.
  destruct (lookup_lt_is_Some_2
              (replicate 4 FLT_MAX ++ replicate (NK - 4) c_0) j) as [v ->].
  { rewrite length_app, !length_replicate.
    destruct (NUM_KERNELS_rows cfg). lia. }
  osimpl. by eexists.
Qed.

Lemma reset_statistics_spec :
  exists st,
    reset_statistics cfg (static_statistics cfg) = Some st /\
    forall j, j < NK -> stats_at st j = Some (c_0, FLT_MAX, c_0).
Proof.
  unfold reset_statistics. case_decide as H4.
  - destruct (stats_loop (fun _ _ => (c_0, FLT_MAX, c_0)) NK
      (fun j st =>
         av ← store (avgtime st) j c_0; mn ← store (mintime st) j FLT_MAX;
         mx ← store (maxtime st) j c_0;
         Some {| avgtime := av; mintime := mn; maxtime := mx |})
      (static_statistics cfg)
      (fun j => default (c_0, c_0, c_0) (stats_at (static_statistics cfg) j)))
      as (st & E & P & _).
    + intros j st0 v Hj Hv.
      destruct (stats_write st0 j v (c_0, FLT_MAX, c_0) Hv)
        as (av & mn & mx & E1 & E2 & E3 & Hw).
      cbn [fst snd] in E1, E2, E3. rewrite E1. osimpl. rewrite E2. osimpl.
      rewrite E3. osimpl. by eexists.
    + intros j Hj. by destruct (static_statistics_Some j Hj) as [v ->].
    + by exists st.
  - exists (static_statistics cfg). split; [done|]. intros j Hj.
    apply static_statistics_at. lia.
Qed.

(** The three accumulators of kernel [j] over a list of samples. *)
Lemma accumulate_spec ntimes tbl st :
  table_full cfg ntimes tbl ->
  (forall j, j < NK -> stats_at st j = Some (c_0, FLT_MAX, c_0)) ->
  exists st',
    accumulate cfg ntimes tbl st = Some st' /\
    forall j row, j < NK -> tbl !! j = Some row ->
      stats_at st' j =
        Some (foldl dadd c_0 (retained ntimes row),
              foldl (MIN SFltb) FLT_MAX (retained ntimes row),
              foldl (MAX SFltb) c_0 (retained ntimes row)).
Proof.
  intros Hfull Hst. unfold accumulate.
  set (acc := fun n j =>
    let l := take n (drop 1 (default [] (tbl !! j))) in
    (foldl dadd c_0 l, foldl (MIN SFltb) FLT_MAX l, foldl (MAX SFltb) c_0 l)).
  enough (exists st', for_range 1 ntimes
      (fun k st => for_loop NK (fun j st =>
         t ← load2 tbl j k;
         av0 ← avgtime st !! j; av ← store (avgtime st) j (dadd av0 t);
         mn0 ← mintime st !! j; mn ← store (mintime st) j (MIN SFltb mn0 t);
         mx0 ← maxtime st !! j; mx ← store (maxtime st) j (MAX SFltb mx0 t);
         Some {| avgtime := av; mintime := mn; maxtime := mx |}) st) st
      = Some st' /\
      forall j, j < NK -> stats_at st' j = Some (acc (ntimes - 1) j))
    as (st' & E & P).
  { exists st'. split; [done|]. intros j row Hj Hrow.
    rewrite (P j Hj). unfold acc, retained. by rewrite Hrow. }
  destruct (decide (ntimes = 0)) as [->|Hnz].
  { exists st. split; [done|]. intros j Hj. by rewrite Hst. }
  apply (for_range_inv (fun k t =>
           forall j, j < NK -> stats_at t j = Some (acc (k - 1) j)));
    [lia | by intros j Hj; rewrite Hst |].
  intros k t [Hk1 Hk] Ht.
  set (sample := fun j => default c_0 (load2 tbl j k)).
  destruct (stats_loop
    (fun j v => (dadd v.1.1 (sample j), MIN SFltb v.1.2 (sample j),
                 MAX SFltb v.2 (sample j))) NK
    (fun j st =>
       t ← load2 tbl j k;
       av0 ← avgtime st !! j; av ← store (avgtime st) j (dadd av0 t);
       mn0 ← mintime st !! j; mn ← store (mintime st) j (MIN SFltb mn0 t);
       mx0 ← maxtime st !! j; mx ← store (maxtime st) j (MAX SFltb mx0 t);
       Some {| avgtime := av; mintime := mn; maxtime := mx |})
    t (acc (k - 1))) as (t' & E & P & _); [| done |].
  - intros j st0 v Hj Hv.
    destruct (Hfull j Hj) as (row & Hrow & Hlen).
    destruct (lookup_lt_is_Some_2 row k) as [s Hs]; [lia|].
    assert (Hload : load2 tbl j k = Some s)
      by (unfold load2; rewrite Hrow; osimpl; done).
    unfold sample. rewrite Hload. osimpl.
    destruct (stats_write st0 j v
                (dadd v.1.1 s, MIN SFltb v.1.2 s, MAX SFltb v.2 s) Hv)
      as (av & mn & mx & E1 & E2 & E3 & Hw).
    apply stats_at_Some in Hv as (-> & -> & ->). cbn [fst snd] in E1, E2, E3.
    osimpl. rewrite E1. osimpl. rewrite E2. osimpl. rewrite E3. osimpl.
    by eexists.
  - exists t'. split; [done|]. intros j Hj. rewrite (P j Hj).
    destruct (Hfull j Hj) as (row & Hrow & Hlen).
    destruct (lookup_lt_is_Some_2 row k) as [s Hs]; [lia|].
    unfold sample, acc, load2. rewrite Hrow. osimpl. rewrite Hs.
    cbn [default fst snd].
    replace (S k - 1) with (S (k - 1)) by lia.
    rewrite (take_S_r _ _ s)
      by (rewrite lookup_drop; replace (1 + (k - 1)) with k by lia; done).
    by rewrite !foldl_snoc.
Qed.

Lemma average_spec ntimes st (F : nat -> triple) :
  (forall j, j < NK -> stats_at st j = Some (F j)) ->
  exists st',
    average cfg ntimes st = Some st' /\
    forall j, j < NK ->
      stats_at st' j =
        Some (ddiv (F j).1.1 (of_int STREAM_double (Z.of_nat ntimes - 1)),
              (F j).1.2, (F j).2).
Proof.
  intros HF. unfold average.
  destruct (stats_loop
    (fun _ v => (ddiv v.1.1 (of_int STREAM_double (Z.of_nat ntimes - 1)),
                 v.1.2, v.2)) NK
    (fun j st =>
       av0 ← avgtime st !! j;
       av ← store (avgtime st) j
              (ddiv av0 (of_int STREAM_double (Z.of_nat ntimes - 1)));
       Some {| avgtime := av; mintime := mintime st; maxtime := maxtime st |})
    st F) as (st' & E & P & _); [| done | by exists st'].
  intros j st0 v Hj Hv. apply stats_at_Some in Hv as (Ha & Hn & Hx).
  rewrite Ha. osimpl. rewrite store_Some by by eapply lookup_lt_Some.
  osimpl. eexists. split; [done|]. split.
  - unfold stats_at. cbn [avgtime mintime maxtime].
    rewrite list_lookup_insert_eq by by eapply lookup_lt_Some.
    by rewrite Hn, Hx.
  - intros j' Hne. unfold stats_at. cbn [avgtime mintime maxtime].
    by rewrite list_lookup_insert_ne by done.
Qed.

(** The summary returns, and for each kernel it is the running sum, the
    running [MIN] from [FLT_MAX] and the running [MAX] from [0.0] of the
    samples of trials [1 .. ntimes-1], the sum divided by [ntimes - 1]. *)
Lemma summary_spec ntimes tbl :
  table_full cfg ntimes tbl ->
  exists st,
    summary cfg ntimes tbl = Some st /\
    forall j row, j < NK -> tbl !! j = Some row ->
      stats_at st j =
        Some (ddiv (foldl dadd c_0 (retained ntimes row))
                   (of_int STREAM_double (Z.of_nat ntimes - 1)),
              foldl (MIN SFltb) FLT_MAX (retained ntimes row),
              foldl (MAX SFltb) c_0 (retained ntimes row)).
Proof.
  intros Hfull. unfold summary.
  destruct reset_statistics_spec as (st0 & -> & P0). osimpl.
  destruct (accumulate_spec ntimes tbl st0 Hfull P0) as (st1 & -> & P1).
  osimpl.
  destruct (average_spec ntimes st1
              (fun j => let l := retained ntimes (default [] (tbl !! j)) in
                        (foldl dadd c_0 l, foldl (MIN SFltb) FLT_MAX l,
                         foldl (MAX SFltb) c_0 l)))
    as (st2 & -> & P2).
  { intros j Hj. destruct (Hfull j Hj) as (row & Hrow & _).
    rewrite (P1 j row Hj Hrow), Hrow. done. }
  exists st2. split; [done|]. intros j row Hj Hrow.
  rewrite (P2 j Hj), Hrow. done.
Qed.

End Summary.

(** ** Order of floating-point values *)

Lemma SFcompare_antisym x y :
  SFcompare y x = CompOpp <$> SFcompare x y.
Proof.
  destruct x as [[]|[]| |[] mx ex], y as [[]|[]| |[] my ey];
    cbn [SFcompare fmap option_fmap option_map CompOpp]; try reflexivity;
    rewrite (Z.compare_antisym ey ex);
    destruct (ey ?= ex)%Z; cbn [CompOpp]; try reflexivity;
    change (Pos.compare_cont Eq) with Pos.compare;
    rewrite (Pos.compare_antisym my mx); by destruct (my ?= mx)%positive.
Qed.


Lemma SFleb_SFltb_false x y : SFleb x y = true -> SFltb y x = false.
Proof.
  unfold SFltb, SFleb. rewrite (SFcompare_antisym x y).
  by destruct (SFcompare x y) as [[]|].
Qed.


Lemma SFleb_not_nan x y :
  SFleb x y = true -> x <> S754_nan /\ y <> S754_nan.
Proof. by destruct x as [[]|[]| |[] mx ex], y as [[]|[]| |[] my ey]. Qed.






Lemma SFeqb_refl x : x <> S754_nan -> SFeqb x x = true.
Proof.
  intros Hx. unfold SFeqb.
  destruct x as [[]|[]| |[] mx ex]; try done; cbn [SFcompare];
    rewrite Z.compare_refl; change (Pos.compare_cont Eq) with Pos.compare;
    by rewrite Pos.compare_refl.
Qed.


(** ** [MIN] and [MAX] over a list of samples *)






Lemma retained_one (row : list spec_float) t :
  row !! 1 = Some t -> retained 2 row = [t].
Proof.
  intros H. unfold retained. destruct row as [|t0 [|t1 row]]; try done.
  injection H as ->. reflexivity.
Qed.

(** ** Division by one, addition of zero *)

Section DivisionByOne.
Local Open Scope Z_scope.

Lemma div_eucl_exact a b q :
  0 < b -> a = b * q -> Z.div_eucl a b = (q, 0).
Proof.
  intros Hb ->. pose proof (Z.div_eucl_eq (b * q) b ltac:(lia)) as H.
  pose proof (Z.mod_pos_bound (b * q) b Hb) as Hm.
  unfold Z.modulo in Hm.
  destruct (Z.div_eucl (b * q) b) as [q' r']. cbn [fst snd] in *.
  assert (r' = 0 /\ q' = q) as [-> ->]; [|done].
  assert (b * (q - q') = r') by lia.
  assert (q - q' = 0) by nia. split; lia.
Qed.

(** [v / 1.0] is [v], for every finite [double] [v]. *)
Lemma SFdiv_one s m e :
  bounded 53 1024 m e = true ->
  SFdiv 53 1024 (S754_finite s m e) (S754_finite false 4503599627370496 (-52))
  = S754_finite s m e.
Proof.
  unfold bounded, canonical_mantissa. intros H.
  apply andb_prop in H as [Hc He].
  apply Z.eqb_eq in Hc. apply Z.leb_le in He.
  unfold fexp, emin in Hc.
  cbn [SFdiv]. unfold SFdiv_core_binary.
  cbn [Zdigits2 digits2_pos].
  set (dg := Z.pos (digits2_pos m)) in *.
  assert (Hd : 0 < dg) by (unfold dg; lia).
  destruct (Z.eq_dec e (-1074)) as [->|Hne].
  - replace (fexp 53 1024 (dg + -1074 - (Z.pos _ + -52))) with (-1074).
    2:{ unfold fexp, emin. cbn. lia. }
    replace (Z.min (-1074) (-1074 - -52)) with (-1074) by lia.
    replace (-1074 - -52 - -1074) with 52 by lia.
    rewrite (div_eucl_exact _ _ (Z.pos m));
      [| lia | rewrite Z.shiftl_mul_pow2 by lia; lia].
    change (new_location 4503599627370496 0) with loc_Exact.
    rewrite xorb_false_r.
    assert (Hf : fexp 53 1024 (dg + -1074) - -1074 = 0)
      by (unfold fexp, emin; lia).
    unfold binary_round_aux, shr_fexp. cbn [Zdigits2]. fold dg.
    rewrite Hf. cbn [shr shr_record_of_loc shr_m loc_of_shr_record
                     round_nearest_even Zdigits2]. fold dg.
    rewrite Hf. cbn [shr shr_record_of_loc shr_m]. reflexivity.
  - assert (dg = 53) as Hd53 by lia.
    replace (fexp 53 1024 (dg + e - (Z.pos _ + -52))) with (e - 1).
    2:{ unfold fexp, emin. cbn. lia. }
    replace (Z.min (e - 1) (e - -52)) with (e - 1) by lia.
    replace (e - -52 - (e - 1)) with 53 by lia.
    rewrite (div_eucl_exact _ _ (Z.pos m~0));
      [| lia | rewrite Z.shiftl_mul_pow2 by lia; lia].
    change (new_location 4503599627370496 0) with loc_Exact.
    rewrite xorb_false_r.
    unfold binary_round_aux, shr_fexp. cbn [Zdigits2 digits2_pos].
    rewrite Pos2Z.inj_succ. fold dg.
    replace (fexp 53 1024 (Z.succ dg + (e - 1)) - (e - 1)) with 1
      by (unfold fexp, emin; lia).
    cbn [shr shr_record_of_loc SpecFloat.iter_pos shr_1 orb shr_m
         loc_of_shr_record round_nearest_even Zdigits2]. fold dg.
    replace (e - 1 + 1) with e by lia.
    replace (fexp 53 1024 (dg + e) - e) with 0 by (unfold fexp, emin; lia).
    cbn [shr shr_record_of_loc shr_m].
    destruct (Z.leb_spec e (1024 - 53)); [reflexivity | lia].
Qed.

End DivisionByOne.

(** One retained sample [t] that is an ordinary elapsed time: the mean
    [(0.0 + t) / 1.0] compares equal to [t], and [MIN(FLT_MAX, t)] and
    [MAX(0.0, t)] are [t]. *)
Lemma single_sample t :
  valid_binary 53 1024 t = true ->
  SFleb c_0 t = true -> SFleb t FLT_MAX = true ->
  SFeqb (ddiv (dadd c_0 t) (of_int STREAM_double 1)) t = true /\
  MIN SFltb FLT_MAX t = t /\ MAX SFltb c_0 t = t.
Proof.
  intros Hv H0 Hmax. split; [|split].
  - destruct t as [[]|[]| |[] m e]; try done.
    change (dadd c_0 (S754_finite false m e)) with (S754_finite false m e).
    change (of_int STREAM_double 1)
      with (S754_finite false 4503599627370496 (-52)%Z).
    unfold ddiv, fdiv. cbn [prec_of emax_of]. rewrite SFdiv_one by done.
    by apply SFeqb_refl.
  - unfold MIN. by rewrite (SFleb_SFltb_false t FLT_MAX).
  - unfold MAX. by rewrite (SFleb_SFltb_false c_0 t).
Qed.

(** ** The calibrator *)

Section Calibrator.
Variable cfg : config.
Variable env : environment.
Local Abbreviation now := (mysecond cfg env).

Lemma spin_inv fuel t1 n t2 n' :
  spin cfg env fuel t1 n = Some (t2, n') ->
  n < n' <= n + fuel /\ t2 = now (n' - 1) /\
  SFltb (dsub t2 t1) c_1Em6 = false /\
  forall r, n <= r < n' - 1 -> SFltb (dsub (now r) t1) c_1Em6 = true.
Proof.
  revert n. induction fuel as [|fuel IH]; intros n; [done|].
  cbn [spin]. destruct (SFltb (dsub (now n) t1) c_1Em6) eqn:E.
  - intros H. destruct (IH _ H) as (Hn & Ht & Hlt & Hbefore).
    split; [lia|]. split; [done|]. split; [done|].
    intros r Hr. destruct (decide (r = n)) as [->|Hne]; [done|].
    apply Hbefore. lia.
  - intros [= <- <-]. replace (S n - 1) with n by lia.
    split; [lia|]. split; [done|]. split; [done|]. intros; lia.
Qed.

Lemma spin_Some fuel t1 n :
  (exists r, n <= r < n + fuel /\ SFltb (dsub (now r) t1) c_1Em6 = false) ->
  is_Some (spin cfg env fuel t1 n).
Proof.
  revert n. induction fuel as [|fuel IH]; intros n (r & Hr & E); [lia|].
  cbn [spin]. destruct (SFltb (dsub (now n) t1) c_1Em6) eqn:En; [|by eexists].
  apply IH. exists r. split; [|done].
  destruct (decide (r = n)) as [->|Hne]; [congruence | lia].
Qed.

Lemma ticks_snoc n ts p q :
  ticks cfg env n ts p -> tick cfg env p q ->
  ticks cfg env n (ts ++ [now q]) (S q).
Proof.
  induction 1 as [n|p0 q0 ts n' Ht Hts IH]; intros Hq.
  - apply ticks_cons; [done | apply ticks_nil].
  - cbn [app]. apply ticks_cons; [done | by apply IH].
Qed.


(** The first loop: [M] busy-waits, one after the other. *)
Lemma collect_inv fuel n timesfound n' :
  collect cfg env fuel n = Some (timesfound, n') ->
  length timesfound = M /\ ticks cfg env n timesfound n'.
Proof.
  intros H. unfold collect in H.
  apply (for_loop_post (fun k (st : list spec_float * nat) =>
           length st.1 = M /\ ticks cfg env n (take k st.1) st.2)) in H.
  - destruct H as [Hlen Ht]. cbn [fst snd] in *. split; [done|].
    by rewrite take_ge in Ht by lia.
  - cbn [fst snd]. split; [apply length_replicate | apply ticks_nil].
  - intros k [tf nk] st' Hk [Hlen Ht]. cbn [fst snd] in *.
    destruct (spin cfg env fuel (now nk) (S nk)) as [[t2 n2]|] eqn:Es; [|done].
    osimpl. rewrite store_Some by lia. osimpl. intros [= <-]. cbn [fst snd].
    rewrite length_insert. split; [done|].
    rewrite (take_S_r _ _ t2) by (apply list_lookup_insert_eq; lia).
    rewrite take_insert_ge by lia.
    destruct (spin_inv _ _ _ _ _ Es) as (Hn & -> & Hlt & Hbefore).
    replace n2 with (S (n2 - 1)) at 2 by lia.
    apply (ticks_snoc _ _ nk); [done|]. split; [lia|]. split; [done|].
    intros r Hr. apply Hbefore. lia.
Qed.

Lemma collect_Some fuel n :
  (forall p, n <= p < n + M * S fuel ->
     exists r, p < r <= p + fuel /\
       SFltb (dsub (now r) (now p)) c_1Em6 = false) ->
  is_Some (collect cfg env fuel n).
Proof.
  intros Hadv. unfold collect.
  destruct (for_loop_inv (fun k (st : list spec_float * nat) =>
              length st.1 = M /\ n <= st.2 <= n + k * S fuel) M
      (fun i st =>
         let t1 := now st.2 in
         tn ← spin cfg env fuel t1 (S st.2);
         timesfound ← store st.1 i tn.1;
         Some (timesfound, tn.2)) (replicate M c_0, n))
    as (st & E & _); [| | exists st; exact E].
  - cbn [fst snd]. split; [apply length_replicate | lia].
  - intros k [tf nk] Hk [Hlen Hnk]. cbn [fst snd] in *.
    destruct (spin_Some fuel (now nk) (S nk)) as [[t2 n2] Es].
    { destruct (Hadv nk) as (r & Hr & E); [nia|]. exists r. split; [lia|done]. }
    destruct (spin_inv _ _ _ _ _ Es) as (Hn & _).
    rewrite Es. osimpl. rewrite store_Some by lia. osimpl.
    eexists. split; [done|]. cbn [fst snd]. rewrite length_insert.
    split; [done | nia].
Qed.

Lemma MIN_Z (u v : Z) : MIN Z.ltb u v = Z.min u v.
Proof. unfold MIN. destruct (Z.ltb_spec u v); lia. Qed.

Lemma MAX_Z (u v : Z) : MAX Z.ltb u v = Z.max u v.
Proof. unfold MAX. destruct (Z.ltb_spec v u); lia. Qed.

(** The second loop: the least of [1000000] and the clamped differences. *)
Lemma min_delta_inv timesfound q :
  min_delta timesfound = Some q ->
  (0 <= q <= 1000000)%Z /\
  (forall k, 1 <= k < M ->
     exists D, Delta timesfound k = Some D /\ (q <= Z.max D 0)%Z) /\
  (q = 1000000%Z \/
   exists k D, 1 <= k < M /\ Delta timesfound k = Some D /\ q = Z.max D 0).
Proof.
  intros H. unfold min_delta in H.
  apply (for_range_post (fun n (md : Z) =>
    (0 <= md <= 1000000)%Z /\
    (forall k, 1 <= k < n ->
       exists D, Delta timesfound k = Some D /\ (md <= Z.max D 0)%Z) /\
    (md = 1000000%Z \/
     exists k D, 1 <= k < n /\ Delta timesfound k = Some D /\
                 md = Z.max D 0))) in H; [done | unfold M; lia | |].
  - split; [lia|]. split; [intros; lia | by left].
  - intros k md md' Hk (Hrange & Hall & Hex) Hbody.
    assert (exists D, Delta timesfound k = Some D /\
                      md' = Z.min md (Z.max D 0)) as (D & ED & ->).
    { unfold Delta. destruct (timesfound !! k) as [t|]; [|done]. osimpl in *.
      destruct (timesfound !! (k - 1)) as [t'|]; [|done]. osimpl in *.
      destruct (double_to_int (dmul c_1E6 (dsub t t'))) as [D|]; [|done].
      osimpl in Hbody. exists D. split; [done|].
      rewrite MAX_Z, MIN_Z in Hbody. congruence. }
    split; [lia|]. split.
    + intros k' Hk'. destruct (decide (k' = k)) as [->|Hne].
      * exists D. split; [done | lia].
      * destruct (Hall k') as (D' & HD' & Hle); [lia|].
        exists D'. split; [done | lia].
    + destruct (Z.min_spec md (Z.max D 0)) as [[_ ->]|[_ ->]].
      * destruct Hex as [->|(k' & D' & Hk' & HD' & ->)]; [by left|].
        right. exists k', D'. split; [lia | done].
      * right. exists k, D. split; [lia | done].
Qed.





Lemma min_delta_body timesfound :
  min_delta timesfound =
    for_range 1 M (fun i minDelta =>
      D ← Delta timesfound i;
      Some (MIN Z.ltb minDelta (MAX Z.ltb D 0%Z))) 1000000%Z.
Proof.
  unfold min_delta. apply for_range_ext. intros j t _. unfold Delta.
  destruct (timesfound !! j); [|done]. simpl.
  by destruct (timesfound !! (j - 1)).
Qed.

Lemma min_delta_None timesfound k :
  1 <= k < M -> Delta timesfound k = None -> min_delta timesfound = None.
Proof.
  intros Hk E. rewrite min_delta_body.
  apply (for_range_fail _ _ _ _ k); [done|]. intros t. by rewrite E.
Qed.

Lemma min_delta_Some timesfound :
  (forall k, 1 <= k < M -> is_Some (Delta timesfound k)) ->
  is_Some (min_delta timesfound).
Proof.
  intros Hall. rewrite min_delta_body.
  destruct (for_range_inv (fun _ _ => True) 1 M
              (fun i minDelta =>
                 D ← Delta timesfound i;
                 Some (MIN Z.ltb minDelta (MAX Z.ltb D 0%Z))) 1000000%Z)
    as (q & E & _); [unfold M; lia | done | | by exists q].
  intros j t Hj _. destruct (Hall j Hj) as [D ->]. by eexists.
Qed.

(** The second loop on the stamps of the first. *)
Lemma collect_calibrated fuel n timesfound n' :
  collect cfg env fuel n = Some (timesfound, n') ->
  calibrated timesfound n' (checktick cfg env fuel n).
Proof.
  intros E. unfold checktick. rewrite E. split.
  - intros (k & Hk & EN). by rewrite (min_delta_None _ k Hk EN).
  - intros Hall. destruct (min_delta_Some _ Hall) as [q Em]. rewrite Em.
    exists q. split; [done|]. by apply min_delta_inv.
Qed.

Lemma spin_more_fuel fuel fuel' t1 n r :
  fuel <= fuel' -> spin cfg env fuel t1 n = Some r ->
  spin cfg env fuel' t1 n = Some r.
Proof.
  revert fuel' n. induction fuel as [|fuel IH]; intros fuel' n Hle H; [done|].
  destruct fuel' as [|fuel']; [lia|]. cbn [spin] in *.
  destruct (SFltb _ _); [|done]. apply IH; [lia | done].
Qed.

Lemma collect_more_fuel fuel fuel' n r :
  fuel <= fuel' -> collect cfg env fuel n = Some r ->
  collect cfg env fuel' n = Some r.
Proof.
  intros Hle. unfold collect. apply for_loop_mono.
  intros j [tf' p] t' _ Hstep. osimpl in *.
  destruct (spin cfg env fuel _ _) as [tn|] eqn:Es; [|done].
  by rewrite (spin_more_fuel _ _ _ _ _ Hle Es).
Qed.

End Calibrator.

(** ** The validator returns; [main] returns *)

Section Whole.
Variable cfg : config.
Local Abbreviation N := (STREAM_ARRAY_SIZE cfg).
Local Abbreviation MI := (STREAM_INDEX_ARRAY_SIZE cfg).
Local Abbreviation ty := (stream_type cfg).











End Whole.



(** * The claims *)

(** ** Facts about the concrete states *)

Lemma well_configured_demo : well_configured cfg_demo env_demo.
Proof.
  intros _. split.
  - unfold config_ok, INT_MAX. cbn. lia.
  - intros _ n. unfold INT_MAX. cbn [rand env_demo].
    pose proof (Z.mod_pos_bound (Z.of_nat n * 1103515245 + 12345) (2 ^ 31)).
    lia.
Defined.

Lemma sized_demo : sized cfg_demo mem_demo.
Proof. unfold sized. cbn. lia. Defined.

Lemma in_bounds_demo : in_bounds cfg_demo mem_demo.
Proof.
  intros j z Hj H. cbn in Hj.
  do 4 (destruct j as [|j]; [injection H as <-; cbn; lia|]). lia.
Defined.

Lemma table_ready_demo : table_ready cfg_demo 0 (times run_demo).
Proof.
  intros l Hl. cbn in Hl. exists (replicate 2 c_0).
  split; [|cbn; lia].
  do 7 (destruct l as [|l]; [reflexivity|]). lia.
Defined.

(** ** C1 *)

(** C1.  For every trial count [ntimes]: set-up (seeds [a = 1.0],
    [b = 2.0], [c = 0.0]), the warm-up doubling of [a] and [ntimes] trials,
    executed sequentially, return, and leave every element of [a], [b] and
    [c] equal to the scalars [aj], [bj], [cj] that [checkSTREAMresults]
    computes; and those scalars are the design document's recurrence
    [c = a; b = 3*c; c = a+b; a = b+3*c] applied [ntimes] times to
    [(2.0, 2.0, 0.0)]. *)
Theorem validator_refines_trial_loop cfg env ntimes r :
  well_configured cfg env ->
  exists m0 m1 s,
    setup cfg env = Some m0 /\
    warm_up cfg m0 = Some m1 /\
    main_loop cfg env ntimes (entry cfg ntimes m1 r) = Some s /\
    let v := expected_values cfg ntimes in
    uniform cfg (aj v) (bj v) (cj v) (mem s) /\
    (aj v, bj v, cj v) =
      Nat.iter ntimes (spec_recurrence (stream_type cfg))
        (spec_start (stream_type cfg)).
Proof.
  intros Hwf.
  destruct (run_agrees cfg env ntimes r Hwf)
    as (m0 & m1 & s & E0 & E1 & Es & _ & _ & _ & Hu & _).
  exists m0, m1, s. split; [done|]. split; [done|]. split; [done|].
  split; [exact Hu | apply expected_values_recurrence].
Qed.

Lemma validator_refines_trial_loop_witness :
  well_configured cfg_demo env_demo /\
  exists m0 m1 s,
    setup cfg_demo env_demo = Some m0 /\
    warm_up cfg_demo m0 = Some m1 /\
    main_loop cfg_demo env_demo 5 (entry cfg_demo 5 m1 42) = Some s /\
    let v := expected_values cfg_demo 5 in
    uniform cfg_demo (aj v) (bj v) (cj v) (mem s) /\
    (aj v, bj v, cj v) =
      Nat.iter 5 (spec_recurrence (stream_type cfg_demo))
        (spec_start (stream_type cfg_demo)).
Proof.
  split; [exact well_configured_demo|].
  exact (validator_refines_trial_loop cfg_demo env_demo 5 42
           well_configured_demo).
Defined.

(** ** C2 *)

(** C2.  A trial returns and runs Copy, Scale, Add and Triad in this
    order, each over every [j < STREAM_ARRAY_SIZE] ([c[j] = a[j]],
    [b[j] = scalar*c[j]], [c[j] = a[j]+b[j]], [a[j] = b[j]+scalar*c[j]]),
    then the enabled ones of Gather, Scatter and Indirect dot product in
    this order, and nothing else touches the arrays; the main loop is this
    trial with [scalar = 3.0], once per [k]. *)
Theorem trial_runs_kernels_in_order cfg env k s :
  sized cfg (mem s) -> in_bounds cfg (mem s) ->
  table_ready cfg k (times s) ->
  let ty := stream_type cfg in
  let scalar := of_double ty c_3 in
  (exists m1 m2 m3 m4 s',
     STREAM_Copy cfg (mem s) = Some m1 /\
     STREAM_Scale cfg scalar m1 = Some m2 /\
     STREAM_Add cfg m2 = Some m3 /\
     STREAM_Triad cfg scalar m3 = Some m4 /\
     optional_kernels cfg m4 = Some (mem s') /\
     trial cfg env scalar k s = Some s' /\
     forall j, j < STREAM_ARRAY_SIZE cfg ->
       c m1 !! j = a (mem s) !! j /\
       b m2 !! j = fmul ty scalar <$> c m1 !! j /\
       c m3 !! j = (u ← a m2 !! j; v ← b m2 !! j; Some (fadd ty u v)) /\
       a m4 !! j = (u ← b m3 !! j; v ← c m3 !! j;
                    Some (fadd ty u (fmul ty scalar v)))) /\
  (forall n s0,
     main_loop cfg env (S n) s0 =
     main_loop cfg env n s0 ≫= trial cfg env scalar n).
Proof.
  intros Hsz Hib Hready ty scalar. split.
  - pose proof Hsz as (Ha & Hb & Hc & Hdi & He).
    destruct (mandatory_kernels cfg scalar (mem s) Ha Hb Hc)
      as (c1 & b2 & c3 & a4 & E1 & E2 & E3 & E4 & L1 & L2 & L3 & L4
          & P1 & P2 & P3 & P4).
    set (m4 := set_a a4 (set_c c3 (set_b b2 (set_c c1 (mem s))))) in *.
    assert (Hlay : same_layout (mem s) m4) by (unfold m4; by repeat split).
    destruct (optional_kernels_spec cfg m4) as (m' & Eo & _);
      [by apply (sized_layout cfg (mem s))
      | by apply (in_bounds_layout cfg (mem s)) |].
    pose proof (trial_mem cfg env scalar k s Hready) as Ht.
    rewrite trial_kernels_split, E1 in Ht. osimpl in Ht.
    rewrite E2 in Ht. osimpl in Ht. rewrite E3 in Ht. osimpl in Ht.
    rewrite E4 in Ht. osimpl in Ht. fold m4 in Ht. rewrite Eo in Ht.
    destruct Ht as (s' & Es & <- & _).
    eexists _, _, _, m4, s'. do 4 (split; [eassumption|]).
    split; [done|]. split; [done|]. intros j Hj. osimpl.
    split; [by apply P1|]. split; [by apply P2|].
    split; [by apply P3 | by apply P4].
  - intros n s0. unfold main_loop. apply for_loop_S.
Qed.

Lemma trial_runs_kernels_in_order_witness :
  sized cfg_demo (mem run_demo) /\ in_bounds cfg_demo (mem run_demo) /\
  table_ready cfg_demo 0 (times run_demo) /\
  let ty := stream_type cfg_demo in
  let scalar := of_double ty c_3 in
  (exists m1 m2 m3 m4 s',
     STREAM_Copy cfg_demo (mem run_demo) = Some m1 /\
     STREAM_Scale cfg_demo scalar m1 = Some m2 /\
     STREAM_Add cfg_demo m2 = Some m3 /\
     STREAM_Triad cfg_demo scalar m3 = Some m4 /\
     optional_kernels cfg_demo m4 = Some (mem s') /\
     trial cfg_demo env_demo scalar 0 run_demo = Some s' /\
     forall j, j < STREAM_ARRAY_SIZE cfg_demo ->
       c m1 !! j = a (mem run_demo) !! j /\
       b m2 !! j = fmul ty scalar <$> c m1 !! j /\
       c m3 !! j = (u ← a m2 !! j; v ← b m2 !! j; Some (fadd ty u v)) /\
       a m4 !! j = (u ← b m3 !! j; v ← c m3 !! j;
                    Some (fadd ty u (fmul ty scalar v)))) /\
  (forall n s0,
     main_loop cfg_demo env_demo (S n) s0 =
     main_loop cfg_demo env_demo n s0 ≫= trial cfg_demo env_demo scalar n).
Proof.
  split; [exact sized_demo|]. split; [exact in_bounds_demo|].
  split; [exact table_ready_demo|].
  exact (trial_runs_kernels_in_order cfg_demo env_demo 0 run_demo
           sized_demo in_bounds_demo table_ready_demo).
Defined.

(** ** C7 *)

(** C7.  In a build with gather and scatter, Gather followed by Scatter
    returns, and for every [j < STREAM_INDEX_ARRAY_SIZE] the element of
    [e] that [i[j]] names equals [d[j]], which equals the element of [a]
    that [i[j]] names, as [a] was when Gather ran; the index array may hold
    duplicates.  The optional kernels of a trial leave [d] and [e] so. *)
Theorem gather_scatter_roundtrip cfg m :
  sized cfg m -> in_bounds cfg m ->
  ENABLE_GATHER cfg = true -> ENABLE_SCATTER cfg = true ->
  exists m1 m2 m',
    STREAM_Gather cfg m = Some m1 /\
    STREAM_Scatter cfg m1 = Some m2 /\
    optional_kernels cfg m = Some m' /\
    d m' = d m2 /\ e m' = e m2 /\ a m' = a m /\
    forall j, j < STREAM_INDEX_ARRAY_SIZE cfg ->
      exists n v,
        i m !! j = Some (Z.of_nat n) /\ i m2 !! j = Some (Z.of_nat n) /\
        a m !! n = Some v /\ d m2 !! j = Some v /\ e m2 !! n = Some v.
Proof.
  intros (Ha & Hb & Hc & Hdi & He) Hib G Sc.
  destruct (Hdi (ENABLE_GATHER_indexed cfg G)) as [Hd Hi].
  specialize (He Sc).
  destruct (STREAM_Gather_spec cfg m Ha Hd Hi Hib) as (d1 & E1 & L1 & P1 & _).
  destruct (STREAM_Scatter_spec cfg (fun n => default c_0 (a m !! n))
              (set_d d1 m)) as (e2 & E2 & L2 & P2 & _);
    [osimpl; lia.. | done | |].
  { intros j n Hj Hn. osimpl in *. rewrite (P1 j n Hj Hn).
    destruct (in_bounds_read cfg m j Hib Hi Hj) as (n' & Hn' & Hlt).
    assert (n' = n) as -> by (rewrite Hn in Hn'; injection Hn'; lia).
    destruct (lookup_lt_is_Some_2 (a m) n) as [v ->]; [lia | done]. }
  assert (exists x', optional_kernels cfg m = Some (set_x x' (set_e e2 (set_d d1 m))))
    as [x' Eo].
  { unfold optional_kernels. rewrite G, Sc, E1. osimpl. rewrite E2. osimpl.
    destruct (ENABLE_INDIRECT_DOT_PRODUCT cfg) eqn:Dt.
    - destruct (STREAM_Indirect_dot_spec cfg
                  (set_x (of_double (stream_type cfg) c_0)
                     (set_e e2 (set_d d1 m)))) as (x' & ->);
        [osimpl; lia.. | done |]. by exists x'.
    - exists (x m). by destruct m. }
  eexists _, _, _. split; [exact E1|]. split; [exact E2|].
  split; [exact Eo|]. do 3 (split; [done|]).
  intros j Hj. osimpl.
  destruct (in_bounds_read cfg m j Hib Hi Hj) as (n & Hn & Hlt).
  destruct (lookup_lt_is_Some_2 (a m) n) as [v Hv]; [lia|].
  exists n, v. split; [done|]. split; [done|]. split; [done|].
  split; [by rewrite (P1 j n Hj Hn)|].
  osimpl in P2. rewrite (P2 j n Hj Hn), Hv. done.
Qed.

Lemma gather_scatter_roundtrip_witness :
  sized cfg_demo mem_demo /\ in_bounds cfg_demo mem_demo /\
  ENABLE_GATHER cfg_demo = true /\ ENABLE_SCATTER cfg_demo = true /\
  exists m1 m2 m',
    STREAM_Gather cfg_demo mem_demo = Some m1 /\
    STREAM_Scatter cfg_demo m1 = Some m2 /\
    optional_kernels cfg_demo mem_demo = Some m' /\
    d m' = d m2 /\ e m' = e m2 /\ a m' = a mem_demo /\
    forall j, j < STREAM_INDEX_ARRAY_SIZE cfg_demo ->
      exists n v,
        i mem_demo !! j = Some (Z.of_nat n) /\ i m2 !! j = Some (Z.of_nat n) /\
        a mem_demo !! n = Some v /\ d m2 !! j = Some v /\ e m2 !! n = Some v.
Proof.
  split; [exact sized_demo|]. split; [exact in_bounds_demo|].
  split; [reflexivity|]. split; [reflexivity|].
  exact (gather_scatter_roundtrip cfg_demo mem_demo sized_demo in_bounds_demo
           eq_refl eq_refl).
Defined.

(** ** C9 *)



Lemma to_int_wraps z : (2 ^ 31 <= z < 2 ^ 32)%Z -> to_int z = (z - 2 ^ 32)%Z.
Proof.
  intros H. unfold to_int.
  replace (z + 2 ^ 31)%Z with (z - 2 ^ 31 + 1 * 2 ^ 32)%Z by lia.
  rewrite Z_mod_plus_full, Z.mod_small by lia. lia.
Qed.

Lemma init_i_wide cfg m :
  0 < STREAM_ARRAY_SIZE cfg ->
  (Z.of_nat (STREAM_ARRAY_SIZE cfg) <= INT_MAX)%Z ->
  STREAM_INDEX_ARRAY_SIZE cfg <= length (i m) ->
  exists i',
    init_i cfg m = Some (set_i i' m) /\ length i' = length (i m) /\
    (forall j, j < STREAM_INDEX_ARRAY_SIZE cfg ->
       i' !! j = Some (Z.of_nat (j mod STREAM_ARRAY_SIZE cfg))).
Proof.
  intros HN HNmax Hi. unfold init_i.
  destruct (assign_loop i set_i
              (fun j _ => Some (Z.of_nat (j mod STREAM_ARRAY_SIZE cfg)))
              ltac:(done) ltac:(done) ltac:(by intros []) ltac:(done)
              (STREAM_INDEX_ARRAY_SIZE cfg) m)
    as (i' & Hrun & Hlen & Hlo & _); [done | by eexists |].
  exists i'. split; [|done]. rewrite <- Hrun. apply for_loop_ext.
  intros j t _. unfold assign_body. rewrite decide_False by lia. osimpl.
  rewrite Z.rem_mod_nonneg, <- Nat2Z.inj_mod by lia.
  rewrite to_int_small; [done|].
  pose proof (Nat.mod_upper_bound j (STREAM_ARRAY_SIZE cfg) ltac:(lia)).
  unfold INT_MIN, INT_MAX in *. lia.
Qed.

(** Above [INT_MAX] elements.  The loop index [j] of the shuffle is an
    [ssize_t], the swap position [k] an [int]: from iteration [j = 2^31]
    on, [int k = j + rand() % (STREAM_INDEX_ARRAY_SIZE - j)] converts a
    value that does not fit, [k] is negative and [i[k]] lies before the
    array. *)

(** From iteration [j = 2^31] on, [int k = j + rand() % (... - j)] is the
    conversion of a value that does not fit [int]. *)
Lemma shuffle_k_negative cfg env j :
  (2 ^ 31 + 2 < Z.of_nat (STREAM_INDEX_ARRAY_SIZE cfg) <= 2 ^ 32)%Z ->
  (2 ^ 31 <= Z.of_nat j)%Z -> j < STREAM_INDEX_ARRAY_SIZE cfg - 2 ->
  (0 <= rand env j)%Z ->
  (to_int (Z.of_nat j +
           Z.rem (rand env j)
             (Z.of_nat (STREAM_INDEX_ARRAY_SIZE cfg) - Z.of_nat j)) < 0)%Z.
Proof.
  intros HM Hj Hlt Hr.
  pose proof (Z.rem_bound_pos (rand env j)
                (Z.of_nat (STREAM_INDEX_ARRAY_SIZE cfg) - Z.of_nat j)
                Hr ltac:(lia)) as Hrem.
  rewrite to_int_wraps by lia. lia.
Qed.

Lemma permute_i_wraps cfg env m :
  (2 ^ 31 + 2 < Z.of_nat (STREAM_INDEX_ARRAY_SIZE cfg) <= 2 ^ 32)%Z ->
  (forall n, 0 <= rand env n)%Z ->
  permute_i cfg env m = None.
Proof.
  intros HM Hr. unfold permute_i.
  assert (exists j, Z.of_nat j = (2 ^ 31)%Z) as [j Hj]
    by (exists (Z.to_nat (2 ^ 31)); lia).
  apply (for_loop_fail _ _ _ j); [lia|]. intros t. cbv zeta.
  destruct (i t !! j) as [tmp|]; [|done]. osimpl.
  pose proof (shuffle_k_negative cfg env j HM ltac:(lia) ltac:(lia) (Hr j))
    as Hk.
  unfold subscript.
  destruct (Z.leb_spec 0
              (to_int (Z.of_nat j +
                       Z.rem (rand env j)
                         (Z.of_nat (STREAM_INDEX_ARRAY_SIZE cfg)
                          - Z.of_nat j)))) as [Hge|Hlt]; [lia | done].
Qed.

Lemma setup_shuffle_undefined cfg env :
  indexed cfg = true -> PERMUTE_INDEX_ARRAY cfg = true ->
  0 < STREAM_ARRAY_SIZE cfg ->
  (Z.of_nat (STREAM_ARRAY_SIZE cfg) <= INT_MAX)%Z ->
  (2 ^ 31 + 2 < Z.of_nat (STREAM_INDEX_ARRAY_SIZE cfg) <= 2 ^ 32)%Z ->
  (forall n, 0 <= rand env n)%Z ->
  exists m1 m2 m3,
    init_abc cfg (static_memory cfg) = Some m1 /\
    init_d cfg m1 = Some m2 /\
    init_i cfg m2 = Some m3 /\
    (forall j, j < STREAM_INDEX_ARRAY_SIZE cfg ->
       i m3 !! j = Some (Z.of_nat (j mod STREAM_ARRAY_SIZE cfg))) /\
    permute_i cfg env m3 = None /\
    setup cfg env = None.
Proof.
  intros Ix Pm HN HNmax HM Hr.
  pose proof (static_memory_sized cfg) as (Ha & Hb & Hc & Hdi & _).
  destruct (Hdi Ix) as [Hd Hi].
  destruct (init_abc_spec cfg (static_memory cfg) Ha Hb Hc)
    as (a' & b' & c' & E1 & _).
  set (m1 := set_c c' (set_b b' (set_a a' (static_memory cfg)))) in *.
  destruct (init_d_spec cfg m1 Hd) as (d' & E2 & Ld & _).
  destruct (init_i_wide cfg (set_d d' m1) HN HNmax Hi) as (i' & E3 & _ & Pi).
  pose proof (permute_i_wraps cfg env (set_i i' (set_d d' m1)) HM Hr) as E4.
  eexists _, _, _. split; [exact E1|]. split; [exact E2|].
  split; [exact E3|]. split; [exact Pi|]. split; [exact E4|].
  unfold setup. rewrite E1. osimpl. rewrite Ix, E2. osimpl.
  rewrite E3. osimpl. rewrite Pm, E4. done.
Qed.

(** C9, in a build with an index array of [2^31 + 3] elements, ten million
    data elements and the shuffle: the set-up fills the index array with
    [i[j] = j mod STREAM_ARRAY_SIZE]; in the shuffle, at iteration
    [j = 2^31], the swap position [k] is negative after its conversion to
    [int] for the value that [rand()] returns there; the access [i[k]]
    leaves the array and the set-up has no defined result. *)
Theorem shuffle_index_overflows_int :
  Z.of_nat (STREAM_INDEX_ARRAY_SIZE cfg_huge) = (2 ^ 31 + 3)%Z /\
  Z.of_nat (STREAM_ARRAY_SIZE cfg_huge) = 10000000%Z /\
  (forall n, 0 <= rand env_demo n <= INT_MAX)%Z /\
  (exists j,
     Z.of_nat j = (2 ^ 31)%Z /\ j < STREAM_INDEX_ARRAY_SIZE cfg_huge - 2 /\
     (to_int (Z.of_nat j +
              Z.rem (rand env_demo j)
                (Z.of_nat (STREAM_INDEX_ARRAY_SIZE cfg_huge) - Z.of_nat j))
      < 0)%Z) /\
  exists m1 m2 m3,
    init_abc cfg_huge (static_memory cfg_huge) = Some m1 /\
    init_d cfg_huge m1 = Some m2 /\
    init_i cfg_huge m2 = Some m3 /\
    (forall j, j < STREAM_INDEX_ARRAY_SIZE cfg_huge ->
       i m3 !! j = Some (Z.of_nat (j mod STREAM_ARRAY_SIZE cfg_huge))) /\
    permute_i cfg_huge env_demo m3 = None /\
    setup cfg_huge env_demo = None.
Proof.
  assert (HM : Z.of_nat (STREAM_INDEX_ARRAY_SIZE cfg_huge) = (2 ^ 31 + 3)%Z)
    by (unfold cfg_huge; cbn [STREAM_INDEX_ARRAY_SIZE]; by apply Z2Nat.id).
  assert (HN : Z.of_nat (STREAM_ARRAY_SIZE cfg_huge) = 10000000%Z)
    by (unfold cfg_huge; cbn [STREAM_ARRAY_SIZE]; by apply Z2Nat.id).
  destruct (well_configured_demo eq_refl) as [_ Hr]. specialize (Hr eq_refl).
  assert (Ix : indexed cfg_huge = true) by reflexivity.
  assert (Pm : PERMUTE_INDEX_ARRAY cfg_huge = true) by reflexivity.
  generalize dependent cfg_huge. intros cfg HM HN Ix Pm.
  split; [exact HM|]. split; [exact HN|]. split; [exact Hr|]. split.
  - assert (exists j, Z.of_nat j = (2 ^ 31)%Z) as [j Hj]
      by (exists (Z.to_nat (2 ^ 31)); by apply Z2Nat.id).
    exists j. split; [exact Hj|]. split; [lia|].
    apply shuffle_k_negative; [lia | lia | lia | apply Hr].
  - apply setup_shuffle_undefined; [exact Ix | exact Pm | lia
                                     | unfold INT_MAX; lia | lia
                                     | intros n; apply Hr].
Qed.

(** ** C10 *)

(** C10.  On arrays of sufficient length with an index array in bounds,
    every kernel returns and changes at most its output: Copy and Add only
    [c], Scale only [b], Triad only [a], Gather only [d], Scatter only [e],
    the indirect dot product only [x]; none changes the index array. *)
Theorem kernels_write_only_their_output cfg scalar m :
  sized cfg m -> in_bounds cfg m ->
  (exists m', STREAM_Copy cfg m = Some m' /\ only_c_differs m m') /\
  (exists m', STREAM_Scale cfg scalar m = Some m' /\ only_b_differs m m') /\
  (exists m', STREAM_Add cfg m = Some m' /\ only_c_differs m m') /\
  (exists m', STREAM_Triad cfg scalar m = Some m' /\ only_a_differs m m') /\
  (ENABLE_GATHER cfg = true ->
     exists m', STREAM_Gather cfg m = Some m' /\ only_d_differs m m') /\
  (ENABLE_SCATTER cfg = true ->
     exists m', STREAM_Scatter cfg m = Some m' /\ only_e_differs m m') /\
  (ENABLE_INDIRECT_DOT_PRODUCT cfg = true ->
     exists m', STREAM_Indirect_dot cfg m = Some m' /\ only_x_differs m m').
Proof.
  intros (Ha & Hb & Hc & Hdi & He) Hib.
  split; [|split; [|split; [|split; [|split; [|split]]]]].
  - destruct (STREAM_Copy_spec cfg m Ha Hc) as (c' & E & _).
    exists (set_c c' m). split; [done|]. by repeat split.
  - destruct (STREAM_Scale_spec cfg scalar m Hb Hc) as (b' & E & _).
    exists (set_b b' m). split; [done|]. by repeat split.
  - destruct (STREAM_Add_spec cfg m Ha Hb Hc) as (c' & E & _).
    exists (set_c c' m). split; [done|]. by repeat split.
  - destruct (STREAM_Triad_spec cfg scalar m Ha Hb Hc) as (a' & E & _).
    exists (set_a a' m). split; [done|]. by repeat split.
  - intros G. destruct (Hdi (ENABLE_GATHER_indexed cfg G)) as [Hd Hi].
    destruct (STREAM_Gather_spec cfg m Ha Hd Hi Hib) as (d' & E & _).
    exists (set_d d' m). split; [done|]. by repeat split.
  - intros Sc. destruct (Hdi (ENABLE_SCATTER_indexed cfg Sc)) as [Hd Hi].
    destruct (STREAM_Scatter_frame cfg m (He Sc) Hd Hi Hib) as (e' & E & _).
    exists (set_e e' m). split; [done|]. by repeat split.
  - intros Dt. destruct (Hdi (ENABLE_INDIRECT_indexed cfg Dt)) as [Hd Hi].
    destruct (STREAM_Indirect_dot_spec cfg m Hb Hd Hi Hib) as (x' & E).
    exists (set_x x' m). split; [done|]. by repeat split.
Qed.

Lemma kernels_write_only_their_output_witness :
  sized cfg_demo mem_demo /\ in_bounds cfg_demo mem_demo /\
  (exists m', STREAM_Copy cfg_demo mem_demo = Some m' /\
              only_c_differs mem_demo m') /\
  (exists m', STREAM_Scale cfg_demo c_3 mem_demo = Some m' /\
              only_b_differs mem_demo m') /\
  (exists m', STREAM_Add cfg_demo mem_demo = Some m' /\
              only_c_differs mem_demo m') /\
  (exists m', STREAM_Triad cfg_demo c_3 mem_demo = Some m' /\
              only_a_differs mem_demo m') /\
  (ENABLE_GATHER cfg_demo = true ->
     exists m', STREAM_Gather cfg_demo mem_demo = Some m' /\
                only_d_differs mem_demo m') /\
  (ENABLE_SCATTER cfg_demo = true ->
     exists m', STREAM_Scatter cfg_demo mem_demo = Some m' /\
                only_e_differs mem_demo m') /\
  (ENABLE_INDIRECT_DOT_PRODUCT cfg_demo = true ->
     exists m', STREAM_Indirect_dot cfg_demo mem_demo = Some m' /\
                only_x_differs mem_demo m').
Proof.
  split; [exact sized_demo|]. split; [exact in_bounds_demo|].
  exact (kernels_write_only_their_output cfg_demo c_3 mem_demo
           sized_demo in_bounds_demo).
Defined.

(** ** C6 *)

(** A difference of consecutive time stamps that does not fit [int]: the
    clock is set forward by 3000 seconds while [checktick] collects its
    stamps; stamps 4 and 5 are 9 s and 3011 s, their difference is
    3002000000 microseconds, above [INT_MAX], and [checktick] has no
    defined result, whatever the fuel. *)
Lemma clock_set_forward_undefined :
  exists timesfound n',
    collect cfg_demo env_jump 1 0 = Some (timesfound, n') /\
    ticks cfg_demo env_jump 0 timesfound n' /\
    timesfound !! 4 = Some (of_int STREAM_double 9) /\
    timesfound !! 5 = Some (of_int STREAM_double 3011) /\
    dmul c_1E6 (dsub (of_int STREAM_double 3011) (of_int STREAM_double 9))
      = of_int STREAM_double 3002000000 /\
    (INT_MAX < 3002000000)%Z /\
    Delta timesfound 5 = None /\
    forall fuel, 1 <= fuel -> checktick cfg_demo env_jump fuel 0 = Undefined.
Proof.
  destruct (collect cfg_demo env_jump 1 0) as [[ts n']|] eqn:E;
    [|vm_compute in E; discriminate].
  exists ts, n'. split; [reflexivity|].
  split; [by apply (collect_inv _ _ _ _ _ _ E)|].
  assert (E4 : ts !! 4 = Some (of_int STREAM_double 9))
    by (vm_compute in E; injection E as <- _; reflexivity).
  assert (E5 : ts !! 5 = Some (of_int STREAM_double 3011))
    by (vm_compute in E; injection E as <- _; reflexivity).
  assert (ED : Delta ts 5 = None).
  { unfold Delta. rewrite E5. change (5 - 1) with 4. rewrite E4. reflexivity. }
  split; [exact E4|]. split; [exact E5|]. split; [reflexivity|].
  split; [reflexivity|]. split; [exact ED|].
  intros fuel Hf.
  apply (collect_calibrated _ _ _ _ _ _ (collect_more_fuel _ _ 1 fuel 0 _ Hf E)).
  exists 5. split; [unfold M; lia | exact ED].
Qed.



(** ** C4 *)

Lemma load2_row {A} (tbl : list (list A)) j k row :
  tbl !! j = Some row -> load2 tbl j k = row !! k.
Proof. intros H. unfold load2. by rewrite H. Qed.

(** With [NTIMES = 2] and a clock that is set back during the Copy kernel
    of trial 1, the summary of Copy has average and minimum [-1.0] and
    maximum [0.0]. *)
Lemma single_sample_max_differs :
  exists o t,
    main (cfg_plain 2 2) env_set_back 1 = Done o /\
    NTIMES (cfg_plain 2 2) = 2 /\
    stats_at (stats o) 0 = Some (t, t, c_0) /\
    SFeqb c_0 t = false.
Proof.
  eexists _, (S754_finite true 4503599627370496 (-52)).
  split; [vm_compute; reflexivity|]. split; [reflexivity|].
  split; vm_compute; reflexivity.
Qed.

(** C4 (amended).  The summary returns, and for every kernel it is
    computed from the samples of trials [1 .. ntimes-1] alone: the running
    sum from [0.0] divided by [ntimes - 1], the running [MIN] from
    [FLT_MAX] and the running [MAX] from [0.0]; changing the samples of
    trial 0 changes nothing.  With [ntimes = 2] and a sample [t] with
    [0 <= t <= FLT_MAX], minimum and maximum are [t] and the average
    compares equal to [t]. *)
Theorem summary_discards_trial_0 cfg ntimes tbl :
  table_full cfg ntimes tbl ->
  exists st,
    summary cfg ntimes tbl = Some st /\
    (forall j row, j < NUM_KERNELS cfg -> tbl !! j = Some row ->
       stats_at st j =
         Some (ddiv (foldl dadd c_0 (retained ntimes row))
                    (of_int STREAM_double (Z.of_nat ntimes - 1)),
               foldl (MIN SFltb) FLT_MAX (retained ntimes row),
               foldl (MAX SFltb) c_0 (retained ntimes row))) /\
    (forall tbl',
       table_full cfg ntimes tbl' ->
       (forall j k, 1 <= k -> load2 tbl' j k = load2 tbl j k) ->
       exists st', summary cfg ntimes tbl' = Some st' /\
         forall j, j < NUM_KERNELS cfg -> stats_at st' j = stats_at st j) /\
    (ntimes = 2 ->
     forall j t, j < NUM_KERNELS cfg -> load2 tbl j 1 = Some t ->
       valid_binary 53 1024 t = true ->
       SFleb c_0 t = true -> SFleb t FLT_MAX = true ->
       exists av, stats_at st j = Some (av, t, t) /\ SFeqb av t = true).
Proof.
  intros Hfull. destruct (summary_spec cfg ntimes tbl Hfull) as (st & E & P).
  exists st. split; [done|]. split; [done|]. split.
  - intros tbl' Hfull' Hsame.
    destruct (summary_spec cfg ntimes tbl' Hfull') as (st' & E' & P').
    exists st'. split; [done|]. intros j Hj.
    destruct (Hfull j Hj) as (row & Hrow & _).
    destruct (Hfull' j Hj) as (row' & Hrow' & _).
    rewrite (P j row Hj Hrow), (P' j row' Hj Hrow').
    assert (drop 1 row' = drop 1 row) as Hd.
    { apply list_eq. intros k. rewrite !lookup_drop.
      rewrite <- (load2_row tbl' j _ row' Hrow'),
              <- (load2_row tbl j _ row Hrow).
      apply Hsame. lia. }
    unfold retained. by rewrite Hd.
  - intros -> j t Hj Ht Hv H0 Hmax.
    destruct (Hfull j Hj) as (row & Hrow & _).
    rewrite (load2_row tbl j 1 row Hrow) in Ht.
    rewrite (P j row Hj Hrow), (retained_one row t Ht). cbn [foldl].
    destruct (single_sample t Hv H0 Hmax) as (Havg & -> & ->).
    eexists. split; [reflexivity | exact Havg].
Qed.

Lemma summary_discards_trial_0_witness :
  let t := of_int STREAM_double 3 in
  let tbl := replicate 4 [c_0; t] in
  table_full (cfg_plain 2 2) 2 tbl /\
  valid_binary 53 1024 t = true /\
  SFleb c_0 t = true /\ SFleb t FLT_MAX = true /\
  exists st av,
    summary (cfg_plain 2 2) 2 tbl = Some st /\
    stats_at st 0 = Some (av, t, t) /\ SFeqb av t = true.
Proof.
  intros t tbl.
  assert (Hfull : table_full (cfg_plain 2 2) 2 tbl).
  { intros j Hj. exists [c_0; t].
    split; [|cbn; lia]. cbn in Hj.
    do 4 (destruct j as [|j]; [reflexivity|]). lia. }
  split; [exact Hfull|]. split; [reflexivity|].
  split; [reflexivity|]. split; [reflexivity|].
  destruct (summary_discards_trial_0 (cfg_plain 2 2) 2 tbl Hfull)
    as (st & E & _ & _ & P).
  destruct (P eq_refl 0 t ltac:(cbn; lia) eq_refl eq_refl eq_refl eq_refl)
    as (av & Hs & Hav).
  by exists st, av.
Defined.

(** ** C8 *)




(** ** C3 *)

(** The part of C3 that holds: after set-up, warm-up and at least one
    trial, [a], [b], [c] agree with [aj], [bj], [cj]; [d] agrees with [dj]
    in a build with gather; and [e], at the indices that [i] holds, agrees
    with [ej] in a build with gather and scatter. *)
Lemma expected_values_agree cfg env ntimes r :
  well_configured cfg env ->
  exists m0 m1 s,
    setup cfg env = Some m0 /\
    warm_up cfg m0 = Some m1 /\
    main_loop cfg env ntimes (entry cfg ntimes m1 r) = Some s /\
    agrees cfg (expected_values cfg ntimes) (mem s).
Proof.
  intros Hwf.
  destruct (run_agrees cfg env ntimes r Hwf)
    as (m0 & m1 & s & E0 & E1 & Es & _ & _ & _ & Hag).
  by exists m0, m1, s.
Qed.

(** C3, in a build with scatter and without gather: the run leaves [1.0]
    in every element of [e] that [i] names (the initial value of [d]), the
    validator expects [ej = 0.0], and it reports a failed validation of
    [e] for this sequential run. *)
Theorem scatter_only_expected_e_mismatch :
  exists m0 m1 s rep ke,
    setup cfg_scatter_only env_demo = Some m0 /\
    warm_up cfg_scatter_only m0 = Some m1 /\
    main_loop cfg_scatter_only env_demo 2 (entry cfg_scatter_only 2 m1 42)
      = Some s /\
    ej (expected_values cfg_scatter_only 2) = Some c_0 /\
    e_at_i (mem s) 0 = Some c_1 /\ e_at_i (mem s) 1 = Some c_1 /\
    SFeqb c_1 c_0 = false /\
    checkSTREAMresults cfg_scatter_only 2 (mem s) = Some rep /\
    check_e rep = Some ke /\ failed ke = true.
Proof.
  eexists _, _, _, _, _.
  split; [vm_compute; reflexivity|]. split; [vm_compute; reflexivity|].
  split; [vm_compute; reflexivity|]. split; [reflexivity|].
  split; [reflexivity|]. split; [reflexivity|]. split; [reflexivity|].
  split; [vm_compute; reflexivity|]. split; reflexivity.
Qed.

(** ** C5 *)

(** For [a], [b], [c] and [d] the validator reports a failure exactly when
    the magnitude of the average error divided by the expected scalar
    exceeds [epsilon]. *)
Lemma validate_failed ty eps AvgErr expect n arr k :
  validate ty eps AvgErr expect n arr = Some k ->
  failed k = SFltb eps (to_double ty (abs (fdiv ty AvgErr expect))).
Proof.
  unfold validate.
  destruct (SFltb eps (to_double ty (abs (fdiv ty AvgErr expect)))).
  - destruct (count_err ty eps n arr expect); [|done]. by intros [= <-].
  - by intros [= <-].
Qed.

Lemma epsilon_of_sizeof ty :
  epsilon_of (sizeof ty) =
  match ty with STREAM_float => c_1Em6 | STREAM_double => c_1Em13 end.
Proof. by destruct ty. Qed.

(** C5, for [e] with an index array shorter than the data arrays: the one
    checked element [e[i[0]]] is off by a relative error above [epsilon]
    (and [d[0]], which holds the same value, fails its validation), yet
    the validator, which divides the sum over the
    [STREAM_INDEX_ARRAY_SIZE] checked elements by [STREAM_ARRAY_SIZE],
    reports half the mean absolute difference and no failure for [e]. *)
Theorem e_error_divided_by_array_size :
  let v := expected_values cfg_short_index 2 in
  exists rep kd ke ve,
    checkSTREAMresults cfg_short_index 2 mem_off = Some rep /\
    epsilon rep = c_1Em13 /\
    ej v = Some ve /\ dj v = Some ve /\
    e_at_i mem_off 0 = Some a0_off /\ d mem_off !! 0 = Some a0_off /\
    SFltb (epsilon rep)
      (spec_relative_error STREAM_double [a0_off] ve) = true /\
    check_d rep = Some kd /\ failed kd = true /\
    check_e rep = Some ke /\ failed ke = false /\
    AvgAbsErr kd = dmul c_2 (AvgAbsErr ke).
Proof.
  eexists _, _, _, _.
  split; [vm_compute; reflexivity|]. split; [reflexivity|].
  split; [vm_compute; reflexivity|]. split; [vm_compute; reflexivity|].
  split; [reflexivity|]. split; [reflexivity|].
  split; [vm_compute; reflexivity|]. split; [reflexivity|].
  split; [reflexivity|]. split; [reflexivity|]. split; [reflexivity|].
  vm_compute. reflexivity.
Qed.

(** * Further properties *)

(** ** What a call that returned has done *)

Lemma store2_inv {A} (tbl tbl' : list (list A)) l k v :
  store2 tbl l k v = Some tbl' ->
  in_table tbl l k /\
  length <$> tbl' = length <$> tbl /\
  load2 tbl' l k = Some v /\
  forall l' k', l' <> l \/ k' <> k -> load2 tbl' l' k' = load2 tbl l' k'.
Proof.
  unfold store2. intros H.
  destruct (tbl !! l) as [row|] eqn:Hrow; [|done]. osimpl in H.
  destruct (store row k v) as [row'|] eqn:Hst; [|done]. osimpl in H.
  apply store_inv in Hst as [Hk ->]. apply store_inv in H as [Hl ->].
  assert (Hin : in_table tbl l k) by by exists row.
  split; [done|].
  pose proof (lookup_lt_Some _ _ _ Hrow) as Hl'.
  split; [|split].
  - rewrite list_fmap_insert, length_insert. apply list_insert_id.
    by rewrite list_lookup_fmap, Hrow.
  - unfold load2. rewrite list_lookup_insert_eq by done. osimpl.
    by apply list_lookup_insert_eq.
  - intros l' k' Hne. unfold load2.
    destruct (decide (l' = l)) as [->|Hne'].
    + rewrite list_lookup_insert_eq by done. rewrite Hrow. osimpl.
      apply list_lookup_insert_ne. destruct Hne; [done | congruence].
    + by rewrite list_lookup_insert_ne by done.
Qed.

Lemma timed_inv cfg env l k kernel s s' :
  timed cfg env l k kernel s = Some s' ->
  kernel (mem s) = Some (mem s') /\
  reads s' = S (S (reads s)) /\
  length <$> times s' = length <$> times s /\
  in_table (times s) l k /\
  load2 (times s') l k = Some (sample cfg env (reads s)) /\
  forall l' k', l' <> l \/ k' <> k ->
    load2 (times s') l' k' = load2 (times s) l' k'.
Proof.
  unfold timed. intros H.
  destruct (store2 (times s) l k (mysecond cfg env (reads s)))
    as [tbl1|] eqn:E1; [|done]. osimpl in H.
  destruct (kernel (mem s)) as [m'|] eqn:Ek; [|done]. osimpl in H.
  destruct (store2_inv _ _ _ _ _ E1) as (Hin & Hs1 & Hl1 & Hf1).
  rewrite Hl1 in H. osimpl in H.
  destruct (store2 tbl1 l k _) as [tbl2|] eqn:E2; [|done]. osimpl in H.
  injection H as <-. osimpl.
  destruct (store2_inv _ _ _ _ _ E2) as (_ & Hs2 & Hl2 & Hf2).
  split; [done|]. split; [done|]. split; [congruence|]. split; [done|].
  split; [exact Hl2|].
  intros l' k' Hne. by rewrite Hf2, Hf1.
Qed.

Ltac inv_timed H K R Sh I L F :=
  match type of H with
  | context [timed ?cfg ?env ?l ?k ?ker ?s] =>
      let s1 := fresh "s" in
      let E := fresh "E" in
      destruct (timed cfg env l k ker s) as [s1|] eqn:E; [|done];
      osimpl in H;
      apply timed_inv in E as (K & R & Sh & I & L & F);
      osimpl in K; osimpl in R; osimpl in Sh; osimpl in I; osimpl in L;
      osimpl in F
  end.

Lemma tuned_or_not {A} (t : bool) (f : A) : (if t then f else f) = f.
Proof. by destruct t. Qed.

(** One trial: the arrays are those of the kernels, the clock is read
    twice per kernel, and row [l] of column [k] holds the difference of the
    two reads around kernel [l]. *)
Lemma trial_inv cfg env scalar k s s' :
  trial cfg env scalar k s = Some s' ->
  trial_kernels cfg scalar (mem s) = Some (mem s') /\
  reads s' = reads s + 2 * NUM_KERNELS cfg /\
  length <$> times s' = length <$> times s /\
  table_ready cfg k (times s) /\
  (forall l, l < NUM_KERNELS cfg ->
     load2 (times s') l k = Some (sample cfg env (reads s + 2 * l))) /\
  (forall l k', k' <> k -> load2 (times s') l k' = load2 (times s) l k').
Proof.
  unfold trial, trial_kernels, NUM_KERNELS, NUM_KERNELS_GATHER,
    NUM_KERNELS_SCATTER, NUM_KERNELS_INDIRECT_DOT_PRODUCT.
  change (tuned_STREAM_Copy cfg) with (STREAM_Copy cfg).
  change (tuned_STREAM_Scale cfg scalar) with (STREAM_Scale cfg scalar).
  change (tuned_STREAM_Add cfg) with (STREAM_Add cfg).
  change (tuned_STREAM_Triad cfg scalar) with (STREAM_Triad cfg scalar).
  rewrite !tuned_or_not.
  intros H.
  inv_timed H K0 R0 S0 I0 L0 F0. inv_timed H K1 R1 S1 I1 L1 F1.
  inv_timed H K2 R2 S2 I2 L2 F2. inv_timed H K3 R3 S3 I3 L3 F3.
  rewrite K0. osimpl. rewrite K1. osimpl. rewrite K2. osimpl.
  rewrite K3. osimpl.
  destruct (ENABLE_GATHER cfg) eqn:G, (ENABLE_SCATTER cfg) eqn:Sc,
    (ENABLE_INDIRECT_DOT_PRODUCT cfg) eqn:Dt; osimpl in H; osimpl;
    repeat (let K := fresh "K" in let R := fresh "R" in let Sh := fresh "S" in
            let I := fresh "I" in let L := fresh "L" in let F := fresh "F" in
            inv_timed H K R Sh I L F; try (rewrite K; osimpl));
    injection H as <-.
  all: osimpl.
  all: split; [done|].
  all: split; [lia|].
  all: split; [congruence|].
  all: split;
    [ intros l Hl;
      unfold NUM_KERNELS, NUM_KERNELS_GATHER, NUM_KERNELS_SCATTER,
        NUM_KERNELS_INDIRECT_DOT_PRODUCT in Hl; rewrite G, Sc, Dt in Hl;
      repeat (destruct l as [|l];
              [ repeat match goal with
                       | Hs : length <$> times ?s1 = length <$> times ?s0,
                         Hi : in_table (times ?s1) _ _ |- _ =>
                           apply (in_table_shape _ _ _ _ (eq_sym Hs)) in Hi
                       end; assumption |]); lia |].
  all: split;
    [ intros l Hl |
      intros l k' Hk;
      repeat match goal with
             | F : forall l' k', _ -> load2 (times ?s1) l' k' = _ |- _ =>
                 rewrite (F l k') by (right; exact Hk); clear F
             end; reflexivity ].
  all: repeat (destruct l as [|l];
         [ repeat match goal with
                  | F : forall l' k', _ -> load2 (times ?s1) l' k' = _
                    |- load2 (times ?s1) ?l0 _ = _ =>
                      rewrite (F l0 k) by (left; lia)
                  end;
           match goal with
           | L : load2 (times ?s1) ?l0 _ = Some _
             |- load2 (times ?s1) ?l0 _ = _ => rewrite L
           end; f_equal; f_equal; lia |]); lia.
Qed.

Lemma main_loop_inv cfg env ntimes s0 s :
  main_loop cfg env ntimes s0 = Some s ->
  reads s = reads s0 + 2 * NUM_KERNELS cfg * ntimes /\
  length <$> times s = length <$> times s0 /\
  (forall l k, l < NUM_KERNELS cfg -> k < ntimes ->
     load2 (times s) l k =
       Some (sample cfg env (reads s0 + 2 * (NUM_KERNELS cfg * k + l)))) /\
  (forall l k, ntimes <= k -> load2 (times s) l k = load2 (times s0) l k).
Proof.
  unfold main_loop. intros H.
  apply (for_loop_post (fun n s =>
    reads s = reads s0 + 2 * NUM_KERNELS cfg * n /\
    length <$> times s = length <$> times s0 /\
    (forall l k, l < NUM_KERNELS cfg -> k < n ->
       load2 (times s) l k =
         Some (sample cfg env (reads s0 + 2 * (NUM_KERNELS cfg * k + l)))) /\
    (forall l k, n <= k -> load2 (times s) l k = load2 (times s0) l k))
    _ _ _ _ H).
  - split; [lia|]. split; [done|]. split; [lia | done].
  - intros n t t' Hn (Hr & Hs & Hin & Hout) Ht.
    apply trial_inv in Ht as (_ & Hr' & Hs' & _ & Hnew & Hold).
    split; [lia|]. split; [congruence|]. split.
    + intros l k Hl Hk. destruct (decide (k = n)) as [->|Hne].
      * rewrite (Hnew l Hl). do 2 f_equal. lia.
      * rewrite (Hold l k Hne). apply Hin; lia.
    + intros l k Hk. rewrite (Hold l k) by lia. apply Hout. lia.
Qed.


Lemma main_inv cfg env fuel o :
  main cfg env fuel = Done o ->
  exists m0 q n' m1 s,
    setup cfg env = Some m0 /\
    checktick cfg env fuel 0 = Done (q, n') /\
    warm_up cfg m0 = Some m1 /\
    main_loop cfg env (NTIMES cfg) (entry cfg (NTIMES cfg) m1 (S (S n')))
      = Some s /\
    summary cfg (NTIMES cfg) (times s) = Some (stats o) /\
    mapM (best_rate cfg (stats o)) (seq 0 (NUM_KERNELS cfg)) = Some (rates o) /\
    checkSTREAMresults cfg (NTIMES cfg) (mem s) = Some (validation o) /\
    quantum o = Z.max q 1 /\
    warm_up_time o = dmul c_1E6 (sample cfg env n') /\
    printable cfg env q n'.
Proof.
  intros H. unfold main in H.
  destruct (reset_statistics cfg _) as [st0|] eqn:E0; [|done].
  cbn [lift outcome_bind] in H.
  destruct (setup cfg env) as [m0|] eqn:E1; [|done].
  cbn [lift outcome_bind] in H.
  destruct (checktick cfg env fuel 0) as [[q n']| |] eqn:E2; [|done..].
  cbn [outcome_bind fst snd] in H.
  destruct (warm_up cfg m0) as [m1|] eqn:E3; [|done].
  cbn [lift outcome_bind] in H.
  destruct (double_to_int (dmul c_1E6 _)) as [us|] eqn:Eus; [|done].
  cbn [lift outcome_bind] in H.
  destruct (double_to_int (ddiv _ _)) as [tk|] eqn:Etk; [|done].
  cbn [lift outcome_bind] in H.
  destruct (main_loop cfg env _ _) as [s|] eqn:E4; [|done].
  cbn [lift outcome_bind] in H.
  destruct (accumulate cfg _ _ st0) as [st1|] eqn:E5; [|done].
  cbn [lift outcome_bind] in H.
  destruct (average cfg _ st1) as [st2|] eqn:E6; [|done].
  cbn [lift outcome_bind] in H.
  destruct (mapM _ _) as [rs|] eqn:E7; [|done].
  cbn [lift outcome_bind] in H.
  destruct (checkSTREAMresults cfg _ _) as [r|] eqn:E8; [|done].
  cbn [lift outcome_bind] in H. injection H as <-.
  cbn [stats rates validation quantum warm_up_time].
  exists m0, q, n', m1, s. do 4 (split; [done|]).
  split; [unfold summary; rewrite E0; osimpl; rewrite E5; osimpl; exact E6|].
  do 2 (split; [done|]). split; [destruct (Z.leb_spec 1 q); lia|].
  split; [done|]. unfold printable, sample. cbv zeta. rewrite Eus, Etk.
  by split; eexists.
Qed.

Lemma subscript_inv z n : subscript z = Some n -> z = Z.of_nat n.
Proof.
  unfold subscript. destruct (Z.leb_spec 0 z); [|done].
  intros [= <-]. by rewrite Z2Nat.id.
Qed.

(** ** The validator on arrays that agree with its scalars *)

Lemma fsub_self ty v : zero_or_nan (fsub ty v v) = true.
Proof.
  destruct v as [[]|[]| |s m e]; try done.
  unfold fsub, SFsub. cbv beta iota zeta. by rewrite Z.sub_diag.
Qed.

Lemma abs_zero_or_nan v : zero_or_nan v = true -> zero_or_nan (abs v) = true.
Proof. by destruct v as [[]| | |]. Qed.


Lemma fdiv_zero_or_nan ty u v :
  zero_or_nan u = true -> zero_or_nan (fdiv ty u v) = true.
Proof. by destruct u as [[]| | |], v as [[]|[]| |[]]. Qed.

Lemma to_double_zero_or_nan ty v :
  zero_or_nan v = true -> zero_or_nan (to_double ty v) = true.
Proof. by destruct ty, v. Qed.

Lemma of_double_c_0 ty : of_double ty c_0 = S754_zero false.
Proof. by destruct ty. Qed.

Lemma epsilon_not_below ty v :
  zero_or_nan v = true -> SFltb (epsilon_of (sizeof ty)) v = false.
Proof. by destruct ty, v as [[]| | |]; intros; vm_compute. Qed.



(** The validator's loop for [xj] repeats the kernel's loop for [x]. *)
Lemma STREAM_Indirect_dot_expected_x cfg m m' :
  STREAM_Indirect_dot cfg (set_x (of_double (stream_type cfg) c_0) m) = Some m' ->
  m' = set_x (x m') m /\ expected_x cfg m' = Some (x m').
Proof.
  unfold STREAM_Indirect_dot, expected_x.
  generalize (STREAM_INDEX_ARRAY_SIZE cfg) as n.
  intros n. revert m'. induction n as [|n IH]; intros m' H.
  - rewrite for_loop_0 in H. injection H as <-. split; reflexivity.
  - rewrite for_loop_S in H. rewrite for_loop_S.
    destruct (for_loop n _ (set_x _ m)) as [m1|] eqn:E; osimpl in H; [|done].
    destruct (IH m1 eq_refl) as [Hm1 Hx].
    assert (Hd : d m1 = d m) by by rewrite Hm1.
    assert (Hi : i m1 = i m) by by rewrite Hm1.
    assert (Hb : b m1 = b m) by by rewrite Hm1.
    destruct (d m1 !! n) as [u|] eqn:Eu; [|done]. osimpl in H.
    destruct (i m1 !! n) as [ij|] eqn:Eij; [|done]. osimpl in H.
    destruct (subscript ij) as [p|] eqn:Ep; [|done]. osimpl in H.
    destruct (b m1 !! p) as [v|] eqn:Ev; [|done]. osimpl in H.
    injection H as <-. osimpl. split; [by rewrite Hm1|].
    rewrite Hx. osimpl. rewrite Eu. osimpl. rewrite Eij. osimpl.
    rewrite Ep. osimpl. by rewrite Ev.
Qed.

Lemma trial_kernels_x cfg scalar m m' :
  trial_kernels cfg scalar m = Some m' ->
  ENABLE_INDIRECT_DOT_PRODUCT cfg = true ->
  expected_x cfg m' = Some (x m').
Proof.
  unfold trial_kernels. intros H Dt. rewrite Dt in H.
  repeat match type of H with
         | (?o ≫= _) = Some _ => destruct o; [osimpl in H | done]
         end.
  by apply STREAM_Indirect_dot_expected_x in H as [_ H].
Qed.

Lemma check_x_accepts cfg ntimes m r :
  ENABLE_INDIRECT_DOT_PRODUCT cfg = true ->
  expected_x cfg m = Some (x m) ->
  checkSTREAMresults cfg ntimes m = Some r ->
  exists k, check_x r = Some k /\ failed k = false.
Proof.
  intros Dt Hx H. unfold checkSTREAMresults in H. cbv zeta in H.
  rewrite Dt, Hx in H.
  repeat match type of H with
         | (?o ≫= _) = Some _ =>
             let E := fresh "E" in destruct o eqn:E; [osimpl in H | done]
         end.
  injection H as <-. cbn [check_x]. eexists. split; [reflexivity|].
  cbn [failed].
  apply epsilon_not_below, to_double_zero_or_nan, abs_zero_or_nan,
    fdiv_zero_or_nan, fsub_self.
Qed.




(** X2.  The check of [x] cannot fail after a sequential trial, whatever
    the arrays hold: the validator recomputes [xj] with the loop of the
    kernel, on the same [d], [b] and [i], in the same order, so [xj] is
    [x] bit for bit and [x - xj] is zero (or NaN). *)
Theorem indirect_dot_check_cannot_fail cfg scalar ntimes m m' r :
  ENABLE_INDIRECT_DOT_PRODUCT cfg = true ->
  trial_kernels cfg scalar m = Some m' ->
  checkSTREAMresults cfg ntimes m' = Some r ->
  expected_x cfg m' = Some (x m') /\
  exists k, check_x r = Some k /\ failed k = false.
Proof.
  intros Dt Hk H.
  pose proof (trial_kernels_x cfg scalar m m' Hk Dt) as Hx.
  split; [done|]. by apply (check_x_accepts cfg ntimes m').
Qed.

Lemma indirect_dot_check_cannot_fail_witness :
  ENABLE_INDIRECT_DOT_PRODUCT cfg_demo = true /\
  exists m' r,
    trial_kernels cfg_demo c_3 mem_demo = Some m' /\
    checkSTREAMresults cfg_demo 2 m' = Some r /\
    expected_x cfg_demo m' = Some (x m') /\
    exists k, check_x r = Some k /\ failed k = false.
Proof.
  split; [reflexivity|].
  destruct (trial_kernels cfg_demo c_3 mem_demo) as [m'|] eqn:E1;
    [|vm_compute in E1; discriminate].
  destruct (checkSTREAMresults cfg_demo 2 m') as [r|] eqn:E2.
  - exists m', r. split; [reflexivity|]. split; [exact E2|].
    exact (indirect_dot_check_cannot_fail cfg_demo c_3 2 mem_demo m' r
             eq_refl E1 E2).
  - vm_compute in E1. injection E1 as <-. vm_compute in E2. discriminate.
Defined.

(** ** The validator when its scalars have overflowed *)

Lemma abs_fsub_infinity ty v s :
  not_finite (abs (fsub ty v (S754_infinity s))) = true.
Proof. by destruct v as [[]|[]| |[]], s. Qed.

Lemma fadd_not_finite ty u v :
  not_finite u = true -> not_finite v = true -> not_finite (fadd ty u v) = true.
Proof. by destruct u as [[]|[]| |], v as [[]|[]| |]. Qed.

Lemma fdiv_not_finite ty u v :
  not_finite u = true -> not_finite (fdiv ty u v) = true.
Proof. by destruct u as [[]|[]| |], v as [[]|[]| |[]]. Qed.

Lemma fdiv_by_infinity ty u s :
  not_finite u = true -> zero_or_nan (fdiv ty u (S754_infinity s)) = true.
Proof. by destruct u as [[]|[]| |], s. Qed.

Lemma sum_err_infinity ty n elt s acc :
  sum_err ty n elt (S754_infinity s) = Some acc -> not_finite acc = true.
Proof.
  intros H. unfold sum_err in H.
  apply (for_loop_post (fun _ acc => not_finite acc = true) _ _ _ _ H).
  - by rewrite of_double_c_0.
  - intros j t t' Hj Ht Hstep.
    destruct (elt j) as [u|]; [|done]. osimpl in Hstep. injection Hstep as <-.
    apply fadd_not_finite; [done | apply abs_fsub_infinity].
Qed.

Lemma validate_infinity ty sum n s n' arr k :
  not_finite sum = true ->
  validate ty (epsilon_of (sizeof ty)) (fdiv ty sum n) (S754_infinity s) n' arr
    = Some k ->
  failed k = false.
Proof.
  intros Hs. unfold validate. rewrite epsilon_not_below.
  - by intros [= <-].
  - by apply to_double_zero_or_nan, abs_zero_or_nan, fdiv_by_infinity,
      fdiv_not_finite.
Qed.

Lemma recurrence_overflow ty k :
  Nat.iter (k + overflow_at ty) (spec_recurrence ty) (spec_start ty) =
  (S754_infinity false, S754_infinity false, S754_infinity false).
Proof.
  induction k as [|k IH].
  - by destruct ty; vm_compute.
  - cbn [Nat.add]. rewrite Nat.iter_succ, IH. by destruct ty; vm_compute.
Qed.

Lemma expected_overflow cfg ntimes :
  overflow_at (stream_type cfg) <= ntimes ->
  let v := expected_values cfg ntimes in
  aj v = S754_infinity false /\ bj v = S754_infinity false /\
  cj v = S754_infinity false.
Proof.
  intros Hn. destruct (Nat.le_exists_sub _ _ Hn) as (k & -> & _). intros v.
  pose proof (expected_values_recurrence cfg
                (k + overflow_at (stream_type cfg))) as H.
  cbv zeta in H. fold v in H.
  rewrite recurrence_overflow in H. by injection H.
Qed.

Lemma overflow_accepts cfg ntimes m r :
  overflow_at (stream_type cfg) <= ntimes ->
  checkSTREAMresults cfg ntimes m = Some r ->
  failed (check_a r) = false /\ failed (check_b r) = false /\
  failed (check_c r) = false.
Proof.
  intros Hn H. destruct (expected_overflow cfg ntimes Hn) as (Ea & Eb & Ec).
  unfold checkSTREAMresults in H. cbv zeta in H.
  set (v := expected_values cfg ntimes) in *.
  set (ty := stream_type cfg) in *.
  rewrite Ea, Eb, Ec in H.
  destruct (sum_err ty _ (fun j => a m !! j) _) as [sa|] eqn:Sa; [|done].
  osimpl in H.
  destruct (sum_err ty _ (fun j => b m !! j) _) as [sb|] eqn:Sb; [|done].
  osimpl in H.
  destruct (sum_err ty _ (fun j => c m !! j) _) as [sc|] eqn:Sc; [|done].
  osimpl in H.
  apply sum_err_infinity in Sa, Sb, Sc.
  repeat match type of H with
         | (?o ≫= _) = Some _ =>
             let E := fresh "E" in destruct o eqn:E; [osimpl in H | done]
         end.
  injection H as <-. cbn [check_a check_b check_c].
  repeat match goal with
         | E : validate _ _ _ (S754_infinity _) _ _ = Some _ |- _ =>
             apply validate_infinity in E; [|done]
         end.
  done.
Qed.

(** X3.  From 34 trials in single precision, and from 263 in double
    precision, the scalars [aj], [bj], [cj] are infinite, and then the
    checks of [a], [b] and [c] accept any contents of the arrays: every
    average error divided by an infinite expected value is zero or NaN,
    and neither is greater than [epsilon]. *)
Theorem overflowed_expectation_accepts_anything cfg ntimes m r :
  overflow_at (stream_type cfg) <= ntimes ->
  checkSTREAMresults cfg ntimes m = Some r ->
  aj (expected_values cfg ntimes) = S754_infinity false /\
  failed (check_a r) = false /\ failed (check_b r) = false /\
  failed (check_c r) = false.
Proof.
  intros Hn H. split; [by apply expected_overflow|].
  by apply (overflow_accepts cfg ntimes m).
Qed.

Lemma overflowed_expectation_accepts_anything_witness :
  overflow_at (stream_type cfg_single) <= 34 /\
  exists r,
    checkSTREAMresults cfg_single 34 (static_memory cfg_single) = Some r /\
    aj (expected_values cfg_single 34) = S754_infinity false /\
    failed (check_a r) = false /\ failed (check_b r) = false /\
    failed (check_c r) = false.
Proof.
  split; [apply le_n|].
  destruct (checkSTREAMresults cfg_single 34 (static_memory cfg_single))
    as [r|] eqn:E; [|vm_compute in E; discriminate].
  exists r. split; [reflexivity|].
  exact (overflowed_expectation_accepts_anything cfg_single 34
           (static_memory cfg_single) r (le_n _) E).
Defined.

(** ** The scalars in closed form *)

Lemma recurrence_closed_form ty n :
  1 <= n <= exact_upto ty ->
  Nat.iter n (spec_recurrence ty) (spec_start ty) =
  (of_int ty (2 * 15 ^ Z.of_nat n), of_int ty (6 * 15 ^ (Z.of_nat n - 1)),
   of_int ty (8 * 15 ^ (Z.of_nat n - 1))).
Proof.
  intros [H1 Hn]. destruct n as [|n]; [lia|].
  destruct ty; cbn [exact_upto] in Hn.
  - do 7 (destruct n as [|n]; [vm_compute; reflexivity|]). lia.
  - do 18 (destruct n as [|n]; [vm_compute; reflexivity|]). lia.
Qed.

(** X4.  Each trial multiplies [aj] by 15: after [n] trials, for [n] from
    1 up to 7 in single and up to 18 in double precision, [aj], [bj] and
    [cj] are [2 * 15^n], [6 * 15^(n-1)] and [8 * 15^(n-1)], correctly
    rounded (for the default [NTIMES = 10]: 1153300781250, 230660156250 and
    307546875000). *)
Theorem expected_values_closed_form cfg ntimes :
  1 <= ntimes <= exact_upto (stream_type cfg) ->
  let ty := stream_type cfg in
  let v := expected_values cfg ntimes in
  aj v = of_int ty (2 * 15 ^ Z.of_nat ntimes) /\
  bj v = of_int ty (6 * 15 ^ (Z.of_nat ntimes - 1)) /\
  cj v = of_int ty (8 * 15 ^ (Z.of_nat ntimes - 1)).
Proof.
  intros Hn ty v. pose proof (expected_values_recurrence cfg ntimes) as H.
  cbv zeta in H. rewrite recurrence_closed_form in H by done.
  by injection H.
Qed.

Lemma expected_values_closed_form_witness :
  1 <= 10 <= exact_upto (stream_type cfg_demo) /\
  let v := expected_values cfg_demo 10 in
  aj v = of_int STREAM_double 1153300781250 /\
  bj v = of_int STREAM_double 230660156250 /\
  cj v = of_int STREAM_double 307546875000.
Proof.
  assert (H : 1 <= 10 <= exact_upto (stream_type cfg_demo))
    by (cbn; lia).
  split; [exact H|].
  exact (expected_values_closed_form cfg_demo 10 H).
Defined.

(** ** The table of timings *)

(** X5.  When the main loop returns, it has read the clock
    [2 * NUM_KERNELS * ntimes] times, and for every kernel row [l] and
    trial [k] the entry [times[l][k]] is the value of clock read [p + 1]
    minus that of read [p], where [p] is read number
    [2 * (NUM_KERNELS * k + l)] of the loop; it depends on nothing the
    table held before, and columns from [ntimes] on are left as they
    were. *)
Theorem samples_are_clock_differences cfg env ntimes s0 s :
  main_loop cfg env ntimes s0 = Some s ->
  reads s = reads s0 + 2 * NUM_KERNELS cfg * ntimes /\
  (forall l k, l < NUM_KERNELS cfg -> k < ntimes ->
     let p := reads s0 + 2 * (NUM_KERNELS cfg * k + l) in
     load2 (times s) l k =
       Some (dsub (mysecond cfg env (S p)) (mysecond cfg env p))) /\
  (forall l k, ntimes <= k -> load2 (times s) l k = load2 (times s0) l k).
Proof.
  intros H. apply main_loop_inv in H as (Hr & _ & Hin & Hout). done.
Qed.

Lemma samples_are_clock_differences_witness :
  exists s,
    main_loop cfg_demo env_demo 2 run_demo = Some s /\
    reads s = reads run_demo + 2 * NUM_KERNELS cfg_demo * 2 /\
    (forall l k, l < NUM_KERNELS cfg_demo -> k < 2 ->
       let p := reads run_demo + 2 * (NUM_KERNELS cfg_demo * k + l) in
       load2 (times s) l k =
         Some (dsub (mysecond cfg_demo env_demo (S p))
                    (mysecond cfg_demo env_demo p))) /\
    (forall l k, 2 <= k -> load2 (times s) l k = load2 (times run_demo) l k).
Proof.
  destruct (main_loop cfg_demo env_demo 2 run_demo) as [s|] eqn:E;
    [|vm_compute in E; discriminate].
  exists s. split; [reflexivity|].
  exact (samples_are_clock_differences cfg_demo env_demo 2 run_demo s E).
Defined.




(** X7.  Before the summary, the accumulators of every kernel row are
    [(0.0, FLT_MAX, 0.0)]: the static initialiser gives [FLT_MAX] to the
    first four entries of [mintime] only (the others start at zero), and
    the loop at the start of [main], compiled when [NUM_KERNELS > 4],
    sets all of them; with four kernels the initialiser is left as it
    is. *)
Theorem accumulators_start cfg :
  exists st,
    reset_statistics cfg (static_statistics cfg) = Some st /\
    (forall j, j < NUM_KERNELS cfg ->
       stats_at st j = Some (c_0, FLT_MAX, c_0)) /\
    (forall j, 4 <= j < NUM_KERNELS cfg ->
       stats_at (static_statistics cfg) j = Some (c_0, c_0, c_0)) /\
    (NUM_KERNELS cfg = 4 -> st = static_statistics cfg).
Proof.
  destruct (reset_statistics_spec cfg) as (st & E & P).
  exists st. split; [done|]. split; [done|]. split.
  - intros j [H4 Hj]. unfold stats_at, static_statistics.
    cbn [avgtime mintime maxtime].
    rewrite lookup_app_r by (rewrite length_replicate; lia).
    rewrite length_replicate, !lookup_replicate_2 by lia. done.
  - intros H4. unfold reset_statistics in E. rewrite H4 in E.
    rewrite decide_False in E by lia. by injection E.
Qed.

(** ** Rows, labels and byte counts *)

Lemma trial_rows cfg env scalar k s :
  trial cfg env scalar k s = trial_by_rows cfg env scalar k s.
Proof.
  unfold trial, trial_by_rows, row_Gather, row_Scatter, row_Indirect_dot,
    NUM_KERNELS_GATHER, NUM_KERNELS_SCATTER.
  change (tuned_STREAM_Copy cfg) with (STREAM_Copy cfg).
  change (tuned_STREAM_Scale cfg scalar) with (STREAM_Scale cfg scalar).
  change (tuned_STREAM_Add cfg) with (STREAM_Add cfg).
  change (tuned_STREAM_Triad cfg scalar) with (STREAM_Triad cfg scalar).
  rewrite !tuned_or_not.
  repeat match goal with
         | |- (?o ≫= _) = (?o ≫= _) => destruct o; osimpl; [|done]
         end.
  destruct (ENABLE_GATHER cfg), (ENABLE_SCATTER cfg),
    (ENABLE_INDIRECT_DOT_PRODUCT cfg); osimpl; cbn [Nat.add];
    repeat match goal with
           | |- context [timed ?c ?e ?l ?k ?ker ?s] =>
               destruct (timed c e l k ker s); osimpl; try done
           end; done.
Qed.

(** X8.  [label] and [bytes] have one entry per kernel row, and whatever
    subset of the optional kernels is compiled in, the row in which the
    main loop times Gather, Scatter or the indirect dot product is the row
    that carries its label and the byte count of an indexed kernel. *)
Theorem optional_rows_labels_bytes cfg env scalar k s :
  length (label cfg) = NUM_KERNELS cfg /\
  length (bytes cfg) = NUM_KERNELS cfg /\
  trial cfg env scalar k s = trial_by_rows cfg env scalar k s /\
  (if ENABLE_GATHER cfg
   then label cfg !! row_Gather cfg = Some "Gather:    "%string /\
        bytes cfg !! row_Gather cfg = Some (indirect_bytes cfg)
   else True) /\
  (if ENABLE_SCATTER cfg
   then label cfg !! row_Scatter cfg = Some "Scatter:   "%string /\
        bytes cfg !! row_Scatter cfg = Some (indirect_bytes cfg)
   else True) /\
  (if ENABLE_INDIRECT_DOT_PRODUCT cfg
   then label cfg !! row_Indirect_dot cfg = Some "Ind.dot:   "%string /\
        bytes cfg !! row_Indirect_dot cfg = Some (indirect_bytes cfg)
   else True).
Proof.
  split; [|split; [|split; [apply trial_rows|]]].
  - unfold label, NUM_KERNELS, NUM_KERNELS_GATHER, NUM_KERNELS_SCATTER,
      NUM_KERNELS_INDIRECT_DOT_PRODUCT.
    by destruct (ENABLE_GATHER cfg), (ENABLE_SCATTER cfg),
      (ENABLE_INDIRECT_DOT_PRODUCT cfg).
  - unfold bytes, NUM_KERNELS, NUM_KERNELS_GATHER, NUM_KERNELS_SCATTER,
      NUM_KERNELS_INDIRECT_DOT_PRODUCT.
    by destruct (ENABLE_GATHER cfg), (ENABLE_SCATTER cfg),
      (ENABLE_INDIRECT_DOT_PRODUCT cfg).
  - unfold label, bytes, indirect_bytes, row_Gather, row_Scatter,
      row_Indirect_dot, NUM_KERNELS_GATHER, NUM_KERNELS_SCATTER.
    rewrite MIN_Z.
    by destruct (ENABLE_GATHER cfg), (ENABLE_SCATTER cfg),
      (ENABLE_INDIRECT_DOT_PRODUCT cfg).
Qed.

(** ** The clock granularity *)

(** X9.  The granularity that [main] reports lies between 1 and
    1000000 microseconds. *)
Theorem reported_granularity_range cfg env fuel o :
  main cfg env fuel = Done o -> (1 <= quantum o <= 1000000)%Z.
Proof.
  intros H.
  destruct (main_inv cfg env fuel o H)
    as (m0 & q & n' & m1 & s & _ & Hq & _ & _ & _ & _ & _ & -> & _ & _).
  unfold checktick in Hq.
  destruct (collect cfg env fuel 0) as [[tf n1]|]; [|done].
  destruct (min_delta tf) as [md|] eqn:Em; [|done].
  injection Hq as -> _. apply min_delta_inv in Em as (Hr & _). lia.
Qed.

Lemma reported_granularity_range_witness :
  exists o,
    main (cfg_plain 2 2) env_set_back 1 = Done o /\
    (1 <= quantum o <= 1000000)%Z.
Proof.
  destruct (main (cfg_plain 2 2) env_set_back 1) as [o| |] eqn:E;
    [|vm_compute in E; discriminate..].
  exists o. split; [reflexivity|].
  exact (reported_granularity_range (cfg_plain 2 2) env_set_back 1 o E).
Defined.

Lemma dsub_self_small t :
  is_number t = true -> SFltb (dsub t t) c_1Em6 = true.
Proof.
  destruct t as [[]| | |s m e]; try done. intros _.
  unfold dsub, fsub, SFsub. cbv beta iota zeta. by rewrite Z.sub_diag.
Qed.

Lemma spin_stuck cfg env t fuel n :
  (forall r, mysecond cfg env r = t) -> is_number t = true ->
  spin cfg env fuel t n = None.
Proof.
  intros Hc Ht. revert n. induction fuel as [|fuel IH]; intros n; [done|].
  cbn [spin]. by rewrite Hc, dsub_self_small.
Qed.

Lemma checktick_stuck cfg env t fuel n :
  (forall r, mysecond cfg env r = t) -> is_number t = true ->
  checktick cfg env fuel n = Waiting.
Proof.
  intros Hc Ht. unfold checktick, collect.
  rewrite (for_loop_fail _ _ _ 0); [done | unfold M; lia |].
  intros st. by rewrite Hc, (spin_stuck cfg env t).
Qed.

(** X10.  On a clock that returns the same number at every read, the
    busy-wait of [checktick] never ends: whatever the fuel, [checktick] and
    [main] are still waiting. *)
Theorem stuck_clock_waits cfg env t fuel :
  well_configured cfg env ->
  (forall r, mysecond cfg env r = t) -> is_number t = true ->
  (forall n, checktick cfg env fuel n = Waiting) /\
  main cfg env fuel = Waiting.
Proof.
  intros Hwf Hc Ht. split; [intros n; by apply (checktick_stuck cfg env t)|].
  unfold main.
  destruct (reset_statistics_spec cfg) as (st & -> & _).
  destruct (setup_spec cfg env Hwf) as (m & -> & _).
  cbn [lift outcome_bind]. by rewrite (checktick_stuck cfg env t).
Qed.

Lemma stuck_clock_waits_witness :
  well_configured cfg_demo env_stuck /\
  (forall r, mysecond cfg_demo env_stuck r = mysecond cfg_demo env_stuck 0) /\
  is_number (mysecond cfg_demo env_stuck 0) = true /\
  (forall n, checktick cfg_demo env_stuck 1000 n = Waiting) /\
  main cfg_demo env_stuck 1000 = Waiting.
Proof.
  assert (Hwf : well_configured cfg_demo env_stuck).
  { intros _. split; [exact (proj1 (well_configured_demo eq_refl))|].
    intros _ n. unfold INT_MAX. cbn. lia. }
  split; [exact Hwf|]. split; [reflexivity|]. split; [reflexivity|].
  exact (stuck_clock_waits cfg_demo env_stuck _ 1000 Hwf
           (fun _ => eq_refl) eq_refl).
Defined.

Lemma checktick_more_fuel cfg env fuel fuel' n r :
  fuel <= fuel' -> checktick cfg env fuel n = Done r ->
  checktick cfg env fuel' n = Done r.
Proof.
  intros Hle. unfold checktick.
  destruct (collect cfg env fuel n) as [[tf n1]|] eqn:E; [|done].
  assert (collect cfg env fuel' n = Some (tf, n1)) as ->; [|done].
  unfold collect in *. revert E. apply for_loop_mono.
  intros j [tf' p] t' _ Hstep. osimpl in *.
  destruct (spin cfg env fuel _ _) as [tn|] eqn:Es; [|done].
  by rewrite (spin_more_fuel _ _ _ _ _ _ _ Hle Es).
Qed.

(** X11.  The fuel is no part of the result: when [main] returns with
    some fuel, it returns the same output with any greater fuel. *)
Theorem more_fuel_same_result cfg env fuel fuel' o :
  fuel <= fuel' -> main cfg env fuel = Done o -> main cfg env fuel' = Done o.
Proof.
  intros Hle H. unfold main in *.
  destruct (lift (reset_statistics _ _)); cbn [outcome_bind] in *; [|done..].
  destruct (lift (setup _ _)); cbn [outcome_bind] in *; [|done..].
  destruct (checktick cfg env fuel 0) as [qn| |] eqn:E;
    cbn [outcome_bind] in H; [|done..].
  by rewrite (checktick_more_fuel _ _ _ _ _ _ Hle E).
Qed.

Lemma more_fuel_same_result_witness :
  1 <= 5 /\
  exists o,
    main (cfg_plain 2 2) env_set_back 1 = Done o /\
    main (cfg_plain 2 2) env_set_back 5 = Done o.
Proof.
  assert (H : 1 <= 5) by lia. split; [exact H|].
  destruct (main (cfg_plain 2 2) env_set_back 1) as [o| |] eqn:E;
    [|vm_compute in E; discriminate..].
  exists o. split; [reflexivity|].
  exact (more_fuel_same_result (cfg_plain 2 2) env_set_back 1 5 o H E).
Defined.

(** ** Set-up on an empty data array *)

Lemma setup_empty_array cfg env :
  indexed cfg = true -> STREAM_ARRAY_SIZE cfg = 0 ->
  0 < STREAM_INDEX_ARRAY_SIZE cfg ->
  setup cfg env = None.
Proof.
  intros Ix H0 Hm. unfold setup. rewrite Ix.
  unfold init_abc at 1. rewrite H0, for_loop_0. osimpl.
  destruct (init_d_spec cfg (static_memory cfg)) as (d' & -> & _).
  { unfold static_memory. cbn [d]. rewrite Ix, length_replicate. lia. }
  osimpl. unfold init_i.
  rewrite (for_loop_fail _ _ _ 0 Hm); [done|].
  intros t. by rewrite decide_True.
Qed.

(** X12.  In a build with an indexed kernel, a non-empty index array and
    [STREAM_ARRAY_SIZE = 0], the set-up is undefined ([j % 0] in the
    initialisation of [i]), and so is [main]. *)
Theorem setup_undefined_on_empty_array cfg env fuel :
  indexed cfg = true -> STREAM_ARRAY_SIZE cfg = 0 ->
  0 < STREAM_INDEX_ARRAY_SIZE cfg ->
  setup cfg env = None /\ main cfg env fuel = Undefined.
Proof.
  intros Ix H0 Hm. pose proof (setup_empty_array cfg env Ix H0 Hm) as E.
  split; [done|]. unfold main.
  destruct (reset_statistics_spec cfg) as (st & -> & _).
  cbn [lift outcome_bind]. by rewrite E.
Qed.

Lemma setup_undefined_on_empty_array_witness :
  indexed cfg_empty = true /\ STREAM_ARRAY_SIZE cfg_empty = 0 /\
  0 < STREAM_INDEX_ARRAY_SIZE cfg_empty /\
  setup cfg_empty env_demo = None /\ main cfg_empty env_demo 1 = Undefined.
Proof.
  split; [reflexivity|]. split; [reflexivity|]. split; [apply le_n|].
  exact (setup_undefined_on_empty_array cfg_empty env_demo 1
           eq_refl eq_refl (le_n 1)).
Defined.

(** ** The elements past the array sizes *)

Lemma padding_kept_refl cfg m : padding_kept cfg m m.
Proof. by split. Qed.

Lemma padding_kept_trans cfg m1 m2 m3 :
  padding_kept cfg m1 m2 -> padding_kept cfg m2 m3 -> padding_kept cfg m1 m3.
Proof.
  intros [H1 H1'] [H2 H2']. split.
  - intros j Hj. destruct (H1 j Hj) as (? & ? & ? & ?).
    destruct (H2 j Hj) as (? & ? & ? & ?). repeat split; congruence.
  - intros j Hj. rewrite H2', H1'; done.
Qed.

Ltac open_body H :=
  repeat match type of H with
         | (?o ≫= _) = Some _ =>
             let E := fresh "E" in destruct o eqn:E; [osimpl in H | done]
         end;
  injection H as <-;
  repeat match goal with
         | E : store _ _ _ = Some _ |- _ => apply store_inv in E as [? ->]
         end.

Ltac keep_padding :=
  match goal with
  | Hp : padding_kept _ _ _ |- padding_kept _ _ _ =>
      destruct Hp as [Hp1 Hp2]; split;
      [ intros j' Hj'; destruct (Hp1 j' Hj') as (? & ? & ? & ?); osimpl;
        rewrite ?list_lookup_insert_ne by lia; done
      | intros j' Hj'; osimpl; rewrite ?list_lookup_insert_ne by lia;
        by apply Hp2 ]
  end.

Ltac loop_padding cfg m H :=
  apply (for_loop_post (fun _ t => padding_kept cfg m t /\ i t = i m)
           _ _ _ _ H);
  [ split; [apply padding_kept_refl | done]
  | let j := fresh "j" in let t := fresh "t" in let t' := fresh "t'" in
    let Hj := fresh "Hj" in let Hp := fresh "Hp" in let Hi := fresh "Hi" in
    let Hstep := fresh "Hstep" in
    intros j t t' Hj [Hp Hi] Hstep; open_body Hstep;
    split; [keep_padding | done] ].

Section Padding.
Variable cfg : config.

Lemma init_abc_padding m m' :
  init_abc cfg m = Some m' -> padding_kept cfg m m' /\ i m' = i m.
Proof. unfold init_abc. intros H. loop_padding cfg m H. Qed.

Lemma init_d_padding m m' :
  init_d cfg m = Some m' -> padding_kept cfg m m' /\ i m' = i m.
Proof. unfold init_d. intros H. loop_padding cfg m H. Qed.

Lemma init_e_padding m m' :
  init_e cfg m = Some m' -> padding_kept cfg m m' /\ i m' = i m.
Proof. unfold init_e. intros H. loop_padding cfg m H. Qed.

Lemma warm_up_padding m m' :
  warm_up cfg m = Some m' -> padding_kept cfg m m' /\ i m' = i m.
Proof. unfold warm_up. intros H. loop_padding cfg m H. Qed.

Lemma STREAM_Copy_padding m m' :
  STREAM_Copy cfg m = Some m' -> padding_kept cfg m m' /\ i m' = i m.
Proof. unfold STREAM_Copy. intros H. loop_padding cfg m H. Qed.

Lemma STREAM_Scale_padding scalar m m' :
  STREAM_Scale cfg scalar m = Some m' -> padding_kept cfg m m' /\ i m' = i m.
Proof. unfold STREAM_Scale. intros H. loop_padding cfg m H. Qed.

Lemma STREAM_Add_padding m m' :
  STREAM_Add cfg m = Some m' -> padding_kept cfg m m' /\ i m' = i m.
Proof. unfold STREAM_Add. intros H. loop_padding cfg m H. Qed.

Lemma STREAM_Triad_padding scalar m m' :
  STREAM_Triad cfg scalar m = Some m' -> padding_kept cfg m m' /\ i m' = i m.
Proof. unfold STREAM_Triad. intros H. loop_padding cfg m H. Qed.

Lemma STREAM_Gather_padding m m' :
  STREAM_Gather cfg m = Some m' -> padding_kept cfg m m' /\ i m' = i m.
Proof. unfold STREAM_Gather. intros H. loop_padding cfg m H. Qed.

Lemma STREAM_Indirect_dot_padding m m' :
  STREAM_Indirect_dot cfg m = Some m' -> padding_kept cfg m m' /\ i m' = i m.
Proof. unfold STREAM_Indirect_dot. intros H. loop_padding cfg m H. Qed.

Lemma STREAM_Scatter_padding m m' :
  in_bounds cfg m ->
  STREAM_Scatter cfg m = Some m' -> padding_kept cfg m m' /\ i m' = i m.
Proof.
  unfold STREAM_Scatter. intros Hib H.
  apply (for_loop_post (fun _ t => padding_kept cfg m t /\ i t = i m)
           _ _ _ _ H).
  - split; [apply padding_kept_refl | done].
  - intros j t t' Hj [Hp Hi] Hstep.
    destruct (i t !! j) as [ij|] eqn:Eij; [|done]. osimpl in Hstep.
    destruct (subscript ij) as [n|] eqn:En; [|done]. osimpl in Hstep.
    apply subscript_inv in En as ->. rewrite Hi in Eij.
    pose proof (Hib j _ Hj Eij) as Hn.
    open_body Hstep. split; [keep_padding | done].
Qed.

Lemma init_i_padding m m' : init_i cfg m = Some m' -> padding_kept cfg m m'.
Proof.
  unfold init_i. intros H.
  apply (for_loop_post (fun _ t => padding_kept cfg m t) _ _ _ _ H).
  - apply padding_kept_refl.
  - intros j t t' Hj Hp Hstep. open_body Hstep. keep_padding.
Qed.

Lemma permute_i_padding env m m' :
  permute_i cfg env m = Some m' -> padding_kept cfg m m'.
Proof.
  unfold permute_i. intros H.
  apply (for_loop_post (fun _ t => padding_kept cfg m t) _ _ _ _ H).
  - apply padding_kept_refl.
  - intros j t t' Hj Hp Hstep. open_body Hstep. keep_padding.
Qed.

Lemma setup_padding env m :
  setup cfg env = Some m -> padding_kept cfg (static_memory cfg) m.
Proof.
  unfold setup. intros H.
  destruct (init_abc cfg _) as [m1|] eqn:E1; [|done]. osimpl in H.
  apply init_abc_padding in E1 as [P1 _].
  assert (exists m2, padding_kept cfg m1 m2 /\
            (if ENABLE_SCATTER cfg then init_e cfg m2 else Some m2) = Some m)
    as (m2 & P2 & H2).
  { destruct (indexed cfg).
    - destruct (init_d cfg m1) as [md|] eqn:Ed; [|done]. osimpl in H.
      destruct (init_i cfg md) as [mi|] eqn:Ei; [|done]. osimpl in H.
      apply init_d_padding in Ed as [Pd _]. apply init_i_padding in Ei.
      destruct (PERMUTE_INDEX_ARRAY cfg).
      + destruct (permute_i cfg env mi) as [mp|] eqn:Ep; [|done].
        osimpl in H. apply permute_i_padding in Ep. exists mp.
        split; [|done].
        by repeat (eapply padding_kept_trans; [eassumption|]).
      + osimpl in H. exists mi. split; [|done].
        by eapply padding_kept_trans.
    - osimpl in H. exists m1. split; [apply padding_kept_refl | done]. }
  apply (padding_kept_trans _ _ m1); [done|].
  apply (padding_kept_trans _ _ m2); [done|].
  destruct (ENABLE_SCATTER cfg).
  - by apply init_e_padding in H2 as [? _].
  - injection H2 as <-. apply padding_kept_refl.
Qed.

Lemma trial_kernels_padding scalar m m' :
  in_bounds cfg m ->
  trial_kernels cfg scalar m = Some m' -> padding_kept cfg m m' /\ i m' = i m.
Proof.
  unfold trial_kernels. intros Hib H.
  destruct (STREAM_Copy cfg m) as [m1|] eqn:E1; [|done]. osimpl in H.
  destruct (STREAM_Scale cfg scalar m1) as [m2|] eqn:E2; [|done]. osimpl in H.
  destruct (STREAM_Add cfg m2) as [m3|] eqn:E3; [|done]. osimpl in H.
  destruct (STREAM_Triad cfg scalar m3) as [m4|] eqn:E4; [|done]. osimpl in H.
  apply STREAM_Copy_padding in E1 as [P1 I1].
  apply STREAM_Scale_padding in E2 as [P2 I2].
  apply STREAM_Add_padding in E3 as [P3 I3].
  apply STREAM_Triad_padding in E4 as [P4 I4].
  assert (P : padding_kept cfg m m4 /\ i m4 = i m).
  { split; [|congruence].
    by repeat (eapply padding_kept_trans; [eassumption|]). }
  clear P1 P2 P3 P4 I1 I2 I3 I4. destruct P as [P4 I4].
  destruct (if ENABLE_GATHER cfg then _ else _) as [m5|] eqn:E5 in H; [|done].
  osimpl in H.
  assert (P5 : padding_kept cfg m m5 /\ i m5 = i m).
  { destruct (ENABLE_GATHER cfg).
    - apply STREAM_Gather_padding in E5 as [P5 I5]. split; [|congruence].
      by eapply padding_kept_trans.
    - by injection E5 as <-. }
  clear P4 I4 E5. destruct P5 as [P5 I5].
  destruct (if ENABLE_SCATTER cfg then _ else _) as [m6|] eqn:E6 in H; [|done].
  osimpl in H.
  assert (P6 : padding_kept cfg m m6 /\ i m6 = i m).
  { destruct (ENABLE_SCATTER cfg).
    - apply STREAM_Scatter_padding in E6 as [P6 I6].
      + split; [|congruence]. by eapply padding_kept_trans.
      + intros j z Hj Hz. rewrite I5 in Hz. by apply (Hib j).
    - by injection E6 as <-. }
  clear P5 I5 E6. destruct P6 as [P6 I6].
  destruct (ENABLE_INDIRECT_DOT_PRODUCT cfg).
  - apply STREAM_Indirect_dot_padding in H as [P7 I7]. osimpl in *.
    split; [|congruence]. eapply padding_kept_trans; [exact P6|].
    destruct P7 as [Q1 Q2]. by split.
  - by injection H as <-.
Qed.

Lemma main_loop_padding env ntimes s0 s :
  in_bounds cfg (mem s0) ->
  main_loop cfg env ntimes s0 = Some s ->
  padding_kept cfg (mem s0) (mem s) /\ i (mem s) = i (mem s0).
Proof.
  unfold main_loop. intros Hib H.
  apply (for_loop_post (fun _ t => padding_kept cfg (mem s0) (mem t) /\
                                   i (mem t) = i (mem s0)) _ _ _ _ H).
  - split; [apply padding_kept_refl | done].
  - intros k t t' Hk [Hp Hi] Ht. apply trial_inv in Ht as (Hker & _).
    apply trial_kernels_padding in Hker as [Hp' Hi'].
    + split; [by eapply padding_kept_trans | congruence].
    + intros j z Hj Hz. rewrite Hi in Hz. by apply (Hib j).
Qed.

End Padding.

(** X13.  No loop of the program writes an element at or past the array
    size: after set-up, warm-up and any number of trials, the [OFFSET]
    elements that follow the first [STREAM_ARRAY_SIZE] of [a], [b], [c]
    and [e], and the first [STREAM_INDEX_ARRAY_SIZE] of [d], still hold
    the zero of static storage. *)
Theorem offset_padding_untouched cfg env ntimes r :
  well_configured cfg env ->
  exists m0 m1 s,
    setup cfg env = Some m0 /\
    warm_up cfg m0 = Some m1 /\
    main_loop cfg env ntimes (entry cfg ntimes m1 r) = Some s /\
    (forall j, STREAM_ARRAY_SIZE cfg <= j < STREAM_ARRAY_SIZE cfg + OFFSET cfg ->
       a (mem s) !! j = Some c_0 /\ b (mem s) !! j = Some c_0 /\
       c (mem s) !! j = Some c_0 /\
       (if ENABLE_SCATTER cfg then e (mem s) !! j = Some c_0 else True)) /\
    (forall j, STREAM_INDEX_ARRAY_SIZE cfg <= j
               < STREAM_INDEX_ARRAY_SIZE cfg + OFFSET cfg ->
       if indexed cfg then d (mem s) !! j = Some c_0 else True).
Proof.
  intros Hwf.
  destruct (run_agrees cfg env ntimes r Hwf)
    as (m0 & m1 & s & E0 & E1 & Es & _).
  destruct (setup_spec cfg env Hwf) as (m0' & E0' & _ & Hib & _).
  assert (m0' = m0) as -> by congruence.
  exists m0, m1, s. do 3 (split; [done|]).
  pose proof (setup_padding cfg env m0 E0) as P0.
  destruct (warm_up_padding cfg m0 m1 E1) as [P1 I1].
  assert (Hib1 : in_bounds cfg (mem (entry cfg ntimes m1 r))).
  { intros j z Hj Hz. cbn [mem entry] in Hz. rewrite I1 in Hz.
    by apply (Hib j). }
  destruct (main_loop_padding cfg env ntimes _ s Hib1 Es) as [P2 _].
  cbn [mem entry] in P2.
  assert (P : padding_kept cfg (static_memory cfg) (mem s)).
  { apply (padding_kept_trans _ _ m0); [done|].
    by apply (padding_kept_trans _ _ m1). }
  destruct P as [Pn Pm]. split.
  - intros j [Hlo Hhi]. destruct (Pn j Hlo) as (-> & -> & -> & He).
    unfold static_memory. cbn [a b c e].
    rewrite !lookup_replicate_2 by lia. do 3 (split; [done|]).
    destruct (ENABLE_SCATTER cfg) eqn:Sc; [|done].
    rewrite He. unfold static_memory. cbn [e]. rewrite Sc.
    by rewrite lookup_replicate_2 by lia.
  - intros j [Hlo Hhi]. destruct (indexed cfg) eqn:Ix; [|done].
    rewrite (Pm j Hlo). unfold static_memory. cbn [d]. rewrite Ix.
    by rewrite lookup_replicate_2 by lia.
Qed.

Lemma offset_padding_untouched_witness :
  well_configured cfg_demo env_demo /\
  exists m0 m1 s,
    setup cfg_demo env_demo = Some m0 /\
    warm_up cfg_demo m0 = Some m1 /\
    main_loop cfg_demo env_demo 2 (entry cfg_demo 2 m1 42) = Some s /\
    (forall j, STREAM_ARRAY_SIZE cfg_demo <= j
               < STREAM_ARRAY_SIZE cfg_demo + OFFSET cfg_demo ->
       a (mem s) !! j = Some c_0 /\ b (mem s) !! j = Some c_0 /\
       c (mem s) !! j = Some c_0 /\
       (if ENABLE_SCATTER cfg_demo then e (mem s) !! j = Some c_0 else True)) /\
    (forall j, STREAM_INDEX_ARRAY_SIZE cfg_demo <= j
               < STREAM_INDEX_ARRAY_SIZE cfg_demo + OFFSET cfg_demo ->
       if indexed cfg_demo then d (mem s) !! j = Some c_0 else True).
Proof.
  split; [exact well_configured_demo|].
  exact (offset_padding_untouched cfg_demo env_demo 2 42 well_configured_demo).
Defined.

(** ** The stubs of the tuned build *)

Lemma spin_with_TUNED t cfg env fuel t1 n :
  spin (with_TUNED t cfg) env fuel t1 n = spin cfg env fuel t1 n.
Proof.
  revert n. induction fuel as [|fuel IH]; intros n; [done|].
  cbn [spin]. change (mysecond (with_TUNED t cfg)) with (mysecond cfg).
  by rewrite IH.
Qed.

Lemma checktick_with_TUNED t cfg env fuel n :
  checktick (with_TUNED t cfg) env fuel n = checktick cfg env fuel n.
Proof.
  unfold checktick.
  assert (collect (with_TUNED t cfg) env fuel n = collect cfg env fuel n)
    as ->; [|done].
  unfold collect. apply for_loop_ext. intros j st _.
  change (mysecond (with_TUNED t cfg)) with (mysecond cfg).
  by rewrite spin_with_TUNED.
Qed.

Lemma main_with_TUNED t cfg env fuel :
  main (with_TUNED t cfg) env fuel = main cfg env fuel.
Proof.
  unfold main. rewrite checktick_with_TUNED.
  destruct cfg as [ty n mi nt off g sc dt pm tu cl]. by destruct t, tu.
Qed.

(** X14.  Compiling with [-DTUNED] changes nothing that is computed: a
    trial, and the whole of [main], give the same result with the stubs
    as with the loops written in [main]. *)
Theorem tuned_build_same cfg env fuel scalar k s :
  main (with_TUNED true cfg) env fuel = main (with_TUNED false cfg) env fuel /\
  trial (with_TUNED true cfg) env scalar k s =
    trial (with_TUNED false cfg) env scalar k s.
Proof.
  split; [by rewrite !main_with_TUNED|].
  destruct cfg as [ty n mi nt off g sc dt pm tu cl]. reflexivity.
Qed.
